(** * Background monitors, safe queues and seeding: a shallow embedding

    The development follows two source files of the repository:

    - [clearml/utilities/process/mp.py]: [SafeQueue], [SingletonLock] and
      [BackgroundMonitor];
    - [trains/utilities/seed.py]: [make_deterministic].

    Part I embeds the code, one module per class (or per file for the
    seeding utility).  Part II states and proves the properties. *)

From Stdlib Require Import ZArith Lia.
From stdpp Require Import base option list gmap.

Set Default Proof Using "Type".

(* ===================================================================== *)
(** * Part I: the embedding                                              *)
(* ===================================================================== *)

(** ** Python programs as state-passing computations

    A method body is a function from the state it can touch to the state
    it leaves behind together with the way it ended.  A Python call ends
    by returning, by raising, or never (it blocks on a lock, an event or
    a pipe that nobody will ever feed).  The loop of a monitor thread is
    run with an iteration budget; [OutOfFuel] says the budget ran out
    while the loop was still going. *)
Module Py.

(** The exception classes the embedded code can meet.  All of them derive
    from [Exception]; [psutil_Error] stands for [psutil.Error] and its
    subclasses ([NoSuchProcess], [AccessDenied], ...), [OtherError n] for
    any further user or library exception. *)
Inductive exn : Type :=
| TypeError
| ValueError
| AttributeError
| AssertionError
| psutil_Error
| OtherError (n : nat).

#[global] Instance exn_eq_dec : EqDecision exn.
Proof. solve_decision. Defined.

Definition is_psutil_Error (e : exn) : bool :=
  match e with psutil_Error => true | _ => false end.

Inductive outcome (A : Type) : Type :=
| Ret (a : A)
| Raise (e : exn)
| Block
| OutOfFuel.
Arguments Ret {A} a.
Arguments Raise {A} e.
Arguments Block {A}.
Arguments OutOfFuel {A}.

Definition prog (S A : Type) : Type := S -> S * outcome A.

Definition ret {S A} (a : A) : prog S A := fun s => (s, Ret a).

Definition bind {S A B} (m : prog S A) (k : A -> prog S B) : prog S B :=
  fun s =>
    match m s with
    | (s', Ret a) => k a s'
    | (s', Raise e) => (s', Raise e)
    | (s', Block) => (s', Block)
    | (s', OutOfFuel) => (s', OutOfFuel)
    end.

Definition raise {S A} (e : exn) : prog S A := fun s => (s, Raise e).
Definition block {S A} : prog S A := fun s => (s, Block).
Definition out_of_fuel {S A} : prog S A := fun s => (s, OutOfFuel).
Definition read {S} : prog S S := fun s => (s, Ret s).
Definition modify {S} (f : S -> S) : prog S unit := fun s => (f s, Ret tt).

(** [try: m except <classes>: h]: the handler is given the exception and
    answers [None] when no [except] clause matches it. *)
Definition try_except {S A} (m : prog S A) (h : exn -> option (prog S A))
  : prog S A :=
  fun s =>
    match m s with
    | (s', Raise e) =>
        match h e with
        | Some k => k s'
        | None => (s', Raise e)
        end
    | r => r
    end.

(** [if c: m] *)
Definition when {S} (c : bool) (m : prog S unit) : prog S unit :=
  if c then m else ret tt.

(** [for x in l: body x] *)
Fixpoint for_each {S A} (l : list A) (body : A -> prog S unit) : prog S unit :=
  match l with
  | [] => ret tt
  | x :: l' => bind (body x) (fun _ => for_each l' body)
  end.

(** The few Python values whose truth value or class matters below. *)
#[warnings="-register-all"]
Inductive value : Type :=
| VNone
| VBool (b : bool)
| VExcType (e : exn)
| VExc (e : exn)
| VTraceback
| VTuple (l : list value).

Definition truthy (v : value) : bool :=
  match v with
  | VNone => false
  | VBool b => b
  | VTuple [] => false
  | _ => true
  end.

(** [a and b]: the first operand when it is falsy, the second otherwise. *)
Definition py_and (a b : value) : value := if truthy a then b else a.

(** Python 3's [raise EXPR]: an exception class or instance is raised;
    anything else, a tuple included, is not an exception, and the
    statement raises [TypeError] ("exceptions must derive from
    BaseException") in its place. *)
Definition raise_stmt {S A} (v : value) : prog S A :=
  match v with
  | VExcType e | VExc e => raise e
  | _ => raise TypeError
  end.

(** [with mgr: body], for a manager given by its [__enter__] and
    [__exit__].  Leaving normally calls [__exit__(None, None, None)];
    leaving by an exception [e] calls [__exit__(type(e), e, traceback)]
    and raises [e] again unless the call answers a true value; what
    [__exit__] itself raises replaces either ending. *)
Definition with_stmt {S} (enter : prog S unit)
    (exit : value -> value -> value -> prog S value)
    (body : prog S unit) : prog S unit :=
  bind enter (fun _ s =>
    match body s with
    | (s', Ret _) => bind (exit VNone VNone VNone) (fun _ => ret tt) s'
    | (s', Raise e) =>
        bind (exit (VExcType e) (VExc e) VTraceback)
          (fun swallow => if truthy swallow then ret tt else raise e) s'
    | (s', Block) => (s', Block)
    | (s', OutOfFuel) => (s', OutOfFuel)
    end).

End Py.

Import Py.

Declare Scope py_scope.
Delimit Scope py_scope with py.
Notation "x <- m ;; k" := (bind m (fun x => k))
  (at level 20, m at level 99, k at level 200, only parsing) : py_scope.
Notation "m ;; k" := (bind m (fun _ => k))
  (at level 100, k at level 200, right associativity, only parsing) : py_scope.
Open Scope py_scope.

(** ** [trains/utilities/seed.py] *)
Module Seed.

(** The calls into the numeric libraries that [make_deterministic] can
    issue; each seeding call carries the seed it is given. *)
Inductive lib_call : Type :=
| cudnn_set_deterministic
| random_seed (s : Z)
| np_random_seed (s : Z)
| cv2_setRNGSeed (s : Z)
| torch_manual_seed (s : Z)
| torch_cuda_manual_seed (s : Z)
| tf_set_random_seed (s : Z)
| tf_random_set_random_seed (s : Z).

Definition seed_of (c : lib_call) : option Z :=
  match c with
  | cudnn_set_deterministic => None
  | random_seed s | np_random_seed s | cv2_setRNGSeed s
  | torch_manual_seed s | torch_cuda_manual_seed s
  | tf_set_random_seed s | tf_random_set_random_seed s => Some s
  end.

(** What the interpreter has loaded when the function runs: which of the
    optional modules are present ([np is not None], ...), what the eager
    mode probe of tensorflow answers, and which library calls raise. *)
Record modules : Type := {
  np : bool;
  cv2 : bool;
  torch : bool;
  tf : bool;
  eager_mode_bypass : bool;
  fails : lib_call -> option exn
}.

(** The state is the log of library calls issued so far. *)
Definition call (env : modules) (c : lib_call) : prog (list lib_call) unit :=
  fun log =>
    (log ++ [c], match fails env c with Some e => Raise e | None => Ret tt end).

(** [try: m except Exception: pass] *)
Definition try_pass (m : prog (list lib_call) unit) : prog (list lib_call) unit :=
  try_except m (fun _ => Some (ret tt)).

(** The seed is a Python integer, unbounded and possibly negative, on
    which [int(seed)] is the identity; [&] on such integers works on the
    two's complement, as [Z.land] does. *)
Definition make_deterministic (env : modules) (seed : Z) (cudnn_deterministic : bool)
  : prog (list lib_call) unit :=
  let seed := Z.land seed 0xFFFFFFFF in
  when cudnn_deterministic
    (try_pass (if torch env then call env cudnn_set_deterministic
               else raise AttributeError)) ;;
  call env (random_seed seed) ;;
  when (np env) (call env (np_random_seed seed)) ;;
  when (cv2 env) (try_pass (call env (cv2_setRNGSeed seed))) ;;
  when (torch env)
    (try_pass (call env (torch_manual_seed seed) ;;
               call env (torch_cuda_manual_seed seed))) ;;
  when (tf env)
    (when (negb (eager_mode_bypass env))
       (try_pass (call env (tf_set_random_seed seed)) ;;
        try_pass (call env (tf_random_set_random_seed seed)))).

(** A program keeps [P] when every call it adds to the log satisfies it. *)
Definition keeps (P : lib_call -> Prop) (m : prog (list lib_call) unit) : Prop :=
  forall log, Forall P log -> Forall P (fst (m log)).

(** A program that returns from every log, and one that at least ends,
    by returning or by raising. *)
Definition returns (m : prog (list lib_call) unit) : Prop :=
  forall log, snd (m log) = Ret tt.
Definition ends (m : prog (list lib_call) unit) : Prop :=
  forall log, snd (m log) = Ret tt \/ exists e, snd (m log) = Raise e.

(** A program that drops nothing from the log. *)
Definition remembers (m : prog (list lib_call) unit) : Prop :=
  forall log c, c ∈ log -> c ∈ fst (m log).

End Seed.

(** ** [SafeQueue]

    The class keeps three class attributes shared by all its instances:
    the lock, the single-slot thread pool and the process id that made
    the pool.  An instance owns one [SimpleQueue]; here the instance is
    named by the key of its pipe in [pipes], and a pipe holds the items
    written and not yet read, oldest first.

    [os.getpid()] is an argument of every operation, so that the same
    state can be driven from a forked copy of the process. *)
Module SafeQueue.
Section Items.
Variable item : Type.

(** [SimpleQueue.put(obj)] pickles [obj] ([_ForkingPickler.dumps(obj)])
    before it writes to the pipe, and [get] unpickles what it reads.
    [picklable obj] says whether [dumps] succeeds on [obj]; an item
    stands for its value, and the copy that [get] hands out is the item
    that was written. *)
Variable picklable : item -> bool.

(** What the operations do to the shared primitives, in order. *)
Inductive action : Type :=
| LockAcquired
| LockReleased
| PoolCreated (pid : nat)
| Dispatched (q : nat) (obj : item).

Record world : Type := {
  (** [SafeQueue.__lock]: [None], or a [Lock] and whether it is held *)
  __lock : option bool;
  (** [SafeQueue.__thread_pool]: [None], or a [ThreadPool(processes=1)]
      with the [apply_async] jobs it has not run yet, oldest first; a job
      [(q, obj)] is the call [q._q.put(obj)] *)
  __thread_pool : option (list (nat * item));
  (** [SafeQueue.__thread_pool_pid] *)
  __thread_pool_pid : option nat;
  (** the [SimpleQueue] of every instance *)
  pipes : gmap nat (list item);
  log : list action
}.

Definition set_lock (l : option bool) (w : world) : world :=
  {| __lock := l; __thread_pool := __thread_pool w;
     __thread_pool_pid := __thread_pool_pid w; pipes := pipes w; log := log w |}.
Definition set_pool (p : option (list (nat * item))) (w : world) : world :=
  {| __lock := __lock w; __thread_pool := p;
     __thread_pool_pid := __thread_pool_pid w; pipes := pipes w; log := log w |}.
Definition set_pool_pid (p : option nat) (w : world) : world :=
  {| __lock := __lock w; __thread_pool := __thread_pool w;
     __thread_pool_pid := p; pipes := pipes w; log := log w |}.
Definition set_pipes (ps : gmap nat (list item)) (w : world) : world :=
  {| __lock := __lock w; __thread_pool := __thread_pool w;
     __thread_pool_pid := __thread_pool_pid w; pipes := ps; log := log w |}.
Definition emit (a : action) (w : world) : world :=
  {| __lock := __lock w; __thread_pool := __thread_pool w;
     __thread_pool_pid := __thread_pool_pid w; pipes := pipes w;
     log := log w ++ [a] |}.

(** The state of a module that has just been imported. *)
Definition fresh_world : world :=
  {| __lock := None; __thread_pool := None; __thread_pool_pid := None;
     pipes := ∅; log := [] |}.

(** [lock.acquire()] of a [multiprocessing.Lock]: taking a held lock never
    returns in a sequential run; there is no lock to take on [None]. *)
Definition lock_acquire : prog world unit :=
  w <- read ;;
  match __lock w with
  | None => raise AttributeError
  | Some true => block
  | Some false => modify (set_lock (Some true)) ;; modify (emit LockAcquired)
  end.

Definition lock_release : prog world unit :=
  w <- read ;;
  match __lock w with
  | None => raise AttributeError
  | Some false => raise ValueError
  | Some true => modify (set_lock (Some false)) ;; modify (emit LockReleased)
  end.

(** [with SafeQueue.__lock: body]: a [multiprocessing.Lock] is its own
    context manager; entering acquires it, leaving releases it and
    answers [None]. *)
Definition with_lock (body : prog world unit) : prog world unit :=
  with_stmt lock_acquire (fun _ _ _ => lock_release ;; ret VNone) body.

(** [ThreadPool(processes=1)] bound to the calling process. *)
Definition new_pool (pid : nat) : prog world unit :=
  modify (set_pool_pid (Some pid)) ;;
  modify (set_pool (Some [])) ;;
  modify (emit (PoolCreated pid)).

Definition __init__ (pid : nat) : prog world nat :=
  w <- read ;;
  let self := fresh (dom (pipes w)) in
  modify (set_pipes (<[self := []]> (pipes w))) ;;
  when (negb (bool_decide (is_Some (__lock w))))
    (modify (set_lock (Some false))) ;;
  w <- read ;;
  when (negb (bool_decide (is_Some (__thread_pool w))))
    (with_lock
       (w <- read ;;
        when (negb (bool_decide (is_Some (__thread_pool w)))) (new_pool pid))) ;;
  ret self.

Definition empty (self : nat) : prog world bool :=
  w <- read ;;
  ret (bool_decide (pipes w !!! self = [])).

Definition apply_async (self : nat) (obj : item) : prog world unit :=
  w <- read ;;
  match __thread_pool w with
  | None => raise AttributeError
  | Some jobs =>
      modify (set_pool (Some (jobs ++ [(self, obj)]))) ;;
      modify (emit (Dispatched self obj))
  end.

Definition put (pid : nat) (self : nat) (obj : item) : prog world unit :=
  w <- read ;;
  when (negb (bool_decide (Some pid = __thread_pool_pid w)))
    (with_lock
       (w <- read ;;
        when (negb (bool_decide (Some pid = __thread_pool_pid w)))
          (new_pool pid))) ;;
  apply_async self obj.

(** The write end of a pipe: [q._q.put(obj)]. *)
Definition deliver (q : nat) (obj : item) (ps : gmap nat (list item))
  : gmap nat (list item) :=
  <[q := ps !!! q ++ [obj]]> ps.

(** The job [q._q.put(obj)] as the pool's thread runs it: an item that
    cannot be pickled makes the call raise before anything is written.
    [apply_async] keeps the exception in an [AsyncResult] that [put]
    throws away, so nobody sees it: the job is over and the pipe is as it
    was. *)
Definition write (q : nat) (obj : item) (ps : gmap nat (list item))
  : gmap nat (list item) :=
  if picklable obj then deliver q obj ps else ps.

(** One job of the pool's only thread.  The thread lives in the process
    that made the pool: in any other process the jobs stay where they
    are. *)
Definition worker_step (pid : nat) (w : world) : world :=
  if bool_decide (Some pid = __thread_pool_pid w) then
    match __thread_pool w with
    | Some ((q, obj) :: jobs) =>
        set_pipes (write q obj (pipes w)) (set_pool (Some jobs) w)
    | _ => w
    end
  else w.

Definition worker_steps (pid : nat) (n : nat) (w : world) : world :=
  Nat.iter n (worker_step pid) w.

(** The reader sleeps on the empty pipe of [self] while the pool's thread
    goes on with its jobs; [await] runs them up to and including the
    first one that writes to [self], and answers [None] when no pending
    job does: a job for [self] whose item cannot be pickled writes
    nothing, and the reader sleeps on. *)
Fixpoint await (self : nat) (jobs : list (nat * item))
    (ps : gmap nat (list item))
  : option (item * list (nat * item) * gmap nat (list item)) :=
  match jobs with
  | [] => None
  | (q, obj) :: jobs' =>
      if bool_decide (q = self) && picklable obj then Some (obj, jobs', ps)
      else await self jobs' (write q obj ps)
  end.

(** [self._q.get()]: the oldest item of the pipe; on an empty pipe the
    call returns once the pool's thread of this process has written, and
    never when nothing is on its way (what other processes write to the
    pipe is not part of this view). *)
Definition get (pid : nat) (self : nat) : prog world item :=
  w <- read ;;
  match pipes w !!! self with
  | obj :: rest =>
      modify (set_pipes (<[self := rest]> (pipes w))) ;; ret obj
  | [] =>
      if bool_decide (Some pid = __thread_pool_pid w) then
        match await self (default [] (__thread_pool w)) (pipes w) with
        | Some (obj, jobs, ps) =>
            modify (set_pool (Some jobs)) ;; modify (set_pipes ps) ;; ret obj
        | None => block
        end
      else block
  end.

(** What holds of the class attributes between two calls, once some
    instance was constructed: the lock exists and nobody holds it, and
    there is a pool. *)
Definition ready (w : world) : Prop :=
  __lock w = Some false /\ is_Some (__thread_pool w).

(** The jobs the pool's thread will still run in process [pid]. *)
Definition pending (pid : nat) (w : world) : list (nat * item) :=
  if bool_decide (Some pid = __thread_pool_pid w)
  then default [] (__thread_pool w) else [].

(** Nothing is in the pipe of [self] and nothing is on its way to it. *)
Definition quiet (pid self : nat) (w : world) : Prop :=
  pipes w !!! self = [] /\ forall obj, (self, obj) ∉ pending pid w.

End Items.

Arguments LockAcquired {item}.
Arguments LockReleased {item}.
Arguments PoolCreated {item} pid.
Arguments Dispatched {item} q obj.
Arguments fresh_world {item}.
Arguments __lock {item} w.
Arguments __thread_pool {item} w.
Arguments __thread_pool_pid {item} w.
Arguments pipes {item} w.
Arguments log {item} w.
Arguments __init__ {item} pid.
Arguments empty {item} self.
Arguments put {item} pid self obj.
Arguments get {item} picklable pid self.
Arguments write {item} picklable q obj ps.
Arguments worker_step {item} picklable pid w.
Arguments worker_steps {item} picklable pid n w.
Arguments apply_async {item} self obj.
Arguments with_lock {item} body.
Arguments new_pool {item} pid.
Arguments ready {item} w.
Arguments pending {item} pid w.
Arguments quiet {item} pid self w.
Arguments await {item} picklable self jobs ps.
Arguments deliver {item} q obj ps.
Arguments emit {item} a w.
Arguments set_lock {item} l w.
Arguments set_pool {item} p w.
Arguments set_pool_pid {item} p w.
Arguments set_pipes {item} ps w.

(** Unfolds the combinators of a program applied to a state. *)
Ltac run :=
  unfold with_lock, with_stmt, new_pool, apply_async, lock_acquire,
    lock_release, when, try_except, bind, read, modify, ret, raise, block;
  unfold emit, set_lock, set_pool, set_pool_pid, set_pipes;
  simpl.

(** The pending jobs that will write to [self]. *)
Definition writes_to {item} (picklable : item -> bool) (self : nat)
    (job : nat * item) : bool :=
  bool_decide (fst job = self) && picklable (snd job).

(** The items a reader of [self] in process [pid] has still to get, in
    the order it will get them: what is in the pipe, then what the
    pool's thread has still to write to it. *)
Definition on_the_way {item} (picklable : item -> bool) (pid self : nat)
    (w : world item) : list item :=
  pipes w !!! self
  ++ (List.filter (writes_to picklable self) (pending pid w)).*2.

(** A client that calls [get] [n] times and keeps what it got. *)
Fixpoint gets {item} (picklable : item -> bool) (pid self n : nat)
  : prog (world item) (list item) :=
  match n with
  | 0 => ret []
  | S n' =>
      obj <- get picklable pid self ;;
      objs <- gets picklable pid self n' ;;
      ret (obj :: objs)
  end.

(** Items for closed examples: numbers, which pickle, and a lambda,
    which does not. *)
Inductive sample : Type :=
| Number (n : nat)
| Lambda.

Definition sample_picklable (x : sample) : bool :=
  match x with Number _ => true | Lambda => false end.

End SafeQueue.

(** ** [SingletonLock]

    [SingletonLock._instances] holds every instance ever constructed, in
    construction order, and nothing is ever removed from it; an instance
    is named by its position there, and what is stored at that position
    is its [_lock] attribute: [None], or the [multiprocessing.Lock] it
    owns.  The locks of the operating system are kept apart, each with
    the fact whether it is held. *)
Module SingletonLock.

Inductive action : Type :=
| LockAllocated (self : nat)
| Acquired (self : nat)
| Released (self : nat).

#[global] Instance action_eq_dec : EqDecision action.
Proof. solve_decision. Defined.

Record world : Type := {
  _instances : list (option nat);
  os_locks : list bool;
  log : list action
}.

Definition set_instances (l : list (option nat)) (w : world) : world :=
  {| _instances := l; os_locks := os_locks w; log := log w |}.
Definition set_os_locks (l : list bool) (w : world) : world :=
  {| _instances := _instances w; os_locks := l; log := log w |}.
Definition emit (a : action) (w : world) : world :=
  {| _instances := _instances w; os_locks := os_locks w; log := log w ++ [a] |}.

Definition fresh_world : world :=
  {| _instances := []; os_locks := []; log := [] |}.

(** [self._lock] *)
Definition _lock (w : world) (self : nat) : option nat :=
  mjoin (_instances w !! self).

Definition __init__ : prog world nat :=
  w <- read ;;
  modify (set_instances (_instances w ++ [None])) ;;
  ret (length (_instances w)).

Definition create (self : nat) : prog world unit :=
  w <- read ;;
  when (negb (bool_decide (is_Some (_lock w self))))
    (let l := length (os_locks w) in
     modify (set_os_locks (os_locks w ++ [false])) ;;
     modify (set_instances (<[self := Some l]> (_instances w))) ;;
     modify (emit (LockAllocated self))).

(** [Lock.acquire()] with its default arguments: it blocks while the lock
    is held, and the lock is not re-entrant. *)
Definition acquire (self : nat) : prog world bool :=
  create self ;;
  w <- read ;;
  match _lock w self with
  | None => raise AttributeError
  | Some l =>
      match os_locks w !! l with
      | Some false =>
          modify (set_os_locks (<[l := true]> (os_locks w))) ;;
          modify (emit (Acquired self)) ;;
          ret true
      | _ => block
      end
  end.

(** [Lock.release()] raises [ValueError] on a lock nobody holds. *)
Definition release (self : nat) : prog world unit :=
  w <- read ;;
  match _lock w self with
  | None => ret tt
  | Some l =>
      match os_locks w !! l with
      | Some true =>
          modify (set_os_locks (<[l := false]> (os_locks w))) ;;
          modify (emit (Released self))
      | _ => raise ValueError
      end
  end.

Definition instantiate : prog world unit :=
  w <- read ;;
  for_each (seq 0 (length (_instances w))) create.

Definition __enter__ (self : nat) : prog world unit :=
  acquire self ;; ret tt.

Definition __exit__ (self : nat) (exc_type exc_value traceback : value)
  : prog world value :=
  release self ;;
  (if existsb truthy [exc_type; exc_value; traceback]
   then raise_stmt (VTuple [exc_type; exc_value; traceback])
   else ret tt) ;;
  ret VNone.

(** [with self: body] *)
Definition scoped (self : nat) (body : prog world unit) : prog world unit :=
  with_stmt (__enter__ self) (__exit__ self) body.

(** Whether the lock of [self] exists and is held. *)
Definition held (w : world) (self : nat) : bool :=
  match _lock w self with
  | Some l => default false (os_locks w !! l)
  | None => false
  end.

(** How many times a [Lock()] was allocated for [self]. *)
Definition allocations (w : world) (self : nat) : nat :=
  length (List.filter (fun a => bool_decide (a = LockAllocated self)) (log w)).

(** The calls a client can make, for runs of arbitrary length. *)
Inductive request : Type :=
| Create (self : nat)
| Instantiate
| Acquire (self : nat)
| Release (self : nat).

Definition serve (r : request) : prog world unit :=
  match r with
  | Create self => create self
  | Instantiate => instantiate
  | Acquire self => acquire self ;; ret tt
  | Release self => release self
  end.

Definition is_creation (r : request) : bool :=
  match r with Create _ | Instantiate => true | _ => false end.

(** The instance a request names has been constructed. *)
Definition addressed (w : world) (r : request) : Prop :=
  match r with
  | Create self | Acquire self | Release self => self < length (_instances w)
  | Instantiate => True
  end.

(** The bookkeeping every run from [fresh_world] keeps: an instance has a
    lock exactly when one [Lock()] was allocated for it, and that lock is
    one of the locks of the operating system. *)
Definition wf (w : world) : Prop :=
  forall self,
    allocations w self = match _lock w self with Some _ => 1 | None => 0 end
    /\ (forall l, _lock w self = Some l -> l < length (os_locks w)).

(** [w'] comes after [w]: the same instances, each lock that existed is
    still the lock of its instance, and no lock changed hands. *)
Definition extends (w w' : world) : Prop :=
  wf w'
  /\ length (_instances w') = length (_instances w)
  /\ (forall self, held w' self = held w self)
  /\ (forall self l, _lock w self = Some l -> _lock w' self = Some l).

(** No two instances share a lock of the operating system. *)
Definition distinct_locks (w : world) : Prop :=
  forall self self' l,
    _lock w self = Some l -> _lock w self' = Some l -> self = self'.

(** Unfolds the combinators of a program applied to a state. *)
Ltac run :=
  unfold when, try_except, bind, read, modify, ret, raise, block;
  unfold emit, set_instances, set_os_locks;
  simpl.

End SingletonLock.

(** ** [BackgroundMonitor]

    Monitors are objects on a heap, named by their address; the class
    attributes ([_main_process], [_parent_pid], [_sub_process_started],
    [_instances]) sit beside the heap, and [_instances] holds addresses,
    so that a monitor reached through the list and through [self] is the
    same object.  The world is the view of one process. *)
Module BackgroundMonitor.

Inductive event_kind : Type := TrEvent | PrEvent.

(** A [threading.Event] or a [multiprocessing.Event] and its flag. *)
Record event : Type := { kind : event_kind; is_set : bool }.

Definition new_event (k : event_kind) : event := {| kind := k; is_set := false |}.
Definition set (e : event) : event := {| kind := kind e; is_set := true |}.
Definition clear (e : event) : event := {| kind := kind e; is_set := false |}.

(** The three shapes of [self._thread]: [None], the mark [True] that
    [start] leaves, and a [Thread] object (named by its number). *)
Inductive thread_slot : Type :=
| NoThread
| Marked
| ThreadObj (tid : nat).

Definition slot_truthy (t : thread_slot) : bool :=
  match t with NoThread => false | _ => true end.

(** [isinstance(self._thread, Thread)] *)
Definition is_Thread (t : thread_slot) : bool :=
  match t with ThreadObj _ => true | _ => false end.

Record monitor : Type := {
  _event : event;
  _done_ev : event;
  _start_ev : event;
  _task_pid : nat;
  _thread : thread_slot;
  _wait_timeout : nat;
  _subprocess : bool
}.

#[global] Instance monitor_inhabited : Inhabited monitor :=
  populate {| _event := new_event TrEvent; _done_ev := new_event TrEvent;
              _start_ev := new_event TrEvent; _task_pid := 0;
              _thread := NoThread; _wait_timeout := 0; _subprocess := false |}.

Definition with_event (e : event) (m : monitor) : monitor :=
  {| _event := e; _done_ev := _done_ev m; _start_ev := _start_ev m;
     _task_pid := _task_pid m; _thread := _thread m;
     _wait_timeout := _wait_timeout m; _subprocess := _subprocess m |}.
Definition with_done_ev (e : event) (m : monitor) : monitor :=
  {| _event := _event m; _done_ev := e; _start_ev := _start_ev m;
     _task_pid := _task_pid m; _thread := _thread m;
     _wait_timeout := _wait_timeout m; _subprocess := _subprocess m |}.
Definition with_start_ev (e : event) (m : monitor) : monitor :=
  {| _event := _event m; _done_ev := _done_ev m; _start_ev := e;
     _task_pid := _task_pid m; _thread := _thread m;
     _wait_timeout := _wait_timeout m; _subprocess := _subprocess m |}.
Definition with_thread (t : thread_slot) (m : monitor) : monitor :=
  {| _event := _event m; _done_ev := _done_ev m; _start_ev := _start_ev m;
     _task_pid := _task_pid m; _thread := t;
     _wait_timeout := _wait_timeout m; _subprocess := _subprocess m |}.
Definition with_subprocess (b : bool) (m : monitor) : monitor :=
  {| _event := _event m; _done_ev := _done_ev m; _start_ev := _start_ev m;
     _task_pid := _task_pid m; _thread := _thread m;
     _wait_timeout := _wait_timeout m; _subprocess := b |}.

(** [psutil]'s process states; only [STATUS_ZOMBIE] is told apart. *)
Inductive status : Type :=
| STATUS_RUNNING
| STATUS_SLEEPING
| STATUS_STOPPED
| STATUS_ZOMBIE
| STATUS_DEAD.

Definition is_zombie (s : status) : bool :=
  match s with STATUS_ZOMBIE => true | _ => false end.

(** What the code asks of the operating system and of the other threads
    and processes.  A query that can raise answers [inl] of the
    exception. *)
Record os : Type := {
  (** [os.getpid()] *)
  getpid : nat;
  (** the process id a [Process.start()] is given *)
  fork_pid : nat;
  (** whether the launched worker gets as far as setting
      [_sub_process_started] *)
  worker_comes_up : bool;
  (** [Thread.is_alive()] of a thread *)
  thread_is_alive : nat -> bool;
  (** [Process.is_alive()] of the worker handle with this pid *)
  process_is_alive : nat -> exn + bool;
  (** [psutil.Process(pid)]: the exception when the lookup raises *)
  psutil_Process : nat -> option exn;
  (** [psutil.Process(pid).status()], the lookup having succeeded *)
  psutil_status : nat -> exn + status;
  (** [psutil.Process(pid).children(recursive=True)]: every descendant
      with its [pid] and with what its [status()] answers *)
  psutil_children : nat -> exn + list (nat * (exn + status));
  (** whether some other thread or process sets the stop event of the
      running monitor before its [n]-th wait times out *)
  stop_arrives : nat -> bool
}.

Inductive action : Type :=
| ThreadStarted (tid self : nat)
| ProcessStarted (pid : nat)
| StartEvSet (self : nat)
| WaitTimedOut (self timeout : nat)
| WaitSignalled (self timeout : nat)
| DaemonStep (self : nat)
| PostExecution (self : nat)
| DoneEvSet (self : nat).

#[global] Instance action_eq_dec : EqDecision action.
Proof. solve_decision. Defined.

Record world : Type := {
  (** [BackgroundMonitor._main_process]: the worker handle, by its pid *)
  _main_process : option nat;
  _parent_pid : option nat;
  _sub_process_started : option event;
  _instances : list nat;
  heap : gmap nat monitor;
  (** how many [Thread] objects were made *)
  threads : nat;
  (** how many waits on a stop event were made *)
  waits : nat;
  log : list action
}.

Definition fresh_world : world :=
  {| _main_process := None; _parent_pid := None; _sub_process_started := None;
     _instances := []; heap := ∅; threads := 0; waits := 0; log := [] |}.

Definition set_main_process (p : option nat) (w : world) : world :=
  {| _main_process := p; _parent_pid := _parent_pid w;
     _sub_process_started := _sub_process_started w;
     _instances := _instances w; heap := heap w; threads := threads w;
     waits := waits w; log := log w |}.
Definition set_parent_pid (p : option nat) (w : world) : world :=
  {| _main_process := _main_process w; _parent_pid := p;
     _sub_process_started := _sub_process_started w;
     _instances := _instances w; heap := heap w; threads := threads w;
     waits := waits w; log := log w |}.
Definition set_sub_process_started (e : option event) (w : world) : world :=
  {| _main_process := _main_process w; _parent_pid := _parent_pid w;
     _sub_process_started := e;
     _instances := _instances w; heap := heap w; threads := threads w;
     waits := waits w; log := log w |}.
Definition set_instances (l : list nat) (w : world) : world :=
  {| _main_process := _main_process w; _parent_pid := _parent_pid w;
     _sub_process_started := _sub_process_started w;
     _instances := l; heap := heap w; threads := threads w;
     waits := waits w; log := log w |}.
Definition set_heap (h : gmap nat monitor) (w : world) : world :=
  {| _main_process := _main_process w; _parent_pid := _parent_pid w;
     _sub_process_started := _sub_process_started w;
     _instances := _instances w; heap := h; threads := threads w;
     waits := waits w; log := log w |}.
Definition set_threads (n : nat) (w : world) : world :=
  {| _main_process := _main_process w; _parent_pid := _parent_pid w;
     _sub_process_started := _sub_process_started w;
     _instances := _instances w; heap := heap w; threads := n;
     waits := waits w; log := log w |}.
Definition set_waits (n : nat) (w : world) : world :=
  {| _main_process := _main_process w; _parent_pid := _parent_pid w;
     _sub_process_started := _sub_process_started w;
     _instances := _instances w; heap := heap w; threads := threads w;
     waits := n; log := log w |}.
Definition emit (a : action) (w : world) : world :=
  {| _main_process := _main_process w; _parent_pid := _parent_pid w;
     _sub_process_started := _sub_process_started w;
     _instances := _instances w; heap := heap w; threads := threads w;
     waits := waits w; log := log w ++ [a] |}.

(** The object at an address, and an update of it in place. *)
Definition obj (w : world) (self : nat) : monitor := heap w !!! self.
Definition update (self : nat) (f : monitor -> monitor) : prog world unit :=
  modify (fun w => set_heap (alter f self (heap w)) w).

(** A query of the operating system, as a call that returns or raises. *)
Definition ask {A} (r : exn + A) : prog world A :=
  match r with inl e => raise e | inr a => ret a end.

Definition __init__ (o : os) (wait_period : nat) : prog world nat :=
  w <- read ;;
  let self := fresh (dom (heap w)) in
  modify (set_heap
    (<[self := {| _event := new_event TrEvent; _done_ev := new_event TrEvent;
                  _start_ev := new_event TrEvent; _task_pid := getpid o;
                  _thread := NoThread; _wait_timeout := wait_period;
                  _subprocess := false |}]> (heap w))) ;;
  ret self.

Definition start (self : nat) : prog world unit :=
  w <- read ;;
  when (negb (slot_truthy (_thread (obj w self))))
    (update self (with_thread Marked)) ;;
  update self (fun m => with_event (clear (_event m)) m) ;;
  update self (fun m => with_done_ev (clear (_done_ev m)) m) ;;
  w <- read ;;
  when (negb (bool_decide (self ∈ _instances w)))
    (modify (set_instances (_instances w ++ [self]))).

(** [Thread(target=self._daemon)], made a daemon thread and started; the
    body of the thread is [_daemon] below, run by the new thread. *)
Definition _start (self : nat) : prog world unit :=
  w <- read ;;
  let tid := threads w in
  modify (set_threads (S tid)) ;;
  update self (with_thread (ThreadObj tid)) ;;
  modify (emit (ThreadStarted tid self)).

(** [psutil.Process(pid)] *)
Definition lookup_process (o : os) (pid : nat) : prog world unit :=
  match psutil_Process o pid with
  | Some e => raise e
  | None => ret tt
  end.

(** The loop over [parent.children(recursive=True)]; a child is given by
    its [pid] and by what its [status()] answers. *)
Fixpoint scan_children (current_pid : nat)
    (children : list (nat * (exn + status))) : prog world value :=
  match children with
  | [] => ret (VBool false)
  | (child_pid, child_status) :: rest =>
      if bool_decide (child_pid = current_pid) then
        st <- ask child_status ;;
        ret (VBool (negb (is_zombie st)))
      else scan_children current_pid rest
  end.

(** The body of the [try]: the handle says alive and the process is no
    zombie. *)
Definition direct_check (o : os) (pid : nat) : prog world value :=
  alive <- ask (process_is_alive o pid) ;;
  if alive then
    lookup_process o pid ;;
    st <- ask (psutil_status o pid) ;;
    ret (VBool (negb (is_zombie st)))
  else ret (VBool false).

(** The body of the [except Exception]: look for the worker among the
    descendants of the recorded parent.  The bare [return] of the inner
    handler answers [None]. *)
Definition tree_scan (o : os) (pid : nat) : prog world value :=
  w <- read ;;
  let current_pid := pid in
  (* [psutil.Process(None)] is the calling process *)
  let parent := default (getpid o) (_parent_pid w) in
  found <- try_except (lookup_process o parent ;; ret true)
             (fun e => if is_psutil_Error e then Some (ret false) else None) ;;
  if found then
    children <- ask (psutil_children o parent) ;;
    scan_children current_pid children
  else ret VNone.

Definition is_subprocess_alive (o : os) : prog world value :=
  w <- read ;;
  match _main_process w with
  | None => ret (VBool false)
  | Some pid =>
      try_except (direct_check o pid) (fun _ => Some (tree_scan o pid))
  end.

Definition is_subprocess : prog world bool :=
  w <- read ;;
  ret (bool_decide (is_Some (_main_process w))).

Definition is_alive (o : os) (self : nat) : prog world value :=
  sub <- is_subprocess ;;
  if sub then
    a <- is_subprocess_alive o ;;
    w <- read ;;
    ret (py_and (py_and a (VBool (is_set (_start_ev (obj w self)))))
                (VBool (negb (is_set (_done_ev (obj w self))))))
  else
    w <- read ;;
    match _thread (obj w self) with
    | ThreadObj tid => ret (VBool (thread_is_alive o tid))
    | _ => ret (VBool false)
    end.

(** [l.remove(x)] under [try: ... except ValueError: pass]: the first
    occurrence goes, and a list without [x] stays as it is. *)
Fixpoint remove_first (x : nat) (l : list nat) : list nat :=
  match l with
  | [] => []
  | y :: l' => if bool_decide (y = x) then l' else y :: remove_first x l'
  end.

Definition stop (o : os) (self : nat) : prog world unit :=
  w <- read ;;
  if negb (slot_truthy (_thread (obj w self))) then ret tt
  else
    alive <- is_subprocess_alive o ;;
    when (truthy alive)
      (update self (fun m => with_event (set (_event m)) m)) ;;
    w <- read ;;
    when (is_Thread (_thread (obj w self)))
      (modify (set_instances (remove_first self (_instances w))) ;;
       update self (with_thread NoThread)).

(** [self._event.wait(self._wait_timeout)]: true when the flag is set on
    return, be it set already or set by someone else during the wait.
    Time itself is not modelled; the log keeps the timeout the wait was
    given. *)
Definition event_wait (o : os) (self : nat) : prog world bool :=
  w <- read ;;
  let n := waits w in
  let timeout := _wait_timeout (obj w self) in
  modify (set_waits (S n)) ;;
  if is_set (_event (obj w self)) || stop_arrives o n then
    update self (fun m => with_event (set (_event m)) m) ;;
    modify (emit (WaitSignalled self timeout)) ;;
    ret true
  else
    modify (emit (WaitTimedOut self timeout)) ;;
    ret false.

(** [_daemon_step] is [pass] in this class; the log keeps the call. *)
Definition _daemon_step (self : nat) : prog world unit :=
  modify (emit (DaemonStep self)).

(** [while True: if self._event.wait(...): break; self._daemon_step()] *)
Fixpoint daemon (o : os) (fuel : nat) (self : nat) : prog world unit :=
  match fuel with
  | 0 => out_of_fuel
  | S fuel' =>
      signalled <- event_wait o self ;;
      if signalled then ret tt
      else _daemon_step self ;; daemon o fuel' self
  end.

Definition post_execution (self : nat) : prog world unit :=
  modify (emit (PostExecution self)) ;;
  update self (fun m => with_done_ev (set (_done_ev m)) m) ;;
  modify (emit (DoneEvSet self)).

Definition _daemon (o : os) (fuel : nat) (self : nat) : prog world unit :=
  update self (fun m => with_start_ev (set (_start_ev m)) m) ;;
  modify (emit (StartEvSet self)) ;;
  daemon o fuel self ;;
  post_execution self.

Definition set_subprocess_mode (self : nat) : prog world unit :=
  update self (with_subprocess true) ;;
  update self (with_done_ev (new_event PrEvent)) ;;
  update self (with_start_ev (new_event PrEvent)) ;;
  update self (with_event (new_event PrEvent)).

Definition start_all (o : os) (execute_in_subprocess wait_for_subprocess : bool)
  : prog world unit :=
  w <- read ;;
  if negb execute_in_subprocess then
    for_each (_instances w) _start
  else if negb (bool_decide (is_Some (_main_process w))) then
    modify (set_parent_pid (Some (getpid o))) ;;
    modify (set_sub_process_started (Some (clear (new_event PrEvent)))) ;;
    for_each (_instances w) set_subprocess_mode ;;
    modify (set_main_process (Some (fork_pid o))) ;;
    modify (emit (ProcessStarted (fork_pid o))) ;;
    when wait_for_subprocess
      (if worker_comes_up o then
         modify (set_sub_process_started (Some (set (new_event PrEvent))))
       else block)
  else ret tt.

(** How many worker processes were launched. *)
Definition is_launch (a : action) : bool :=
  match a with ProcessStarted _ => true | _ => false end.
Definition launched (w : world) : nat :=
  length (List.filter is_launch (log w)).

(** The calls a host can make, for runs of arbitrary length. *)
Inductive request : Type :=
| New (wait_period : nat)
| Start (self : nat)
| StartAll (execute_in_subprocess wait_for_subprocess : bool)
| Stop (self : nat).

Definition serve (o : os) (r : request) : prog world unit :=
  match r with
  | New wait_period => __init__ o wait_period ;; ret tt
  | Start self => start self
  | StartAll e wfs => start_all o e wfs
  | Stop self => stop o self
  end.

(** [self._event.set()] on a monitor. *)
Definition signal (m : monitor) : monitor := with_event (set (_event m)) m.

(** The first descendant with the given process id, as the loop of
    [scan_children] meets it. *)
Definition find_child (pid : nat) (children : list (nat * (exn + status)))
  : option (nat * (exn + status)) :=
  List.find (fun c => bool_decide (fst c = pid)) children.

(** The stop event of the running monitor is seen set at its [k]-th wait
    from now. *)
Definition seen_set (o : os) (w : world) (self k : nat) : bool :=
  is_set (_event (obj w self)) || stop_arrives o (waits w + k).

(** The bookkeeping of launches: a worker handle exists exactly when one
    worker was launched. *)
Definition one_handle (w : world) : Prop :=
  launched w = match _main_process w with Some _ => 1 | None => 0 end.

(** A program that neither launches a worker nor touches the handle. *)
Definition no_launch {A} (m : prog world A) : Prop :=
  forall w, _main_process (fst (m w)) = _main_process w
            /\ launched (fst (m w)) = launched w.

(** An operating system for closed examples: process 100 runs the code,
    a launched worker gets process id 101 and comes up, every thread and
    process is alive and well, and nobody else sets a stop event. *)
Definition calm_os : os :=
  {| getpid := 100; fork_pid := 101; worker_comes_up := true;
     thread_is_alive := fun _ => true;
     process_is_alive := fun _ => inr true;
     psutil_Process := fun _ => None;
     psutil_status := fun _ => inr STATUS_RUNNING;
     psutil_children := fun _ => inr [];
     stop_arrives := fun _ => false |}.

(** [calm_os], except that the stop event of the running monitor is set
    by someone else during its [n]-th wait. *)
Definition stop_at (n : nat) : os :=
  {| getpid := 100; fork_pid := 101; worker_comes_up := true;
     thread_is_alive := fun _ => true;
     process_is_alive := fun _ => inr true;
     psutil_Process := fun _ => None;
     psutil_status := fun _ => inr STATUS_RUNNING;
     psutil_children := fun _ => inr [];
     stop_arrives := fun k => bool_decide (n <= k) |}.

(** The operating system as the worker's handle has gone bad (a handle
    queried from a process that is not its parent, or a worker already
    reaped): the direct check raises; the recorded parent, process 100,
    is looked up with the given result and has the given descendants. *)
Definition reaped_os (parent_lookup : option exn)
    (children : list (nat * (exn + status))) : os :=
  {| getpid := 100; fork_pid := 101; worker_comes_up := true;
     thread_is_alive := fun _ => true;
     process_is_alive := fun _ => inl AssertionError;
     psutil_Process := fun pid => if bool_decide (pid = 100) then parent_lookup
                                  else Some psutil_Error;
     psutil_status := fun _ => inl psutil_Error;
     psutil_children := fun _ => inr children;
     stop_arrives := fun _ => false |}.

(** Facts of the form [no_launch m], for [auto]. *)
Create HintDb launch.

(** Unfolds the combinators of a program applied to a state. *)
Ltac run :=
  unfold update, ask, when, try_except, bind, read, modify, ret, raise,
    block, out_of_fuel;
  unfold emit, set_main_process, set_parent_pid, set_sub_process_started,
    set_instances, set_heap, set_threads, set_waits;
  simpl.

(** *** The worker's entry point

    [_background_process_start] runs in the launched process.  Besides
    what it does to the monitors it prints its progress and joins the
    threads it started; [boot_event] lists the lines it prints, in the
    words of the source, and the calls whose order matters. *)
Inductive boot_event : Type :=
| Printed_Start (pid : nat)
| AtExitCallbacksRemoved
| Printed_register_at_exit_failed
| Printed_Start_1
| Slept (seconds : nat)
| Printed_Start_2
| Printed_LAUNCHING (self : nat)
| SubProcessStartedSet
| Printed_Start_3
| Join (tid : nat)
| Printed_Killed (self : nat)
| Printed_Skipping (self : nat)
| Printed_FAILED
| Printed_Done_monitoring (pid : nat).

(** How a [Thread.join()] without a timeout ends: the loop of the thread
    comes to its end and the call returns; the process is killed while
    it waits and the call raises; or the loop never ends (nobody sets
    the stop event of its monitor) and the call never returns. *)
Inductive joined : Type :=
| ThreadEnded
| Interrupted (e : exn)
| Never.

(** What the entry point meets besides [os]: whether a debugger traces
    the process, what [Task.current_task()._remove_at_exit_callbacks()]
    (its import included) raises, and how [Thread.join()] on each thread
    ends. *)
Record bootstrap : Type := {
  is_debugger_running : bool;
  remove_at_exit_callbacks : option exn;
  join : nat -> joined
}.

(** A program on the monitors, run beside the events. *)
Definition lift {A} (m : prog world A) : prog (world * list boot_event) A :=
  fun s => let (w', out) := m (fst s) in ((w', snd s), out).

Definition say (e : boot_event) : prog (world * list boot_event) unit :=
  modify (fun s => (fst s, snd s ++ [e])).

(** The loop that waits for the threads.  [i._thread] may be [None]
    (falsy: the monitor is skipped), the mark [True] (it has no
    [is_alive]: the outer handler prints [FAILED] and the loop goes on)
    or a [Thread]; a [join] that raises ends the loop, and a [join] that
    never returns keeps the entry point where it is. *)
Fixpoint join_all (o : os) (b : bootstrap) (l : list nat)
  : prog (world * list boot_event) unit :=
  match l with
  | [] => ret tt
  | i :: rest =>
      s <- read ;;
      match _thread (obj (fst s) i) with
      | ThreadObj tid =>
          if thread_is_alive o tid then
            say (Join tid) ;;
            match join b tid with
            | ThreadEnded => join_all o b rest
            | Interrupted _ => say (Printed_Killed i)
            | Never => block
            end
          else say (Printed_Skipping i) ;; join_all o b rest
      | Marked => say Printed_FAILED ;; join_all o b rest
      | NoThread => say (Printed_Skipping i) ;; join_all o b rest
      end
  end.

Definition _background_process_start (o : os) (b : bootstrap)
  : prog (world * list boot_event) unit :=
  say (Printed_Start (getpid o)) ;;
  try_except
    (match remove_at_exit_callbacks b with
     | Some e => raise e
     | None => say AtExitCallbacksRemoved
     end)
    (fun _ => Some (say Printed_register_at_exit_failed)) ;;
  say Printed_Start_1 ;;
  when (is_debugger_running b) (say (Slept 3)) ;;
  say Printed_Start_2 ;;
  s <- read ;;
  for_each (_instances (fst s))
    (fun d => say (Printed_LAUNCHING d) ;; lift (_start d)) ;;
  s <- read ;;
  when (bool_decide (is_Some (_sub_process_started (fst s))))
    (lift (modify (fun w =>
             set_sub_process_started (set <$> _sub_process_started w) w)) ;;
     say SubProcessStartedSet) ;;
  say Printed_Start_3 ;;
  s <- read ;;
  join_all o b (_instances (fst s)) ;;
  say (Printed_Done_monitoring (getpid o)).

(** The threads joined, in the order of the calls. *)
Definition joins (events : list boot_event) : list nat :=
  omap (fun e => match e with Join tid => Some tid | _ => None end) events.

(** The lines [LAUNCHING] printed, by monitor. *)
Definition launchings (events : list boot_event) : list nat :=
  omap (fun e => match e with Printed_LAUNCHING d => Some d | _ => None end)
    events.

(** What the entry point prints and does before it starts the threads. *)
Definition prologue (o : os) (b : bootstrap) : list boot_event :=
  [Printed_Start (getpid o);
   match remove_at_exit_callbacks b with
   | Some _ => Printed_register_at_exit_failed
   | None => AtExitCallbacksRemoved
   end;
   Printed_Start_1]
  ++ (if is_debugger_running b then [Slept 3] else [])
  ++ [Printed_Start_2].

(** The events of the loop that waits for the threads. *)
Definition is_join_phase (e : boot_event) : bool :=
  match e with
  | Join _ | Printed_Killed _ | Printed_Skipping _ | Printed_FAILED => true
  | _ => false
  end.

(** A list up to and including its first element on which [stop] holds. *)
Fixpoint up_to_first {A} (stop : A -> bool) (l : list A) : list A :=
  match l with
  | [] => []
  | x :: l' => if stop x then [x] else x :: up_to_first stop l'
  end.

(** What [set_subprocess_mode] makes of a monitor. *)
Definition switched (m : monitor) : monitor :=
  with_event (new_event PrEvent)
    (with_start_ev (new_event PrEvent)
       (with_done_ev (new_event PrEvent) (with_subprocess true m))).

(** The heap after [set_subprocess_mode] on every monitor of a list. *)
Definition switch_all (l : list nat) (h : gmap nat monitor) : gmap nat monitor :=
  foldl (fun h d => alter switched d h) h l.

(** The registered monitors are objects of the heap, each registered
    once. *)
Definition registered_ok (w : world) : Prop :=
  NoDup (_instances w) /\ forall self, self ∈ _instances w -> is_Some (heap w !! self).

(** [w'] has the class attributes of [w]: only monitors, threads, waits
    and the log may differ. *)
Definition same_registry (w w' : world) : Prop :=
  _main_process w' = _main_process w
  /\ _parent_pid w' = _parent_pid w
  /\ _sub_process_started w' = _sub_process_started w
  /\ _instances w' = _instances w.

(** Whether the join of a thread returns, and whether it never ends. *)
Definition join_returns (b : bootstrap) (tid : nat) : bool :=
  match join b tid with ThreadEnded => true | _ => false end.
Definition join_hangs (b : bootstrap) (tid : nat) : bool :=
  match join b tid with Never => true | _ => false end.

(** A worker that no debugger traces, whose exit hooks cannot be found
    and which is killed while it joins thread [killed_at]; the threads
    before that one end. *)
Definition rough_boot (killed_at : nat) : bootstrap :=
  {| is_debugger_running := false;
     remove_at_exit_callbacks := Some AttributeError;
     join := fun tid => if bool_decide (tid = killed_at)
                        then Interrupted (OtherError 0) else ThreadEnded |}.

(** A worker under a debugger whose monitors are never told to stop: no
    thread ends. *)
Definition hung_boot : bootstrap :=
  {| is_debugger_running := true;
     remove_at_exit_callbacks := None;
     join := fun _ => Never |}.

End BackgroundMonitor.
(* ===================================================================== *)
(** * Part II: properties                                                *)
(* ===================================================================== *)

(** ** Programs

    [prog] with [ret] and [bind] is a monad, state by state. *)
Section Programs.
Context {S A B C : Type}.

Lemma bind_ret_l (a : A) (k : A -> prog S B) (s : S) :
  (x <- ret a ;; k x) s = k a s.
Proof. reflexivity. Qed.

Lemma bind_ret_r (m : prog S A) (s : S) : (x <- m ;; ret x) s = m s.
Proof. unfold bind. by destruct (m s) as [s' [a|e| |]]. Qed.

Lemma bind_assoc (m : prog S A) (k : A -> prog S B) (h : B -> prog S C) (s : S) :
  (y <- (x <- m ;; k x) ;; h y) s = (x <- m ;; y <- k x ;; h y) s.
Proof. unfold bind. by destruct (m s) as [s' [a|e| |]]. Qed.

(** A first step that returns hands its result and state to the rest. *)
Lemma bind_returns (m : prog S A) (k : A -> prog S B) (s s' : S) (a : A) :
  m s = (s', Ret a) -> (x <- m ;; k x) s = k a s'.
Proof. intros H. unfold bind. by rewrite H. Qed.

End Programs.

(** ** Seeding *)
Section SeedProperties.
Import Seed.
Variable env : modules.

(** The mask keeps the low 32 bits, for negative seeds too (Python's [&]
    on integers is two's complement, as [Z.land]). *)
Lemma mask_is_mod (seed : Z) : Z.land seed 0xFFFFFFFF = (seed mod 2 ^ 32)%Z.
Proof. change 0xFFFFFFFF%Z with (Z.ones 32). apply Z.land_ones. lia. Qed.

Lemma keeps_ret P : keeps P (ret tt).
Proof. intros log H. exact H. Qed.

Lemma keeps_raise P e : keeps P (raise e).
Proof. intros log H. exact H. Qed.

Lemma keeps_call P c : P c -> keeps P (call env c).
Proof.
  intros Hc log H. unfold call. simpl.
  apply Forall_app. split; [exact H | by constructor].
Qed.

Lemma keeps_bind P m k : keeps P m -> keeps P k -> keeps P (m ;; k).
Proof.
  intros Hm Hk log H. unfold bind. specialize (Hm log H).
  destruct (m log) as [log' [[]|e| |]]; simpl in *; auto.
Qed.

Lemma keeps_try_pass P m : keeps P m -> keeps P (try_pass m).
Proof.
  intros Hm log H. unfold try_pass, try_except. specialize (Hm log H).
  destruct (m log) as [log' [[]|e| |]]; simpl in *; auto.
Qed.

Lemma keeps_when P (b : bool) m : keeps P m -> keeps P (when b m).
Proof. intros Hm. destruct b; simpl; [exact Hm | apply keeps_ret]. Qed.

Lemma keeps_if P (b : bool) m1 m2 :
  keeps P m1 -> keeps P m2 -> keeps P (if b then m1 else m2).
Proof. by destruct b. Qed.

Lemma ends_call c : ends (call env c).
Proof. intros log. unfold call. simpl. destruct (fails env c); eauto. Qed.

Lemma ends_bind m k : ends m -> ends k -> ends (m ;; k).
Proof.
  intros Hm Hk log. unfold bind. specialize (Hm log).
  destruct (m log) as [log' [[]|e| |]]; simpl in *;
    [apply Hk | eauto | destruct Hm as [?|[? ?]]; done ..].
Qed.

Lemma ends_raise e : ends (raise e).
Proof. intros log. right. by exists e. Qed.

Lemma returns_ret : returns (ret tt).
Proof. by intros log. Qed.

Lemma returns_try_pass m : ends m -> returns (try_pass m).
Proof.
  intros Hm log. unfold try_pass, try_except. specialize (Hm log).
  destruct (m log) as [log' [[]|e| |]]; simpl in *; try done;
    by destruct Hm as [|[? ?]].
Qed.

Lemma returns_when (b : bool) m : returns m -> returns (when b m).
Proof. intros Hm. destruct b; [exact Hm | apply returns_ret]. Qed.

Lemma returns_bind m k : returns m -> returns k -> returns (m ;; k).
Proof.
  intros Hm Hk log. unfold bind. specialize (Hm log).
  destruct (m log) as [log' [[]|e| |]]; simpl in *; first [done | apply Hk].
Qed.

(** After a step that returns, the ending is that of the rest. *)
Lemma returns_then m (k : prog (list lib_call) unit) log :
  returns m -> snd ((m ;; k) log) = snd (k (fst (m log))).
Proof.
  intros Hm. unfold bind. specialize (Hm log).
  by destruct (m log) as [log' [[]|e| |]].
Qed.

Lemma remembers_ret : remembers (ret tt).
Proof. by intros log c. Qed.

Lemma remembers_raise e : remembers (raise e).
Proof. by intros log c. Qed.

Lemma remembers_call c : remembers (call env c).
Proof. intros log c' Hc. unfold call. simpl. apply elem_of_app. by left. Qed.

Lemma remembers_bind m k : remembers m -> remembers k -> remembers (m ;; k).
Proof.
  intros Hm Hk log c Hc. unfold bind. specialize (Hm log c Hc).
  destruct (m log) as [log' [[]|e| |]]; simpl in *; auto.
Qed.

Lemma remembers_try_pass m : remembers m -> remembers (try_pass m).
Proof.
  intros Hm log c Hc. unfold try_pass, try_except. specialize (Hm log c Hc).
  destruct (m log) as [log' [[]|e| |]]; simpl in *; auto.
Qed.

Lemma remembers_when (b : bool) m : remembers m -> remembers (when b m).
Proof. intros Hm. destruct b; [exact Hm | apply remembers_ret]. Qed.

(** What a step has logged stays logged, however the step ended, when
    the rest drops nothing. *)
Lemma logged_bind_l (m k : prog (list lib_call) unit) log c :
  remembers k -> c ∈ fst (m log) -> c ∈ fst ((m ;; k) log).
Proof.
  intros Hk Hc. unfold bind.
  destruct (m log) as [log' [[]|e| |]]; simpl in *; auto.
Qed.

(** After a step that returns, what the rest logs is logged. *)
Lemma logged_bind_r (m k : prog (list lib_call) unit) log c :
  snd (m log) = Ret tt -> c ∈ fst (k (fst (m log))) -> c ∈ fst ((m ;; k) log).
Proof.
  intros Hm Hc. unfold bind.
  destruct (m log) as [log' [[]|e| |]]; simpl in *; done.
Qed.

(** A sequence that returned: its first step returned, and so did the
    rest. *)
Lemma returned_bind_inv (m k : prog (list lib_call) unit) log :
  snd ((m ;; k) log) = Ret tt ->
  snd (m log) = Ret tt /\ snd (k (fst (m log))) = Ret tt.
Proof.
  unfold bind. by destruct (m log) as [log' [[]|e| |]].
Qed.

Lemma call_logged c log : c ∈ fst (call env c log).
Proof. unfold call. simpl. apply elem_of_app. right. by left. Qed.

Lemma call_returned c log : snd (call env c log) = Ret tt -> fails env c = None.
Proof. unfold call. simpl. by destruct (fails env c). Qed.

Lemma call_returns c log : fails env c = None -> snd (call env c log) = Ret tt.
Proof. unfold call. simpl. by intros ->. Qed.

(** [except Exception: pass] changes the ending, not the log. *)
Lemma try_pass_log m log : fst (try_pass m log) = fst (m log).
Proof.
  unfold try_pass, try_except. by destruct (m log) as [log' [[]|e| |]].
Qed.

End SeedProperties.

(** C10: [make_deterministic] reduces the seed to its low 32 bits,
    [int(seed) & 0xFFFFFFFF], a number of [0 .. 2^32 - 1], before it
    seeds any library: every seeding call carries that number, and two
    seeds that agree modulo [2^32] lead to the same calls, with the same
    arguments, and to the same ending.  The libraries are seeded indeed:
    [random] in every run, numpy when it is loaded and [random.seed]
    returned, and in a run that returns cv2, torch and tensorflow when
    they are loaded ([torch.cuda] when [torch.manual_seed] returned,
    tensorflow unless the eager mode probe says to leave it alone). *)
Theorem make_deterministic_low_32_bits
    (env : Seed.modules) (cudnn_deterministic : bool) (seed seed' : Z) :
  (seed mod 2 ^ 32 = seed' mod 2 ^ 32)%Z ->
  Seed.make_deterministic env seed cudnn_deterministic []
    = Seed.make_deterministic env seed' cudnn_deterministic []
  /\ Forall (fun c => forall s, Seed.seed_of c = Some s ->
                        s = (seed mod 2 ^ 32)%Z /\ (0 <= s < 2 ^ 32)%Z)
       (fst (Seed.make_deterministic env seed cudnn_deterministic []))
  /\ Seed.random_seed (seed mod 2 ^ 32)
     ∈ fst (Seed.make_deterministic env seed cudnn_deterministic [])
  /\ (Seed.np env = true ->
      Seed.fails env (Seed.random_seed (seed mod 2 ^ 32)) = None ->
      Seed.np_random_seed (seed mod 2 ^ 32)
      ∈ fst (Seed.make_deterministic env seed cudnn_deterministic []))
  /\ (snd (Seed.make_deterministic env seed cudnn_deterministic []) = Ret tt ->
      (Seed.cv2 env = true ->
       Seed.cv2_setRNGSeed (seed mod 2 ^ 32)
       ∈ fst (Seed.make_deterministic env seed cudnn_deterministic []))
      /\ (Seed.torch env = true ->
          Seed.torch_manual_seed (seed mod 2 ^ 32)
          ∈ fst (Seed.make_deterministic env seed cudnn_deterministic []))
      /\ (Seed.torch env = true ->
          Seed.fails env (Seed.torch_manual_seed (seed mod 2 ^ 32)) = None ->
          Seed.torch_cuda_manual_seed (seed mod 2 ^ 32)
          ∈ fst (Seed.make_deterministic env seed cudnn_deterministic []))
      /\ (Seed.tf env = true -> Seed.eager_mode_bypass env = false ->
          Seed.tf_set_random_seed (seed mod 2 ^ 32)
          ∈ fst (Seed.make_deterministic env seed cudnn_deterministic [])
          /\ Seed.tf_random_set_random_seed (seed mod 2 ^ 32)
             ∈ fst (Seed.make_deterministic env seed cudnn_deterministic []))).
Proof.
  intros Hcong. split; [|split].
  - unfold Seed.make_deterministic. rewrite !mask_is_mod, Hcong. reflexivity.
  - assert (Hs : forall s, Some (seed mod 2 ^ 32)%Z = Some s ->
               s = (seed mod 2 ^ 32)%Z /\ (0 <= s < 2 ^ 32)%Z).
    { intros s [= <-]. split; [reflexivity | apply Z.mod_pos_bound; lia]. }
    unfold Seed.make_deterministic. rewrite mask_is_mod.
    eapply keeps_bind; [| | constructor];
      repeat first [ apply keeps_bind | apply keeps_when | apply keeps_try_pass
                   | apply keeps_if | apply keeps_raise | apply keeps_ret
                   | apply keeps_call; simpl; first [exact Hs | discriminate] ].
  - unfold Seed.make_deterministic. rewrite mask_is_mod.
    set (s := (seed mod 2 ^ 32)%Z).
    set (cudnn := when cudnn_deterministic _).
    set (numpy := when (Seed.np env) _).
    set (opencv := when (Seed.cv2 env) _).
    set (pytorch := when (Seed.torch env) _).
    set (tensorflow := when (Seed.tf env) _).
    assert (Hcudnn : Seed.returns cudnn).
    { apply returns_when, returns_try_pass.
      destruct (Seed.torch env); [apply ends_call | apply ends_raise]. }
    assert (Hopencv : Seed.returns opencv).
    { apply returns_when, returns_try_pass, ends_call. }
    assert (Hpytorch : Seed.returns pytorch).
    { apply returns_when, returns_try_pass, ends_bind; apply ends_call. }
    assert (Hrem : forall m, Seed.remembers m ->
              Seed.remembers (m ;; tensorflow)
              /\ Seed.remembers (m ;; pytorch ;; tensorflow)
              /\ Seed.remembers (m ;; opencv ;; pytorch ;; tensorflow)
              /\ Seed.remembers (m ;; numpy ;; opencv ;; pytorch ;; tensorflow)).
    { intros m Hm. unfold numpy, opencv, pytorch, tensorflow.
      repeat split;
        repeat first
          [ exact Hm | apply remembers_bind | apply remembers_when
          | apply remembers_try_pass | apply remembers_call | apply remembers_ret ]. }
    split; [|split].
    + apply logged_bind_r; [apply Hcudnn|].
      apply logged_bind_l; [|apply call_logged].
      apply (Hrem (ret tt)), remembers_ret.
    + intros Hnp Hrandom.
      apply logged_bind_r; [apply Hcudnn|].
      apply logged_bind_r; [by apply call_returns|].
      apply logged_bind_l; [apply (Hrem (ret tt)), remembers_ret|].
      unfold numpy. rewrite Hnp. apply call_logged.
    + intros Hret.
      apply returned_bind_inv in Hret as [_ Hret].
      apply returned_bind_inv in Hret as [Hrandom Hret].
      apply returned_bind_inv in Hret as [Hnumpy _].
      assert (Hgo : forall c,
                c ∈ fst ((opencv ;; pytorch ;; tensorflow)
                           (fst (numpy (fst (Seed.call env (Seed.random_seed s)
                                               (fst (cudnn [])))))))
                -> c ∈ fst ((cudnn ;; Seed.call env (Seed.random_seed s) ;;
                              numpy ;; opencv ;; pytorch ;; tensorflow) [])).
      { intros c Hc.
        apply logged_bind_r; [apply Hcudnn|].
        apply logged_bind_r; [exact Hrandom|].
        by apply logged_bind_r. }
      split; [|split; [|split]].
      * intros Hcv2. apply Hgo.
        apply logged_bind_l; [apply (Hrem (ret tt)), remembers_ret|].
        unfold opencv. rewrite Hcv2. simpl. rewrite try_pass_log.
        apply call_logged.
      * intros Htorch. apply Hgo.
        apply logged_bind_r; [apply Hopencv|].
        apply logged_bind_l; [apply (Hrem (ret tt)), remembers_ret|].
        unfold pytorch. rewrite Htorch. simpl. rewrite try_pass_log.
        apply logged_bind_l; [apply remembers_call | apply call_logged].
      * intros Htorch Hmanual. apply Hgo.
        apply logged_bind_r; [apply Hopencv|].
        apply logged_bind_l; [apply (Hrem (ret tt)), remembers_ret|].
        unfold pytorch. rewrite Htorch. simpl. rewrite try_pass_log.
        apply logged_bind_r; [by apply call_returns | apply call_logged].
      * intros Htf Heager.
        assert (Htensorflow : forall c,
                  c ∈ fst (tensorflow
                             (fst (pytorch (fst (opencv
                                (fst (numpy (fst (Seed.call env (Seed.random_seed s)
                                                    (fst (cudnn [])))))))))))
                  -> c ∈ fst ((cudnn ;; Seed.call env (Seed.random_seed s) ;;
                                numpy ;; opencv ;; pytorch ;; tensorflow) [])).
        { intros c Hc. apply Hgo.
          apply logged_bind_r; [apply Hopencv|].
          by apply logged_bind_r; [apply Hpytorch|]. }
        split; apply Htensorflow; unfold tensorflow; rewrite Htf, Heager; simpl.
        -- apply logged_bind_l;
             [apply remembers_try_pass, remembers_call|].
           rewrite try_pass_log. apply call_logged.
        -- apply logged_bind_r; [apply returns_try_pass, ends_call|].
           rewrite try_pass_log. apply call_logged.
Qed.

(** The default seed, and the default seed shifted by [2^32], with every
    library loaded; cv2 and [torch.cuda] raise, which is swallowed. *)
Lemma make_deterministic_low_32_bits_witness :
  let env := {| Seed.np := true; Seed.cv2 := true; Seed.torch := true;
                Seed.tf := true; Seed.eager_mode_bypass := false;
                Seed.fails := fun c =>
                  match c with
                  | Seed.cv2_setRNGSeed _ | Seed.torch_cuda_manual_seed _ =>
                      Some (OtherError 0)
                  | _ => None
                  end |} in
  let log := fst (Seed.make_deterministic env 1337 false []) in
  Seed.make_deterministic env 1337 false []
    = Seed.make_deterministic env (1337 + 2 ^ 32) false []
  /\ Forall (fun c => forall s, Seed.seed_of c = Some s ->
                        s = 1337%Z /\ (0 <= s < 2 ^ 32)%Z) log
  /\ Seed.random_seed 1337 ∈ log
  /\ Seed.np_random_seed 1337 ∈ log
  /\ Seed.cv2_setRNGSeed 1337 ∈ log
  /\ Seed.torch_manual_seed 1337 ∈ log
  /\ Seed.torch_cuda_manual_seed 1337 ∈ log
  /\ Seed.tf_set_random_seed 1337 ∈ log
  /\ Seed.tf_random_set_random_seed 1337 ∈ log.
Proof.
  intros env log.
  destruct (make_deterministic_low_32_bits env false 1337 (1337 + 2 ^ 32) eq_refl)
    as (Hsame & Hall & Hrandom & Hnp & Hrest).
  destruct (Hrest eq_refl) as (Hcv2 & Htorch & Hcuda & Htf).
  destruct (Htf eq_refl eq_refl) as [Htf1 Htf2].
  split; [exact Hsame|]. split; [exact Hall|]. split; [exact Hrandom|].
  split; [exact (Hnp eq_refl eq_refl)|]. split; [exact (Hcv2 eq_refl)|].
  split; [exact (Htorch eq_refl)|]. split; [exact (Hcuda eq_refl eq_refl)|].
  split; [exact Htf1 | exact Htf2].
Defined.

(** ** [SafeQueue] *)
Section SafeQueueProperties.
Import SafeQueue.
Context {item : Type}.
Variable picklable : item -> bool.
Implicit Types (w : world item) (pid self q : nat) (obj : item).

Lemma put_same_process w pid self obj jobs :
  __thread_pool_pid w = Some pid ->
  __thread_pool w = Some jobs ->
  put pid self obj w
  = ({| __lock := __lock w;
        __thread_pool := Some (jobs ++ [(self, obj)]);
        __thread_pool_pid := Some pid;
        pipes := pipes w;
        log := log w ++ [Dispatched self obj] |}, Ret tt).
Proof.
  intros Hpid Hpool. unfold put. run.
  rewrite Hpid, bool_decide_eq_true_2 by done. simpl.
  rewrite Hpool. simpl. by rewrite Hpid.
Qed.

Lemma put_other_process w pid self obj :
  __thread_pool_pid w <> Some pid ->
  __lock w = Some false ->
  put pid self obj w
  = ({| __lock := Some false;
        __thread_pool := Some [(self, obj)];
        __thread_pool_pid := Some pid;
        pipes := pipes w;
        log := log w ++ [LockAcquired; PoolCreated pid; LockReleased;
                         Dispatched self obj] |}, Ret tt).
Proof.
  intros Hpid Hlock. unfold put. run.
  rewrite bool_decide_eq_false_2 by congruence. simpl.
  rewrite Hlock. simpl.
  rewrite bool_decide_eq_false_2 by congruence. simpl.
  by rewrite <- !app_assoc.
Qed.

(** Constructing a queue makes the class attributes ready, whatever they
    were before, as long as nobody holds the lock. *)
Lemma init_ready w pid :
  __lock w <> Some true ->
  ready (fst (__init__ pid w)).
Proof.
  intros Hfree. unfold __init__, ready. run.
  destruct (__lock w) as [[]|] eqn:Hlock; try done; simpl;
    destruct (__thread_pool w) as [jobs|] eqn:Hjobs; simpl;
    rewrite ?Hlock, ?Hjobs; simpl; rewrite ?Hlock, ?Hjobs; simpl; eauto.
Qed.

Lemma pending_owner w pid jobs :
  __thread_pool_pid w = Some pid -> __thread_pool w = Some jobs ->
  pending pid w = jobs.
Proof.
  intros Hpid Hpool. unfold pending.
  by rewrite Hpid, bool_decide_eq_true_2, Hpool.
Qed.

Lemma pending_foreign w pid :
  __thread_pool_pid w <> Some pid -> pending pid w = [].
Proof. intros Hpid. unfold pending. by rewrite bool_decide_eq_false_2. Qed.

Lemma put_on_the_way w pid self obj :
  ready w ->
  exists w',
    put pid self obj w = (w', Ret tt)
    /\ ready w'
    /\ pipes w' = pipes w
    /\ pending pid w' = pending pid w ++ [(self, obj)]
    /\ forall q, on_the_way picklable pid q w'
                 = on_the_way picklable pid q w
                   ++ (if bool_decide (q = self) && picklable obj
                       then [obj] else []).
Proof.
  intros [Hlock [jobs Hpool]].
  assert (exists w', put pid self obj w = (w', Ret tt) /\ ready w'
                     /\ pipes w' = pipes w
                     /\ pending pid w' = pending pid w ++ [(self, obj)])
    as (w' & Hput & Hready & Hpipes & Hpend).
  { destruct (decide (__thread_pool_pid w = Some pid)) as [Hpid|Hpid].
    - eexists. split; [by apply put_same_process|].
      split; [by split; [|eexists]|]. split; [done|].
      rewrite (pending_owner w pid jobs) by done.
      by apply pending_owner.
    - eexists. split; [by apply put_other_process|].
      split; [by split; [|eexists]|]. split; [done|].
      rewrite (pending_foreign w pid) by done.
      by apply pending_owner. }
  exists w'. repeat (split; [done|]). intros q. unfold on_the_way.
  rewrite Hpipes, Hpend, List.filter_app, fmap_app, app_assoc.
  f_equal. simpl. unfold writes_to. simpl.
  destruct (decide (self = q)) as [->|Hne].
  - rewrite !bool_decide_eq_true_2 by done. by destruct (picklable obj).
  - by rewrite !bool_decide_eq_false_2.
Qed.

(** The pool's thread changes where the items are, not which items a
    reader will get, nor their order. *)
Lemma worker_step_on_the_way w pid q :
  on_the_way picklable pid q (worker_step picklable pid w)
  = on_the_way picklable pid q w.
Proof.
  unfold worker_step. case_bool_decide as Hpid; [|done].
  destruct (__thread_pool w) as [[|[q' obj] jobs]|] eqn:Hpool; try done.
  unfold on_the_way, pending. simpl.
  rewrite bool_decide_eq_true_2, Hpool by done. simpl.
  unfold write, writes_to, deliver. simpl.
  destruct (picklable obj); [|by rewrite andb_false_r].
  rewrite andb_true_r. case_bool_decide as Hq; simpl.
  - subst q'. by rewrite lookup_total_insert_eq, <- app_assoc.
  - by rewrite lookup_total_insert_ne.
Qed.

Lemma worker_steps_on_the_way w pid q n :
  on_the_way picklable pid q (worker_steps picklable pid n w)
  = on_the_way picklable pid q w.
Proof.
  induction n as [|n IH]; [done|].
  unfold worker_steps in *. simpl. by rewrite worker_step_on_the_way.
Qed.

Lemma worker_step_ready w pid : ready w -> ready (worker_step picklable pid w).
Proof.
  intros [Hlock [jobs Hpool]]. unfold worker_step.
  case_bool_decide; [|by split; [|eexists]].
  rewrite Hpool. destruct jobs as [|[q obj] jobs]; by split; [|eexists].
Qed.

Lemma worker_steps_ready w pid n :
  ready w -> ready (worker_steps picklable pid n w).
Proof.
  intros H. induction n as [|n IH]; [done|].
  unfold worker_steps in *. simpl. by apply worker_step_ready.
Qed.

Lemma write_elsewhere q obj (ps : gmap nat (list item)) self :
  writes_to picklable self (q, obj) = false ->
  write picklable q obj ps !!! self = ps !!! self.
Proof.
  unfold writes_to, write, deliver. simpl. intros Hno.
  destruct (picklable obj); [|done].
  rewrite andb_true_r in Hno. apply bool_decide_eq_false in Hno.
  by rewrite lookup_total_insert_ne.
Qed.

Lemma await_first self (jobs : list (nat * item)) ps x rest :
  ps !!! self = [] ->
  (List.filter (writes_to picklable self) jobs).*2 = x :: rest ->
  exists jobs' ps',
    await picklable self jobs ps = Some (x, jobs', ps')
    /\ ps' !!! self = []
    /\ (List.filter (writes_to picklable self) jobs').*2 = rest.
Proof.
  revert ps. induction jobs as [|[q obj] jobs IH]; intros ps Hps; simpl; [done|].
  change (bool_decide (q = self) && picklable obj)
    with (writes_to picklable self (q, obj)).
  destruct (writes_to picklable self (q, obj)) eqn:Hq; simpl.
  - intros [= -> <-]. eauto.
  - intros Hmine. apply IH; [|done]. by rewrite write_elsewhere.
Qed.

Lemma await_none self (jobs : list (nat * item)) ps :
  (List.filter (writes_to picklable self) jobs).*2 = [] ->
  await picklable self jobs ps = None.
Proof.
  revert ps. induction jobs as [|[q obj] jobs IH]; intros ps; simpl; [done|].
  change (bool_decide (q = self) && picklable obj)
    with (writes_to picklable self (q, obj)).
  destruct (writes_to picklable self (q, obj)); simpl; [done | apply IH].
Qed.

Lemma get_pops w pid self x rest :
  on_the_way picklable pid self w = x :: rest ->
  exists w', get picklable pid self w = (w', Ret x)
             /\ on_the_way picklable pid self w' = rest
             /\ (ready w -> ready w').
Proof.
  unfold on_the_way. intros Hway. unfold get. run.
  destruct (pipes w !!! self) as [|y ys] eqn:Hpipe; simpl in *.
  - unfold pending in Hway.
    case_bool_decide as Hpid; [|done].
    destruct (await_first self (default [] (__thread_pool w)) (pipes w) x rest
                Hpipe Hway) as (jobs' & ps' & -> & Hps' & Hmine).
    simpl. eexists. split; [done|]. unfold on_the_way, pending, ready. simpl.
    rewrite bool_decide_eq_true_2 by done. rewrite Hps'. simpl.
    split; [done|]. intros [? _]. by split; [|eexists].
  - injection Hway as -> <-. eexists. split; [done|].
    unfold on_the_way, pending, ready. simpl.
    rewrite lookup_total_insert_eq. split; [done|]. by intros [? ?].
Qed.

(** With nothing in the pipe and nothing on its way, [get] never
    returns. *)
Lemma get_blocks w pid self :
  on_the_way picklable pid self w = [] ->
  get picklable pid self w = (w, Block).
Proof.
  unfold on_the_way. intros Hway.
  apply app_eq_nil in Hway as [Hpipe Hnone].
  unfold get. run. rewrite Hpipe. unfold pending in Hnone.
  case_bool_decide as Hpid; [|done].
  by rewrite (await_none self _ (pipes w) Hnone).
Qed.

Lemma puts_on_the_way (objs : list item) w pid self :
  ready w ->
  exists w', for_each objs (put pid self) w = (w', Ret tt)
             /\ ready w'
             /\ on_the_way picklable pid self w'
                = on_the_way picklable pid self w ++ List.filter picklable objs.
Proof.
  revert w. induction objs as [|obj objs IH]; intros w Hready; simpl.
  - exists w. by rewrite app_nil_r.
  - destruct (put_on_the_way w pid self obj Hready)
      as (w1 & Hput & Hready1 & _ & _ & Hway).
    destruct (IH w1 Hready1) as (w2 & Hrun & Hready2 & Hway2).
    exists w2. split; [by rewrite (bind_returns _ _ _ _ _ Hput)|].
    split; [done|]. rewrite Hway2, Hway, bool_decide_eq_true_2 by done.
    rewrite <- app_assoc. by destruct (picklable obj).
Qed.

Lemma gets_all (objs : list item) w pid self :
  on_the_way picklable pid self w = objs ->
  exists w', gets picklable pid self (length objs) w = (w', Ret objs)
             /\ on_the_way picklable pid self w' = [].
Proof.
  revert w. induction objs as [|obj objs IH]; intros w Hway; simpl.
  - by exists w.
  - destruct (get_pops w pid self obj objs Hway) as (w1 & Hget & Hway1 & _).
    destruct (IH w1 Hway1) as (w2 & Hgets & Hway2).
    exists w2. split; [|done].
    rewrite (bind_returns _ _ _ _ _ Hget).
    by rewrite (bind_returns _ _ _ _ _ Hgets).
Qed.

Lemma worker_step_pending w pid :
  pending pid (worker_step picklable pid w) = tail (pending pid w).
Proof.
  unfold worker_step.
  destruct (bool_decide (Some pid = __thread_pool_pid w)) eqn:Hpid.
  - destruct (__thread_pool w) as [[|[q obj] jobs]|] eqn:Hpool;
      unfold pending; simpl; by rewrite Hpid, ?Hpool.
  - unfold pending. by rewrite Hpid.
Qed.

Lemma worker_steps_drain w pid n :
  length (pending pid w) <= n ->
  pending pid (worker_steps picklable pid n w) = [].
Proof.
  revert w. induction n as [|n IH]; intros w Hlen.
  - change (worker_steps picklable pid 0 w) with w.
    destruct (pending pid w); [done | simpl in Hlen; lia].
  - replace (worker_steps picklable pid (S n) w)
      with (worker_steps picklable pid n (worker_step picklable pid w)).
    2:{ unfold worker_steps. by rewrite <- Nat.iter_succ_r. }
    apply IH. rewrite worker_step_pending.
    destruct (pending pid w); simpl in *; lia.
Qed.

(** A quiet queue has nothing on its way. *)
Lemma quiet_on_the_way w pid self :
  quiet pid self w -> on_the_way picklable pid self w = [].
Proof.
  intros [Hpipe Hno]. unfold on_the_way. rewrite Hpipe. simpl.
  induction (pending pid w) as [|[q obj] jobs IH]; [done|]. simpl.
  unfold writes_to at 1. simpl.
  rewrite bool_decide_eq_false_2.
  2:{ intros ->. apply (Hno obj). left. }
  simpl. apply IH. intros obj' Hin. apply (Hno obj'). by right.
Qed.

End SafeQueueProperties.

(** C6: a [put] from a process other than the one that owns the pool
    makes a new pool under the class lock and binds it to the caller
    before it hands the item over; a [put] from the owner only hands the
    item over.  Either way the call returns, and the pool then belongs to
    the caller. *)
Theorem put_rebinds_worker {item : Type} (w : SafeQueue.world item)
    (pid self : nat) (obj : item) :
  SafeQueue.ready w ->
  exists w',
    SafeQueue.put pid self obj w = (w', Ret tt)
    /\ SafeQueue.__thread_pool_pid w' = Some pid
    /\ SafeQueue.ready w'
    /\ SafeQueue.pipes w' = SafeQueue.pipes w
    /\ if bool_decide (SafeQueue.__thread_pool_pid w = Some pid)
       then SafeQueue.log w' = SafeQueue.log w ++ [SafeQueue.Dispatched self obj]
            /\ SafeQueue.__thread_pool w'
               = Some (default [] (SafeQueue.__thread_pool w) ++ [(self, obj)])
       else SafeQueue.log w'
            = SafeQueue.log w ++ [SafeQueue.LockAcquired;
                                  SafeQueue.PoolCreated pid;
                                  SafeQueue.LockReleased;
                                  SafeQueue.Dispatched self obj]
            /\ SafeQueue.__thread_pool w' = Some [(self, obj)].
Proof.
  intros [Hlock [jobs Hpool]]. case_bool_decide as Hpid.
  - eexists. split; [by apply put_same_process|]. simpl.
    rewrite Hpool. unfold SafeQueue.ready. simpl. eauto 10.
  - eexists. split; [by apply put_other_process|]. simpl.
    unfold SafeQueue.ready. simpl. eauto 10.
Qed.

(** A queue made in process 7 and written to from process 8. *)
Lemma put_rebinds_worker_witness :
  let w := fst (SafeQueue.__init__ 7 SafeQueue.fresh_world) in
  exists w',
    SafeQueue.put 8 0 42 w = (w', Ret tt)
    /\ SafeQueue.__thread_pool_pid w' = Some 8
    /\ SafeQueue.ready w'
    /\ SafeQueue.pipes w' = SafeQueue.pipes w
    /\ if bool_decide (SafeQueue.__thread_pool_pid w = Some 8)
       then SafeQueue.log w' = SafeQueue.log w ++ [SafeQueue.Dispatched 0 42]
            /\ SafeQueue.__thread_pool w'
               = Some (default [] (SafeQueue.__thread_pool w) ++ [(0, 42)])
       else SafeQueue.log w'
            = SafeQueue.log w ++ [SafeQueue.LockAcquired;
                                  SafeQueue.PoolCreated 8;
                                  SafeQueue.LockReleased;
                                  SafeQueue.Dispatched 0 42]
            /\ SafeQueue.__thread_pool w' = Some [(0, 42)].
Proof.
  intros w.
  apply (put_rebinds_worker w 8 0 42).
  split; [reflexivity | by eexists].
Defined.




(** ** [SingletonLock] *)
Section SingletonLockProperties.
Import SingletonLock.
Implicit Types (w : world) (self l : nat).

Lemma allocations_emit w a self :
  allocations (emit a w) self
  = allocations w self + (if bool_decide (a = LockAllocated self) then 1 else 0).
Proof.
  unfold allocations, emit. simpl.
  rewrite List.filter_app, length_app. simpl.
  by destruct (bool_decide (a = LockAllocated self)).
Qed.

Lemma create_existing w self l :
  _lock w self = Some l -> create self w = (w, Ret tt).
Proof. intros H. unfold create. run. by rewrite H. Qed.

Lemma create_missing w self :
  _lock w self = None ->
  create self w
  = ({| _instances := <[self := Some (length (os_locks w))]> (_instances w);
        os_locks := os_locks w ++ [false];
        log := log w ++ [LockAllocated self] |}, Ret tt).
Proof. intros H. unfold create. run. by rewrite H. Qed.

Lemma extends_refl w : wf w -> extends w w.
Proof. intros H. by split; [|split; [|split]]. Qed.

Lemma extends_trans w1 w2 w3 : extends w1 w2 -> extends w2 w3 -> extends w1 w3.
Proof.
  intros (_ & Hlen1 & Hheld1 & Hlock1) (Hwf & Hlen2 & Hheld2 & Hlock2).
  split; [exact Hwf|]. split; [congruence|]. split; [|by auto].
  intros self. by rewrite Hheld2.
Qed.

Lemma create_extends w self :
  wf w -> self < length (_instances w) ->
  exists w', create self w = (w', Ret tt)
             /\ extends w w' /\ is_Some (_lock w' self).
Proof.
  intros Hwf Hself. destruct (_lock w self) as [l|] eqn:Hl.
  - exists w. rewrite (create_existing w self l Hl).
    split; [done|]. split; [by apply extends_refl | by rewrite Hl].
  - eexists. split; [by apply create_missing|].
    assert (Hlk : forall i,
      _lock {| _instances := <[self := Some (length (os_locks w))]> (_instances w);
               os_locks := os_locks w ++ [false];
               log := log w ++ [LockAllocated self] |} i
      = if decide (i = self) then Some (length (os_locks w)) else _lock w i).
    { intros i. unfold _lock. simpl. destruct (decide (i = self)) as [->|Hne].
      - by rewrite list_lookup_insert_eq.
      - by rewrite list_lookup_insert_ne. }
    split; [|rewrite Hlk, decide_True by done; eauto].
    split; [|split; [|split]].
    + intros i. rewrite Hlk. split.
      * change (allocations _ i) with (allocations (emit (LockAllocated self) w) i).
        rewrite allocations_emit. destruct (Hwf i) as [Hal _]. rewrite Hal.
        destruct (decide (i = self)) as [->|Hne].
        -- rewrite Hl, bool_decide_eq_true_2 by done. done.
        -- rewrite bool_decide_eq_false_2 by congruence.
           destruct (_lock w i); lia.
      * simpl. rewrite length_app. simpl. intros l.
        destruct (decide (i = self)) as [->|Hne].
        -- intros [= <-]. lia.
        -- intros Hi. destruct (Hwf i) as [_ Hb]. specialize (Hb l Hi). lia.
    + simpl. by rewrite length_insert.
    + intros i. unfold held. rewrite Hlk. simpl.
      destruct (decide (i = self)) as [->|Hne].
      * rewrite Hl. rewrite lookup_app_r, Nat.sub_diag by lia. done.
      * destruct (_lock w i) as [l|] eqn:Hi; [|done].
        destruct (Hwf i) as [_ Hb]. rewrite lookup_app_l by auto. done.
    + intros i l Hi. rewrite Hlk.
      destruct (decide (i = self)) as [->|Hne]; [congruence | done].
Qed.

Lemma for_each_create_extends (selves : list nat) w :
  wf w -> Forall (fun self => self < length (_instances w)) selves ->
  exists w', for_each selves create w = (w', Ret tt) /\ extends w w'.
Proof.
  revert w. induction selves as [|self selves IH]; intros w Hwf Hall.
  - exists w. split; [done | by apply extends_refl].
  - inversion Hall as [|? ? Hself Hrest]; subst.
    destruct (create_extends w self Hwf Hself) as (w1 & Hc & Hext & _).
    destruct (IH w1) as (w2 & Hf & Hext2).
    { apply Hext. }
    { destruct Hext as (_ & -> & _). done. }
    exists w2. split; [|by eapply extends_trans].
    simpl. unfold bind. by rewrite Hc.
Qed.

Lemma instantiate_extends w :
  wf w -> exists w', instantiate w = (w', Ret tt) /\ extends w w'.
Proof.
  intros Hwf. unfold instantiate. run.
  apply for_each_create_extends; [done|].
  apply Forall_forall. intros i Hi. apply elem_of_seq in Hi. lia.
Qed.

Lemma creations_extend (rs : list request) w :
  wf w ->
  Forall (fun r => is_creation r = true /\ addressed w r) rs ->
  exists w', for_each rs serve w = (w', Ret tt) /\ extends w w'.
Proof.
  revert w. induction rs as [|r rs IH]; intros w Hwf Hall.
  - exists w. split; [done | by apply extends_refl].
  - inversion Hall as [|? ? [Hcr Haddr] Hrest]; subst.
    assert (exists w1, serve r w = (w1, Ret tt) /\ extends w w1)
      as (w1 & Hs & Hext).
    { destruct r as [self| |self|self]; try discriminate; simpl.
      - destruct (create_extends w self Hwf Haddr) as (w1 & ? & ? & _). eauto.
      - by apply instantiate_extends. }
    destruct (IH w1) as (w2 & Hf & Hext2).
    { apply Hext. }
    { eapply Forall_impl; [exact Hrest|]. intros r' [? Ha]. split; [done|].
      destruct Hext as (_ & Hlen & _). destruct r'; simpl in *; lia. }
    exists w2. split; [|by eapply extends_trans].
    simpl. unfold bind. by rewrite Hs.
Qed.

Lemma acquire_free w self l :
  _lock w self = Some l -> os_locks w !! l = Some false ->
  acquire self w
  = ({| _instances := _instances w;
        os_locks := <[l := true]> (os_locks w);
        log := log w ++ [Acquired self] |}, Ret true).
Proof.
  intros Hl Hfree. unfold acquire, bind.
  rewrite (create_existing w self l Hl). run. by rewrite Hl, Hfree.
Qed.

Lemma release_held w self l :
  _lock w self = Some l -> os_locks w !! l = Some true ->
  release self w
  = ({| _instances := _instances w;
        os_locks := <[l := false]> (os_locks w);
        log := log w ++ [Released self] |}, Ret tt).
Proof. intros Hl Hheld. unfold release. run. by rewrite Hl, Hheld. Qed.

(** Releasing a lock that was never made is not an error. *)
Lemma release_never_created w self :
  _lock w self = None -> release self w = (w, Ret tt).
Proof. intros Hl. unfold release. run. by rewrite Hl. Qed.

(** An [acquire] and the [release] after it, on a lock that exists and is
    free: both return, and the lock is free again. *)
Lemma acquire_release w self l :
  _lock w self = Some l -> os_locks w !! l = Some false ->
  exists w', (acquire self ;; release self) w = (w', Ret tt)
             /\ _lock w' self = Some l
             /\ os_locks w' !! l = Some false
             /\ allocations w' self = allocations w self.
Proof.
  intros Hl Hfree. eexists. split.
  - unfold bind at 1. rewrite (acquire_free w self l Hl Hfree).
    apply (release_held _ self l); simpl; [done|].
    apply list_lookup_insert_eq. by eapply lookup_lt_Some.
  - simpl. split; [done|]. split.
    + rewrite list_insert_insert_eq. apply list_lookup_insert_eq.
      by eapply lookup_lt_Some.
    + unfold allocations. simpl. rewrite <- app_assoc.
      rewrite List.filter_app. simpl. by rewrite length_app, Nat.add_0_r.
Qed.

End SingletonLockProperties.

Section SingletonLockScoped.
Import SingletonLock.
Implicit Types (w : world) (self l : nat).

Lemma wf_fresh : wf fresh_world.
Proof. intros self. by destruct self. Qed.

Lemma init_wf w : wf w -> wf (fst (__init__ w)).
Proof.
  intros Hwf self. unfold __init__. run.
  assert (Hlk : _lock {| _instances := _instances w ++ [None];
                         os_locks := os_locks w; log := log w |} self
                = _lock w self).
  { unfold _lock. simpl.
    destruct (decide (self < length (_instances w))) as [Hlt|Hge].
    - by rewrite lookup_app_l.
    - rewrite lookup_app_r by lia. rewrite (lookup_ge_None_2 (_instances w)) by lia.
      by destruct (self - length (_instances w)). }
  rewrite Hlk. apply Hwf.
Qed.

(** Leaving the scope normally: the lock is given back and the statement
    returns. *)
Lemma scoped_on_return w w1 w2 self l (body : prog world unit) :
  __enter__ self w = (w1, Ret tt) ->
  body w1 = (w2, Ret tt) ->
  _lock w2 self = Some l -> os_locks w2 !! l = Some true ->
  scoped self body w
  = ({| _instances := _instances w2;
        os_locks := <[l := false]> (os_locks w2);
        log := log w2 ++ [Released self] |}, Ret tt).
Proof.
  intros Henter Hbody Hl Hheld. unfold scoped, with_stmt.
  unfold bind at 1. rewrite Henter, Hbody.
  unfold __exit__. unfold bind.
  by rewrite (release_held w2 self l Hl Hheld).
Qed.

(** Leaving the scope by an error: the lock is given back as well, but
    what reaches the caller is the [TypeError] of the [raise] statement
    in [__exit__], whatever the error in flight was. *)
Lemma scoped_on_error w w1 w2 self l e (body : prog world unit) :
  __enter__ self w = (w1, Ret tt) ->
  body w1 = (w2, Raise e) ->
  _lock w2 self = Some l -> os_locks w2 !! l = Some true ->
  scoped self body w
  = ({| _instances := _instances w2;
        os_locks := <[l := false]> (os_locks w2);
        log := log w2 ++ [Released self] |}, Raise TypeError).
Proof.
  intros Henter Hbody Hl Hheld. unfold scoped, with_stmt.
  unfold bind at 1. rewrite Henter, Hbody.
  unfold __exit__. unfold bind.
  by rewrite (release_held w2 self l Hl Hheld).
Qed.

End SingletonLockScoped.

(** C8: a [SingletonLock] used as [with lock: body] is acquired on entry
    and released on exit, also when the body raises; the error that was
    in flight does not reach the caller, though: [__exit__] ends in
    [raise (exc_type, exc_value, traceback)], which raises [TypeError]
    because a tuple is not an exception. *)
Theorem scoped_error_in_flight_is_replaced (e : exn) :
  SingletonLock.scoped 0 (raise e)
    (fst (SingletonLock.__init__ SingletonLock.fresh_world))
  = ({| SingletonLock._instances := [Some 0];
        SingletonLock.os_locks := [false];
        SingletonLock.log := [SingletonLock.LockAllocated 0;
                              SingletonLock.Acquired 0;
                              SingletonLock.Released 0] |},
     Raise TypeError).
Proof. reflexivity. Qed.

(** C9: [create] allocates the lock of an instance at the first call and
    never again: after one [create] and any further [create] and
    [instantiate] calls the instance has a lock, exactly one [Lock()]
    was allocated for it, a lock it had before is still its lock, and
    [acquire]/[release] succeed, twice in a row, without another
    allocation. *)
Theorem create_allocates_once (w : SingletonLock.world) (self : nat)
    (rs : list SingletonLock.request) :
  SingletonLock.wf w ->
  self < length (SingletonLock._instances w) ->
  SingletonLock.held w self = false ->
  Forall (fun r => SingletonLock.is_creation r = true
                   /\ SingletonLock.addressed w r) rs ->
  exists w' l,
    (SingletonLock.create self ;; for_each rs SingletonLock.serve) w
      = (w', Ret tt)
    /\ SingletonLock._lock w' self = Some l
    /\ SingletonLock.allocations w' self = 1
    /\ (forall l0, SingletonLock._lock w self = Some l0 -> l0 = l)
    /\ exists w'',
         (SingletonLock.acquire self ;; SingletonLock.release self ;;
          SingletonLock.acquire self ;; SingletonLock.release self) w'
           = (w'', Ret tt)
         /\ SingletonLock.allocations w'' self = 1.
Proof.
  intros Hwf Hself Hfree Hrs.
  destruct (create_extends w self Hwf Hself) as (w1 & Hc & Hext1 & [l Hl]).
  destruct (creations_extend rs w1) as (w2 & Hrun & Hext2).
  { apply Hext1. }
  { eapply Forall_impl; [exact Hrs|]. intros r [? Ha]. split; [done|].
    destruct Hext1 as (_ & Hlen & _). destruct r; simpl in *; lia. }
  pose proof (extends_trans _ _ _ Hext1 Hext2) as (Hwf2 & _ & Hheld & Hkept).
  assert (Hl2 : SingletonLock._lock w2 self = Some l).
  { destruct Hext2 as (_ & _ & _ & Hk). by apply Hk. }
  assert (Hal : SingletonLock.allocations w2 self = 1).
  { destruct (Hwf2 self) as [-> _]. by rewrite Hl2. }
  assert (Hos : SingletonLock.os_locks w2 !! l = Some false).
  { destruct (Hwf2 self) as [_ Hb]. specialize (Hb l Hl2).
    destruct (lookup_lt_is_Some_2 _ _ Hb) as [b Hb'].
    specialize (Hheld self). unfold SingletonLock.held in Hheld at 1.
    rewrite Hl2, Hb', Hfree in Hheld. simpl in Hheld. by subst b. }
  exists w2, l. split.
  { unfold bind. by rewrite Hc. }
  split; [done|]. split; [done|]. split.
  { intros l0 Hl0. specialize (Hkept self l0 Hl0). congruence. }
  destruct (acquire_release w2 self l Hl2 Hos) as (w3 & Hpair1 & Hl3 & Hos3 & Hal3).
  destruct (acquire_release w3 self l Hl3 Hos3) as (w4 & Hpair2 & _ & _ & Hal4).
  exists w4. split; [|congruence].
  transitivity
    ((_ <- (SingletonLock.acquire self ;; SingletonLock.release self) ;;
      SingletonLock.acquire self ;; SingletonLock.release self) w2).
  - symmetry. apply (bind_assoc (SingletonLock.acquire self)).
  - by rewrite (bind_returns _ _ _ _ _ Hpair1).
Qed.

(** Two instances; the second is created directly, then through the
    registry, then directly again. *)
Lemma create_allocates_once_witness :
  let w := fst ((SingletonLock.__init__ ;; SingletonLock.__init__)
                  SingletonLock.fresh_world) in
  let rs := [SingletonLock.Create 1; SingletonLock.Instantiate;
             SingletonLock.Create 0; SingletonLock.Create 1] in
  exists w' l,
    (SingletonLock.create 1 ;; for_each rs SingletonLock.serve) w
      = (w', Ret tt)
    /\ SingletonLock._lock w' 1 = Some l
    /\ SingletonLock.allocations w' 1 = 1
    /\ (forall l0, SingletonLock._lock w 1 = Some l0 -> l0 = l)
    /\ exists w'',
         (SingletonLock.acquire 1 ;; SingletonLock.release 1 ;;
          SingletonLock.acquire 1 ;; SingletonLock.release 1) w'
           = (w'', Ret tt)
         /\ SingletonLock.allocations w'' 1 = 1.
Proof.
  intros w rs.
  apply (create_allocates_once w 1 rs).
  - apply (init_wf (fst (SingletonLock.__init__ SingletonLock.fresh_world))).
    apply init_wf, wf_fresh.
  - simpl. lia.
  - reflexivity.
  - repeat constructor; simpl; lia.
Defined.

(** ** [BackgroundMonitor]: liveness *)
Section LivenessProperties.
Import BackgroundMonitor.
Variable o : os.
Implicit Types (w : world) (self pid : nat).

Lemma scan_children_found pid children st w :
  find_child pid children = Some (pid, inr st) ->
  scan_children pid children w = (w, Ret (VBool (negb (is_zombie st)))).
Proof.
  unfold find_child. induction children as [|[p s] children IH]; simpl; [done|].
  case_bool_decide as Hp; [|exact IH].
  intros [= -> ->]. reflexivity.
Qed.

Lemma scan_children_not_found pid children w :
  find_child pid children = None ->
  scan_children pid children w = (w, Ret (VBool false)).
Proof.
  unfold find_child. induction children as [|[p s] children IH]; simpl; [done|].
  case_bool_decide as Hp; [done | exact IH].
Qed.

(** The scan reads the state and leaves it alone, and so do the two
    liveness checks. *)
Lemma scan_children_pure pid children w :
  fst (scan_children pid children w) = w.
Proof.
  induction children as [|[p s] children IH]; simpl; [done|].
  case_bool_decide; [|exact IH]. by destruct s.
Qed.

Lemma direct_check_pure pid w : fst (direct_check o pid w) = w.
Proof.
  unfold direct_check, lookup_process. run.
  destruct (process_is_alive o pid) as [e|[]]; simpl; try done.
  destruct (psutil_Process o pid); simpl; [done|].
  by destruct (psutil_status o pid).
Qed.

Lemma tree_scan_pure pid w : fst (tree_scan o pid w) = w.
Proof.
  unfold tree_scan, lookup_process. run.
  destruct (psutil_Process o _) as [e|]; simpl.
  - by destruct (is_psutil_Error e).
  - destruct (psutil_children o _) as [e|children]; simpl; [done|].
    apply scan_children_pure.
Qed.

Lemma is_subprocess_alive_pure w : fst (is_subprocess_alive o w) = w.
Proof.
  unfold is_subprocess_alive. run.
  destruct (_main_process w) as [pid|]; [|done].
  pose proof (direct_check_pure pid w) as Hd.
  destruct (direct_check o pid w) as [w' [v|e| |]]; simpl in *; subst; try done.
  apply tree_scan_pure.
Qed.

(** What a liveness check returns is [True], [False] or [None]. *)
Lemma scan_children_range pid children w w' v :
  scan_children pid children w = (w', Ret v) ->
  v = VNone \/ exists b, v = VBool b.
Proof.
  induction children as [|[p s] children IH]; simpl.
  - intros [= <- <-]. eauto.
  - case_bool_decide; [|exact IH]. destruct s; simpl; [done|].
    intros [= <- <-]. eauto.
Qed.

Lemma is_subprocess_alive_range w w' v :
  is_subprocess_alive o w = (w', Ret v) ->
  v = VNone \/ exists b, v = VBool b.
Proof.
  unfold is_subprocess_alive. run.
  destruct (_main_process w) as [pid|]; [|intros [= <- <-]; eauto].
  unfold direct_check, lookup_process. run.
  assert (Hscan : tree_scan o pid w = (w', Ret v) ->
                  v = VNone \/ exists b, v = VBool b).
  { unfold tree_scan, lookup_process. run.
    destruct (psutil_Process o _) as [e|]; simpl.
    - destruct (is_psutil_Error e); simpl; [|done]. intros [= <- <-]. eauto.
    - destruct (psutil_children o _) as [e|children]; simpl; [done|].
      apply scan_children_range. }
  destruct (process_is_alive o pid) as [e|[]]; simpl; auto.
  - destruct (psutil_Process o pid); simpl; auto.
    destruct (psutil_status o pid); simpl; auto.
    intros [= <- <-]. eauto.
  - intros [= <- <-]. eauto.
Qed.

Lemma is_subprocess_alive_never_launched w :
  _main_process w = None -> is_subprocess_alive o w = (w, Ret (VBool false)).
Proof. intros H. unfold is_subprocess_alive. run. by rewrite H. Qed.

Lemma is_subprocess_alive_direct w pid v :
  _main_process w = Some pid -> direct_check o pid w = (w, Ret v) ->
  is_subprocess_alive o w = (w, Ret v).
Proof. intros H Hd. unfold is_subprocess_alive. run. by rewrite H, Hd. Qed.

Lemma is_subprocess_alive_fallback w pid e :
  _main_process w = Some pid -> direct_check o pid w = (w, Raise e) ->
  is_subprocess_alive o w = tree_scan o pid w.
Proof. intros H Hd. unfold is_subprocess_alive. run. by rewrite H, Hd. Qed.

End LivenessProperties.

(** C4: [is_subprocess_alive] answers [False] when no worker was ever
    launched.  When the direct check raises, the parent's descendants
    are scanned: a parent that [psutil] cannot find gives [None], a
    falsy answer that is not [False], and no exception; a descendant
    with the worker's process id gives whether its status is not zombie;
    no such descendant gives [False]. *)
Theorem is_subprocess_alive_cases
    (o : BackgroundMonitor.os) (w : BackgroundMonitor.world) :
  (BackgroundMonitor._main_process w = None ->
   BackgroundMonitor.is_subprocess_alive o w = (w, Ret (VBool false)))
  /\ (forall pid e,
        BackgroundMonitor._main_process w = Some pid ->
        BackgroundMonitor.direct_check o pid w = (w, Raise e) ->
        let parent := default (BackgroundMonitor.getpid o)
                        (BackgroundMonitor._parent_pid w) in
        (BackgroundMonitor.psutil_Process o parent = Some psutil_Error ->
         BackgroundMonitor.is_subprocess_alive o w = (w, Ret VNone)
         /\ truthy VNone = false /\ VNone <> VBool false)
        /\ (forall children,
              BackgroundMonitor.psutil_Process o parent = None ->
              BackgroundMonitor.psutil_children o parent = inr children ->
              (forall st,
                 BackgroundMonitor.find_child pid children = Some (pid, inr st) ->
                 BackgroundMonitor.is_subprocess_alive o w
                 = (w, Ret (VBool (negb (BackgroundMonitor.is_zombie st)))))
              /\ (BackgroundMonitor.find_child pid children = None ->
                  BackgroundMonitor.is_subprocess_alive o w
                  = (w, Ret (VBool false))))).
Proof.
  split; [apply is_subprocess_alive_never_launched|].
  intros pid e Hmain Hdirect parent.
  rewrite (is_subprocess_alive_fallback o w pid e Hmain Hdirect).
  unfold BackgroundMonitor.tree_scan, BackgroundMonitor.lookup_process.
  BackgroundMonitor.run. fold parent. split.
  - intros ->. simpl. done.
  - intros children -> ->. simpl. split.
    + intros st. apply scan_children_found.
    + apply scan_children_not_found.
Qed.

(** No worker yet; a parent that cannot be found; the worker found as a
    zombie among two descendants; the worker not among them. *)
Lemma is_subprocess_alive_cases_witness :
  let launch o := fst (BackgroundMonitor.start_all o true false
                         BackgroundMonitor.fresh_world) in
  let lost := BackgroundMonitor.reaped_os (Some psutil_Error) [] in
  let zombie := BackgroundMonitor.reaped_os None
                  [(7, inr BackgroundMonitor.STATUS_RUNNING);
                   (101, inr BackgroundMonitor.STATUS_ZOMBIE)] in
  let gone := BackgroundMonitor.reaped_os None
                [(7, inr BackgroundMonitor.STATUS_RUNNING)] in
  BackgroundMonitor.is_subprocess_alive BackgroundMonitor.calm_os
    BackgroundMonitor.fresh_world
  = (BackgroundMonitor.fresh_world, Ret (VBool false))
  /\ BackgroundMonitor.is_subprocess_alive lost (launch lost)
     = (launch lost, Ret VNone)
  /\ BackgroundMonitor.is_subprocess_alive zombie (launch zombie)
     = (launch zombie, Ret (VBool false))
  /\ BackgroundMonitor.is_subprocess_alive gone (launch gone)
     = (launch gone, Ret (VBool false)).
Proof.
  intros launch lost zombie gone.
  split; [|split; [|split]].
  - apply (proj1 (is_subprocess_alive_cases BackgroundMonitor.calm_os
                    BackgroundMonitor.fresh_world)).
    reflexivity.
  - apply (proj1 (proj2 (is_subprocess_alive_cases lost (launch lost))
                    101 AssertionError eq_refl eq_refl)).
    reflexivity.
  - apply (proj1 (proj2 (proj2 (is_subprocess_alive_cases zombie (launch zombie))
                           101 AssertionError eq_refl eq_refl)
                    _ eq_refl eq_refl)
             BackgroundMonitor.STATUS_ZOMBIE).
    reflexivity.
  - apply (proj2 (proj2 (proj2 (is_subprocess_alive_cases gone (launch gone))
                           101 AssertionError eq_refl eq_refl)
                    _ eq_refl eq_refl)).
    reflexivity.
Defined.

Section IsAliveProperties.
Import BackgroundMonitor.
Variable o : os.
Implicit Types (w : world) (self pid : nat).

Lemma py_and_true_inv (a : value) (s d : bool) :
  (a = VNone \/ exists b, a = VBool b) ->
  py_and (py_and a (VBool s)) (VBool d) = VBool true ->
  a = VBool true /\ s = true /\ d = true.
Proof.
  intros [->|[[] ->]]; simpl; try done.
  destruct s; simpl; [|done]. by intros [= ->].
Qed.

Lemma is_alive_subprocess_mode w self pid :
  _main_process w = Some pid ->
  is_alive o self w = (w, Ret (VBool true))
  <-> (is_subprocess_alive o w = (w, Ret (VBool true))
       /\ is_set (_start_ev (obj w self)) = true
       /\ is_set (_done_ev (obj w self)) = false).
Proof.
  intros Hmain. unfold is_alive, is_subprocess. run. rewrite Hmain.
  rewrite bool_decide_eq_true_2 by eauto.
  pose proof (is_subprocess_alive_pure o w) as Hpure.
  pose proof (is_subprocess_alive_range o w) as Hrange.
  destruct (is_subprocess_alive o w) as [w' [a|e| |]]; simpl in *; subst w'.
  - split.
    + intros [= Hv]. apply py_and_true_inv in Hv; [|by eapply Hrange].
      destruct Hv as (-> & -> & Hd). by destruct (is_set (_done_ev _)).
    + intros ([= ->] & -> & ->). reflexivity.
  - split; [done | by intros [? _]].
  - split; [done | by intros [? _]].
  - split; [done | by intros [? _]].
Qed.

Lemma is_alive_thread_mode w self :
  _main_process w = None ->
  is_alive o self w = (w, Ret (VBool true))
  <-> exists tid, _thread (obj w self) = ThreadObj tid
                  /\ thread_is_alive o tid = true.
Proof.
  intros Hmain. unfold is_alive, is_subprocess. run. rewrite Hmain.
  rewrite bool_decide_eq_false_2 by (by intros [? ?]).
  destruct (_thread (obj w self)) as [| |tid].
  - split; [done | by intros (? & ? & _)].
  - split; [done | by intros (? & ? & _)].
  - split.
    + intros [= H]. eauto.
    + intros (? & [= <-] & ->). reflexivity.
Qed.

End IsAliveProperties.

(** C5: when a worker process has been launched ([is_subprocess()]),
    [is_alive] answers [True] exactly when the worker is alive, the
    monitor's [_start_ev] is set and its [_done_ev] is not; otherwise it
    answers [True] exactly when [_thread] is a [Thread] and that thread
    is alive.  The call changes nothing. *)
Theorem is_alive_cases
    (o : BackgroundMonitor.os) (w : BackgroundMonitor.world) (self : nat) :
  (forall pid,
     BackgroundMonitor._main_process w = Some pid ->
     BackgroundMonitor.is_alive o self w = (w, Ret (VBool true))
     <-> (BackgroundMonitor.is_subprocess_alive o w = (w, Ret (VBool true))
          /\ BackgroundMonitor.is_set
               (BackgroundMonitor._start_ev (BackgroundMonitor.obj w self)) = true
          /\ BackgroundMonitor.is_set
               (BackgroundMonitor._done_ev (BackgroundMonitor.obj w self)) = false))
  /\ (BackgroundMonitor._main_process w = None ->
      BackgroundMonitor.is_alive o self w = (w, Ret (VBool true))
      <-> exists tid,
            BackgroundMonitor._thread (BackgroundMonitor.obj w self)
            = BackgroundMonitor.ThreadObj tid
            /\ BackgroundMonitor.thread_is_alive o tid = true).
Proof.
  split.
  - intros pid. apply is_alive_subprocess_mode.
  - apply is_alive_thread_mode.
Qed.

(** A monitor whose loop is in progress, once with a worker launched and
    once without. *)
Lemma is_alive_cases_witness :
  let o := BackgroundMonitor.calm_os in
  let running rs :=
    fst (BackgroundMonitor._daemon o 1 0
           (fst (for_each rs (BackgroundMonitor.serve o)
                   BackgroundMonitor.fresh_world))) in
  let w_sub := running [BackgroundMonitor.New 5; BackgroundMonitor.Start 0;
                        BackgroundMonitor.StartAll true false] in
  let w_thr := running [BackgroundMonitor.New 5; BackgroundMonitor.Start 0;
                        BackgroundMonitor.StartAll false false] in
  BackgroundMonitor.is_alive o 0 w_sub = (w_sub, Ret (VBool true))
  /\ BackgroundMonitor.is_alive o 0 w_thr = (w_thr, Ret (VBool true)).
Proof.
  intros o running w_sub w_thr. split.
  - apply (proj1 (is_alive_cases o w_sub 0) 101 eq_refl).
    split; [reflexivity | split; reflexivity].
  - apply (proj2 (is_alive_cases o w_thr 0) eq_refl).
    exists 0. split; reflexivity.
Defined.

(** The test of [is_alive] is on the class, not on the monitor.  Monitor 1
    is made after the worker was launched and runs as a thread of the
    host: [set_subprocess_mode] never touched it, its [_thread] is a
    [Thread] and that thread is alive.  As the class has a worker handle,
    [is_alive] asks for the worker, which is gone, and answers [False]. *)
Lemma is_alive_host_thread_beside_worker :
  let o := BackgroundMonitor.reaped_os None [] in
  let w := fst (for_each [BackgroundMonitor.New 5; BackgroundMonitor.Start 0;
                          BackgroundMonitor.StartAll true false;
                          BackgroundMonitor.New 7; BackgroundMonitor.Start 1;
                          BackgroundMonitor.StartAll false false]
                  (BackgroundMonitor.serve o) BackgroundMonitor.fresh_world) in
  BackgroundMonitor._subprocess (BackgroundMonitor.obj w 1) = false
  /\ BackgroundMonitor._thread (BackgroundMonitor.obj w 1)
     = BackgroundMonitor.ThreadObj 1
  /\ BackgroundMonitor.thread_is_alive o 1 = true
  /\ BackgroundMonitor.is_alive o 1 w = (w, Ret (VBool false))
  /\ ~ (BackgroundMonitor.is_alive o 1 w = (w, Ret (VBool true))
        <-> exists tid,
              BackgroundMonitor._thread (BackgroundMonitor.obj w 1)
              = BackgroundMonitor.ThreadObj tid
              /\ BackgroundMonitor.thread_is_alive o tid = true).
Proof.
  intros o w.
  split; [reflexivity|]. split; [reflexivity|]. split; [reflexivity|].
  split; [reflexivity|].
  intros [_ Hback]. discriminate Hback. by exists 1.
Qed.

(** ** [BackgroundMonitor]: the loop of a monitor thread *)
Section DaemonProperties.
Import BackgroundMonitor.
Variable o : os.
Implicit Types (w : world) (self : nat).

Lemma event_wait_signalled w self :
  seen_set o w self 0 = true ->
  event_wait o self w
  = ({| _main_process := _main_process w; _parent_pid := _parent_pid w;
        _sub_process_started := _sub_process_started w;
        _instances := _instances w;
        heap := alter signal self (heap w);
        threads := threads w; waits := S (waits w);
        log := log w ++ [WaitSignalled self (_wait_timeout (obj w self))] |},
     Ret true).
Proof.
  unfold seen_set. rewrite Nat.add_0_r. intros Hseen.
  unfold event_wait. run. unfold obj in *. simpl. by rewrite Hseen.
Qed.

Lemma event_wait_timed_out w self :
  seen_set o w self 0 = false ->
  event_wait o self w
  = ({| _main_process := _main_process w; _parent_pid := _parent_pid w;
        _sub_process_started := _sub_process_started w;
        _instances := _instances w; heap := heap w;
        threads := threads w; waits := S (waits w);
        log := log w ++ [WaitTimedOut self (_wait_timeout (obj w self))] |},
     Ret false).
Proof.
  unfold seen_set. rewrite Nat.add_0_r. intros Hseen.
  unfold event_wait. run. unfold obj in *. simpl. by rewrite Hseen.
Qed.

(** The loop ends at the first wait that sees the stop event set, after
    one step for every wait that timed out before. *)
Lemma daemon_ends (ticks : nat) : forall fuel w self,
  ticks < fuel ->
  (forall k, k < ticks -> seen_set o w self k = false) ->
  seen_set o w self ticks = true ->
  exists w',
    daemon o fuel self w = (w', Ret tt)
    /\ log w' = log w
                ++ concat (replicate ticks
                             [WaitTimedOut self (_wait_timeout (obj w self));
                              DaemonStep self])
                ++ [WaitSignalled self (_wait_timeout (obj w self))]
    /\ heap w' = alter signal self (heap w).
Proof.
  induction ticks as [|ticks IH]; intros fuel w self Hfuel Hbefore Hseen;
    (destruct fuel as [|fuel]; [lia|]); simpl; unfold bind at 1.
  - rewrite (event_wait_signalled w self Hseen). eexists. split; [done|].
    by split.
  - rewrite (event_wait_timed_out w self) by (apply Hbefore; lia).
    unfold _daemon_step, bind, modify. simpl.
    match goal with |- context [daemon o fuel self ?w1] =>
      destruct (IH fuel w1 self) as (w' & Hrun & Hlog & Hheap) end.
    + lia.
    + intros k Hk. specialize (Hbefore (S k) ltac:(lia)).
      unfold seen_set, obj in *. simpl. by rewrite Nat.add_succ_r in Hbefore.
    + unfold seen_set, obj in *. simpl. by rewrite Nat.add_succ_r in Hseen.
    + exists w'. rewrite Hrun. split; [done|]. split; [|done].
      rewrite Hlog. unfold emit. simpl. by rewrite <- !app_assoc.
Qed.

(** With the stop event never seen set the loop is still going after any
    number of iterations. *)
Lemma daemon_goes_on (fuel : nat) : forall w self,
  (forall k, seen_set o w self k = false) ->
  snd (daemon o fuel self w) = OutOfFuel.
Proof.
  induction fuel as [|fuel IH]; intros w self Hnever; [done|].
  simpl. unfold bind at 1.
  rewrite (event_wait_timed_out w self) by apply Hnever.
  unfold _daemon_step, bind, modify. simpl.
  match goal with |- context [daemon o fuel self ?w1] =>
    specialize (IH w1 self); destruct (daemon o fuel self w1) as [w' out] end.
  simpl in *. rewrite IH; [done|].
  intros k. specialize (Hnever (S k)). unfold seen_set, obj in *. simpl.
  by rewrite Nat.add_succ_r in Hnever.
Qed.

End DaemonProperties.

(** C2: a run of [_daemon] sets [_start_ev] first, then waits on the stop
    event, doing one step after every wait that times out, and at the
    first wait that sees the event set it leaves the loop, calls
    [post_execution] and sets [_done_ev].  So the start event is set
    before the first step and the done event after the last one, at the
    end of the post-run hook. *)
Theorem daemon_signal_order
    (o : BackgroundMonitor.os) (w : BackgroundMonitor.world)
    (self ticks fuel : nat) :
  is_Some (BackgroundMonitor.heap w !! self) ->
  (forall k, k < ticks -> BackgroundMonitor.seen_set o w self k = false) ->
  BackgroundMonitor.seen_set o w self ticks = true ->
  ticks < fuel ->
  exists w',
    BackgroundMonitor._daemon o fuel self w = (w', Ret tt)
    /\ BackgroundMonitor.log w'
       = BackgroundMonitor.log w
         ++ [BackgroundMonitor.StartEvSet self]
         ++ concat (replicate ticks
                      [BackgroundMonitor.WaitTimedOut self
                         (BackgroundMonitor._wait_timeout
                            (BackgroundMonitor.obj w self));
                       BackgroundMonitor.DaemonStep self])
         ++ [BackgroundMonitor.WaitSignalled self
               (BackgroundMonitor._wait_timeout (BackgroundMonitor.obj w self));
             BackgroundMonitor.PostExecution self;
             BackgroundMonitor.DoneEvSet self]
    /\ BackgroundMonitor.is_set
         (BackgroundMonitor._start_ev (BackgroundMonitor.obj w' self)) = true
    /\ BackgroundMonitor.is_set
         (BackgroundMonitor._done_ev (BackgroundMonitor.obj w' self)) = true.
Proof.
  intros [m Hm] Hbefore Hseen Hfuel.
  set (w1 := BackgroundMonitor.emit (BackgroundMonitor.StartEvSet self)
               (BackgroundMonitor.set_heap
                  (alter (fun m => BackgroundMonitor.with_start_ev
                                     (BackgroundMonitor.set
                                        (BackgroundMonitor._start_ev m)) m)
                     self (BackgroundMonitor.heap w)) w)).
  assert (Hobj : BackgroundMonitor._event (BackgroundMonitor.obj w1 self)
                 = BackgroundMonitor._event (BackgroundMonitor.obj w self)).
  { unfold BackgroundMonitor.obj, w1. simpl.
    by rewrite lookup_total_alter_eq, Hm, (lookup_total_correct _ _ _ Hm). }
  assert (Htime : BackgroundMonitor._wait_timeout (BackgroundMonitor.obj w1 self)
                  = BackgroundMonitor._wait_timeout (BackgroundMonitor.obj w self)).
  { unfold BackgroundMonitor.obj, w1. simpl.
    by rewrite lookup_total_alter_eq, Hm, (lookup_total_correct _ _ _ Hm). }
  destruct (daemon_ends o ticks fuel w1 self) as (w2 & Hrun & Hlog & Hheap).
  - done.
  - intros k Hk. rewrite <- (Hbefore k Hk).
    unfold BackgroundMonitor.seen_set. by rewrite Hobj.
  - rewrite <- Hseen. unfold BackgroundMonitor.seen_set. by rewrite Hobj.
  - change (BackgroundMonitor._daemon o fuel self w)
      with ((BackgroundMonitor.daemon o fuel self ;;
             BackgroundMonitor.post_execution self) w1).
    unfold bind at 1. rewrite Hrun.
    unfold BackgroundMonitor.post_execution. BackgroundMonitor.run.
    eexists. split; [done|]. simpl. split.
    + rewrite Hlog, Htime. simpl. by rewrite <- !app_assoc.
    + unfold BackgroundMonitor.obj. simpl. rewrite Hheap. simpl.
      rewrite !lookup_total_alter_eq, !lookup_alter_eq, Hm. simpl. done.
Qed.

(** A started monitor whose stop event arrives during its third wait. *)
Lemma daemon_signal_order_witness :
  let o := BackgroundMonitor.stop_at 2 in
  let w := fst (for_each [BackgroundMonitor.New 5; BackgroundMonitor.Start 0;
                          BackgroundMonitor.StartAll false false]
                  (BackgroundMonitor.serve o) BackgroundMonitor.fresh_world) in
  exists w',
    BackgroundMonitor._daemon o 3 0 w = (w', Ret tt)
    /\ BackgroundMonitor.log w'
       = BackgroundMonitor.log w
         ++ [BackgroundMonitor.StartEvSet 0]
         ++ concat (replicate 2 [BackgroundMonitor.WaitTimedOut 0 5;
                                 BackgroundMonitor.DaemonStep 0])
         ++ [BackgroundMonitor.WaitSignalled 0 5;
             BackgroundMonitor.PostExecution 0;
             BackgroundMonitor.DoneEvSet 0]
    /\ BackgroundMonitor.is_set
         (BackgroundMonitor._start_ev (BackgroundMonitor.obj w' 0)) = true
    /\ BackgroundMonitor.is_set
         (BackgroundMonitor._done_ev (BackgroundMonitor.obj w' 0)) = true.
Proof.
  intros o w.
  apply (daemon_signal_order o w 0 2 3).
  - by eexists.
  - intros k Hk. destruct k as [|[|k]]; [reflexivity | reflexivity | lia].
  - reflexivity.
  - lia.
Defined.

(** ** [BackgroundMonitor]: launching the fleet *)
Section LaunchProperties.
Import BackgroundMonitor.
Variable o : os.
Implicit Types (w : world) (self : nat).

Lemma launched_emit a w :
  launched (emit a w) = launched w + (if is_launch a then 1 else 0).
Proof.
  unfold launched, emit. simpl. rewrite List.filter_app, length_app.
  simpl. by destruct (is_launch a).
Qed.

Lemma no_launch_ret {A} (a : A) : no_launch (ret a).
Proof. by intros w. Qed.

Lemma no_launch_raise {A} e : no_launch (@raise world A e).
Proof. by intros w. Qed.

Lemma no_launch_read : no_launch read.
Proof. by intros w. Qed.

Lemma no_launch_bind {A B} (m : prog world A) (k : A -> prog world B) :
  no_launch m -> (forall a, no_launch (k a)) -> no_launch (x <- m ;; k x).
Proof.
  intros Hm Hk w. unfold bind. specialize (Hm w).
  destruct (m w) as [w1 [a|e| |]]; simpl in *; try done.
  destruct (Hk a w1) as [-> ->]. done.
Qed.

Lemma no_launch_when (b : bool) m : no_launch m -> no_launch (when b m).
Proof. destruct b; [done | intros _; apply no_launch_ret]. Qed.

Lemma no_launch_for_each {A} (l : list A) body :
  (forall x, no_launch (body x)) -> no_launch (for_each l body).
Proof.
  intros Hbody. induction l as [|x l IH]; simpl.
  - apply no_launch_ret.
  - apply no_launch_bind; [apply Hbody | intros _; exact IH].
Qed.

Lemma no_launch_update self f : no_launch (update self f).
Proof. by intros w. Qed.

Lemma no_launch_set_instances l : no_launch (modify (set_instances l)).
Proof. by intros w. Qed.

Lemma no_launch_set_threads n : no_launch (modify (set_threads n)).
Proof. by intros w. Qed.

Lemma no_launch_set_heap h : no_launch (modify (set_heap h)).
Proof. by intros w. Qed.

Lemma no_launch_emit a : is_launch a = false -> no_launch (modify (emit a)).
Proof.
  intros Ha w. split; [done|].
  change (fst (modify (emit a) w)) with (emit a w).
  rewrite launched_emit, Ha. lia.
Qed.

Lemma no_launch_is_subprocess_alive : no_launch (is_subprocess_alive o).
Proof. intros w. by rewrite is_subprocess_alive_pure. Qed.

#[local] Hint Resolve no_launch_ret no_launch_raise no_launch_read
  no_launch_bind no_launch_when no_launch_for_each no_launch_update
  no_launch_set_instances no_launch_set_threads no_launch_set_heap
  no_launch_is_subprocess_alive : launch.
#[local] Hint Extern 1 (no_launch (modify (emit _))) =>
  apply no_launch_emit; reflexivity : launch.

Lemma no_launch_init wait_period : no_launch (__init__ o wait_period).
Proof. unfold __init__. auto with launch. Qed.

Lemma no_launch_start self : no_launch (start self).
Proof. unfold start. auto 10 with launch. Qed.

Lemma no_launch__start self : no_launch (_start self).
Proof. unfold _start. auto 10 with launch. Qed.

Lemma no_launch_stop self : no_launch (stop o self).
Proof.
  unfold stop. apply no_launch_bind; [apply no_launch_read|]. intros w.
  destruct (negb _); auto 10 with launch.
Qed.

Lemma no_launch_start_all_threads wfs : no_launch (start_all o false wfs).
Proof.
  unfold start_all. apply no_launch_bind; [apply no_launch_read|]. intros w.
  simpl. pose proof no_launch__start. auto with launch.
Qed.

(** Switching every registered monitor to subprocess mode returns and
    changes the heap only. *)
Lemma set_subprocess_mode_all (l : list nat) w :
  exists h, for_each l set_subprocess_mode w = (set_heap h w, Ret tt).
Proof.
  revert w. induction l as [|self l IH]; intros w; simpl.
  - exists (heap w). by destruct w.
  - unfold bind at 1. unfold set_subprocess_mode at 1. run.
    match goal with |- context [for_each l set_subprocess_mode ?w1] =>
      destruct (IH w1) as [h ->] end.
    by exists h.
Qed.

Lemma start_all_noop w pid wfs :
  _main_process w = Some pid -> start_all o true wfs w = (w, Ret tt).
Proof.
  intros Hmain. unfold start_all. run. rewrite Hmain.
  by rewrite bool_decide_eq_true_2 by eauto.
Qed.

(** The first [start_all(True)] launches a worker and keeps its handle,
    whether or not the call then returns. *)
Lemma start_all_first w wfs :
  _main_process w = None ->
  _main_process (fst (start_all o true wfs w)) = Some (fork_pid o)
  /\ launched (fst (start_all o true wfs w)) = S (launched w).
Proof.
  intros Hmain.
  assert (exists w' out,
            start_all o true wfs w = (w', out)
            /\ _main_process w' = Some (fork_pid o)
            /\ log w' = log w ++ [ProcessStarted (fork_pid o)])
    as (w' & out & -> & Hm & Hlog).
  { unfold start_all. unfold bind at 1, read at 1. simpl.
    rewrite Hmain, bool_decide_eq_false_2 by (by intros [? ?]). simpl.
    unfold bind at 1, modify at 1. unfold bind at 1, modify at 1.
    unfold bind at 1.
    match goal with
    | |- context [for_each (_instances w) set_subprocess_mode ?w1] =>
        destruct (set_subprocess_mode_all (_instances w) w1) as [h ->]
    end.
    run. destruct wfs; simpl; [destruct (worker_comes_up o)|]; simpl; eauto. }
  simpl. split; [done|]. unfold launched. rewrite Hlog.
  rewrite List.filter_app, length_app. simpl. lia.
Qed.

Lemma serve_one_handle r w : one_handle w -> one_handle (fst (serve o r w)).
Proof.
  unfold one_handle. intros Hw.
  assert (Hframe : forall m : prog world unit, no_launch m ->
            launched (fst (m w))
            = match _main_process (fst (m w)) with Some _ => 1 | None => 0 end).
  { intros m Hm. destruct (Hm w) as [-> ->]. exact Hw. }
  destruct r as [wait_period|self|[] wfs|self].
  - apply (Hframe (serve o (New wait_period))). simpl.
    apply no_launch_bind; [apply no_launch_init|].
    intros _. apply no_launch_ret.
  - apply (Hframe (serve o (Start self))), no_launch_start.
  - simpl. destruct (_main_process w) as [pid|] eqn:Hmain.
    + rewrite (start_all_noop w pid wfs Hmain). simpl. by rewrite Hmain.
    + destruct (start_all_first w wfs Hmain) as [-> ->]. lia.
  - apply (Hframe (serve o (StartAll false wfs))), no_launch_start_all_threads.
  - apply (Hframe (serve o (Stop self))), no_launch_stop.
Qed.

Lemma run_one_handle (rs : list request) w :
  one_handle w -> one_handle (fst (for_each rs (serve o) w)).
Proof.
  revert w. induction rs as [|r rs IH]; intros w Hw; [done|].
  simpl. unfold bind. pose proof (serve_one_handle r w Hw) as H1.
  destruct (serve o r w) as [w1 [[]|e| |]]; simpl in *; auto.
Qed.

End LaunchProperties.

(** C3: over any run of calls from a fresh registry at most one worker
    process is ever launched; after a [start_all(True)] there is exactly
    one, and a [start_all(True)] that finds a worker handle launches
    nothing and leaves the whole state as it is. *)
Theorem start_all_subprocess_at_most_once
    (o : BackgroundMonitor.os) (rs : list BackgroundMonitor.request)
    (wait_for_subprocess : bool) :
  let w := fst (for_each rs (BackgroundMonitor.serve o)
                  BackgroundMonitor.fresh_world) in
  BackgroundMonitor.launched w <= 1
  /\ BackgroundMonitor.launched
       (fst (BackgroundMonitor.start_all o true wait_for_subprocess w)) = 1
  /\ (is_Some (BackgroundMonitor._main_process w) ->
      BackgroundMonitor.start_all o true wait_for_subprocess w = (w, Ret tt)).
Proof.
  intros w.
  assert (Hw : BackgroundMonitor.one_handle w).
  { apply run_one_handle. reflexivity. }
  unfold BackgroundMonitor.one_handle in Hw.
  destruct (BackgroundMonitor._main_process w) as [pid|] eqn:Hmain.
  - split; [lia|]. rewrite (start_all_noop o w pid _ Hmain). by split.
  - split; [lia|]. split; [|by intros [? ?]].
    destruct (start_all_first o w wait_for_subprocess Hmain) as [_ ->]. lia.
Qed.

(** Two monitors, the fleet launched in a worker, and [start_all(True)]
    called again, twice, among other calls. *)
Lemma start_all_subprocess_at_most_once_witness :
  let o := BackgroundMonitor.calm_os in
  let w := fst (for_each [BackgroundMonitor.New 5; BackgroundMonitor.New 7;
                          BackgroundMonitor.Start 0; BackgroundMonitor.Start 1;
                          BackgroundMonitor.StartAll true true;
                          BackgroundMonitor.StartAll true false;
                          BackgroundMonitor.Stop 0]
                  (BackgroundMonitor.serve o) BackgroundMonitor.fresh_world) in
  BackgroundMonitor.launched w <= 1
  /\ BackgroundMonitor.launched
       (fst (BackgroundMonitor.start_all o true true w)) = 1
  /\ BackgroundMonitor.start_all o true true w = (w, Ret tt).
Proof.
  intros o w.
  destruct (start_all_subprocess_at_most_once o
              [BackgroundMonitor.New 5; BackgroundMonitor.New 7;
               BackgroundMonitor.Start 0; BackgroundMonitor.Start 1;
               BackgroundMonitor.StartAll true true;
               BackgroundMonitor.StartAll true false;
               BackgroundMonitor.Stop 0] true) as (H1 & H2 & H3).
  split; [exact H1|]. split; [exact H2|].
  apply H3. by eexists.
Defined.

(** ** [BackgroundMonitor]: stopping a monitor *)
Section StopProperties.
Import BackgroundMonitor.
Variable o : os.
Implicit Types (w : world) (self : nat).

(** A monitor that was never started is left alone. *)
Lemma stop_never_started w self :
  _thread (obj w self) = NoThread -> stop o self w = (w, Ret tt).
Proof. intros H. unfold stop. run. by rewrite H. Qed.

(** A started monitor of a live worker process gets its stop event set;
    seen from the launching process its [_thread] is the mark [True], so
    nothing else happens. *)
Lemma stop_live_worker w self :
  _thread (obj w self) = Marked ->
  is_Some (heap w !! self) ->
  is_subprocess_alive o w = (w, Ret (VBool true)) ->
  exists w', stop o self w = (w', Ret tt)
             /\ heap w' = alter signal self (heap w)
             /\ _instances w' = _instances w
             /\ is_set (_event (obj w' self)) = true.
Proof.
  intros Hthread [m Hm] Halive. unfold stop. unfold bind at 1, read at 1.
  rewrite Hthread. simpl. unfold bind at 1. rewrite Halive. simpl.
  run. unfold obj in *. simpl.
  rewrite (lookup_total_correct _ _ _ Hm) in Hthread.
  rewrite lookup_total_alter_eq, Hm. simpl. rewrite Hthread. simpl.
  eexists. split; [done|]. simpl.
  by rewrite lookup_total_alter_eq, Hm.
Qed.

(** With no worker process the stop event is not touched, whatever the
    state of the monitor's own thread; a monitor that holds a [Thread]
    leaves the instance list and drops the handle. *)
Lemma stop_without_worker w self tid :
  _main_process w = None ->
  _thread (obj w self) = ThreadObj tid ->
  is_Some (heap w !! self) ->
  stop o self w
  = (set_heap (alter (with_thread NoThread) self (heap w))
       (set_instances (remove_first self (_instances w)) w), Ret tt).
Proof.
  intros Hmain Hthread [m Hm]. unfold stop. unfold bind at 1, read at 1.
  rewrite Hthread. simpl. unfold bind at 1.
  rewrite (is_subprocess_alive_never_launched o w Hmain). simpl.
  run. by rewrite Hthread.
Qed.

Lemma _daemon_goes_on w self fuel :
  (forall k, seen_set o w self k = false) ->
  snd (_daemon o fuel self w) = OutOfFuel.
Proof.
  intros Hnever.
  set (w1 := emit (StartEvSet self)
               (set_heap (alter (fun m => with_start_ev (set (_start_ev m)) m)
                            self (heap w)) w)).
  assert (Hw1 : forall k, seen_set o w1 self k = false).
  { intros k. rewrite <- (Hnever k). unfold seen_set, obj, w1. simpl.
    rewrite lookup_total_alter_eq, lookup_total_alt.
    by destruct (heap w !! self). }
  change (_daemon o fuel self w)
    with ((daemon o fuel self ;; post_execution self) w1).
  unfold bind. pose proof (daemon_goes_on o fuel w1 self Hw1) as Hd.
  destruct (daemon o fuel self w1) as [w2 out]. simpl in Hd. by subst out.
Qed.

End StopProperties.

(** C1: [stop] does nothing to a monitor that was never started, and for
    a monitor that holds a [Thread] it removes the monitor from the
    instance list and drops the handle.  The stop event, however, is set
    only when the shared worker process is alive: a monitor running as a
    thread of the host, its thread alive, is stopped without its stop
    event being set, and its loop is never told to end. *)
Theorem stop_leaves_live_thread_unsignalled :
  let o := BackgroundMonitor.calm_os in
  let w := fst (for_each [BackgroundMonitor.New 5; BackgroundMonitor.Start 0;
                          BackgroundMonitor.StartAll false false]
                  (BackgroundMonitor.serve o) BackgroundMonitor.fresh_world) in
  BackgroundMonitor.is_alive o 0 w = (w, Ret (VBool true))
  /\ exists w',
       BackgroundMonitor.stop o 0 w = (w', Ret tt)
       /\ BackgroundMonitor.is_set
            (BackgroundMonitor._event (BackgroundMonitor.obj w' 0)) = false
       /\ BackgroundMonitor._thread (BackgroundMonitor.obj w' 0)
          = BackgroundMonitor.NoThread
       /\ BackgroundMonitor._instances w' = []
       /\ forall fuel,
            snd (BackgroundMonitor._daemon o fuel 0 w') = OutOfFuel.
Proof.
  intros o w. split; [reflexivity|].
  eexists. split; [reflexivity|].
  split; [reflexivity|]. split; [reflexivity|]. split; [reflexivity|].
  intros fuel. apply _daemon_goes_on. intros k. reflexivity.
Qed.

(* ===================================================================== *)
(** * Part III: further properties of the code                           *)
(* ===================================================================== *)

(** ** Seeding: which failures reach the caller *)

(** X1: of all the library calls of [make_deterministic] only
    [random.seed] and, when numpy is loaded, [np.random.seed] can make it
    raise, and then with their exception; whatever cudnn, cv2, torch and
    tensorflow raise is swallowed.  [random.seed] is called in every
    run. *)
Theorem make_deterministic_failures
    (env : Seed.modules) (seed : Z) (cudnn_deterministic : bool) :
  let s := Z.land seed 0xFFFFFFFF in
  snd (Seed.make_deterministic env seed cudnn_deterministic [])
  = match Seed.fails env (Seed.random_seed s) with
    | Some e => Raise e
    | None =>
        if Seed.np env then
          match Seed.fails env (Seed.np_random_seed s) with
          | Some e => Raise e
          | None => Ret tt
          end
        else Ret tt
    end
  /\ Seed.random_seed s
     ∈ fst (Seed.make_deterministic env seed cudnn_deterministic []).
Proof.
  intros s. unfold Seed.make_deterministic. fold s.
  set (cudnn := when cudnn_deterministic _).
  set (rest := (when (Seed.cv2 env) _ ;; _)).
  assert (Hcudnn : Seed.returns cudnn).
  { apply returns_when, returns_try_pass.
    destruct (Seed.torch env); [apply ends_call | apply ends_raise]. }
  assert (Hrest : Seed.returns rest).
  { repeat first
      [ apply returns_bind | apply returns_when | apply returns_try_pass
      | apply ends_bind | apply ends_call ]. }
  split.
  - rewrite returns_then by done.
    unfold bind at 1, Seed.call at 1. simpl.
    destruct (Seed.fails env (Seed.random_seed s)) as [e|]; [done|].
    destruct (Seed.np env); simpl.
    + unfold bind at 1, Seed.call at 1. simpl.
      destruct (Seed.fails env (Seed.np_random_seed s)) as [e|]; [done|].
      apply Hrest.
    + apply Hrest.
  - assert (Hkeep : Seed.remembers (when (Seed.np env)
                                      (Seed.call env (Seed.np_random_seed s)) ;;
                                    rest)).
    { unfold rest.
      repeat first
        [ apply remembers_bind | apply remembers_when | apply remembers_try_pass
        | apply remembers_call ]. }
    unfold bind at 1. destruct (cudnn []) as [log1 out1] eqn:Hc.
    pose proof (Hcudnn []) as Hret. rewrite Hc in Hret. simpl in Hret.
    subst out1. unfold bind at 1, Seed.call at 1. simpl.
    destruct (Seed.fails env (Seed.random_seed s)) as [e|]; simpl.
    + apply elem_of_app. right. by left.
    + apply Hkeep. apply elem_of_app. right. by left.
Qed.

(** ** [SafeQueue]: order, asynchrony, construction *)



(** X3: [put] only hands the item to the pool's thread: right after it
    the pipe is as it was, so [empty()] answers what it answered before.
    Once the thread has run the jobs it had and this one, [empty()]
    answers [False] when the item could be pickled; when it could not,
    the item is lost, and [empty()] answers [True] unless something else
    was on its way to the queue. *)
Theorem put_is_asynchronous {item : Type} (picklable : item -> bool)
    (w : SafeQueue.world item) (pid self : nat) (obj : item) :
  SafeQueue.ready w ->
  exists w1,
    SafeQueue.put pid self obj w = (w1, Ret tt)
    /\ snd (SafeQueue.empty self w1) = snd (SafeQueue.empty self w)
    /\ forall steps,
         length (SafeQueue.pending pid w) < steps ->
         snd (SafeQueue.empty self (SafeQueue.worker_steps picklable pid steps w1))
         = Ret (negb (picklable obj)
                && bool_decide (SafeQueue.on_the_way picklable pid self w = [])).
Proof.
  intros Hready.
  destruct (put_on_the_way picklable w pid self obj Hready)
    as (w1 & Hput & _ & Hpipes & Hpend & Hway).
  exists w1. split; [done|]. split.
  - unfold SafeQueue.empty. SafeQueue.run. by rewrite Hpipes.
  - intros steps Hsteps.
    pose proof (worker_steps_on_the_way picklable w1 pid self steps) as Hsame.
    unfold SafeQueue.on_the_way in Hsame at 1.
    rewrite worker_steps_drain in Hsame.
    2:{ rewrite Hpend, length_app. simpl. lia. }
    simpl in Hsame. rewrite app_nil_r in Hsame.
    unfold SafeQueue.empty. SafeQueue.run.
    rewrite Hsame, Hway, (bool_decide_eq_true_2 (self = self)) by done.
    destruct (picklable obj); simpl.
    + rewrite bool_decide_eq_false_2; [done|].
      intros Hnil. by apply app_eq_nil in Hnil as [_ ?].
    + by rewrite app_nil_r.
Qed.

(** A fresh queue: empty before and right after the [put]; after one job
    of the pool's thread not empty for a number, still empty for a
    lambda. *)
Lemma put_is_asynchronous_witness :
  let w := fst (SafeQueue.__init__ 7 SafeQueue.fresh_world) in
  (exists w1,
     SafeQueue.put 7 0 (SafeQueue.Number 42) w = (w1, Ret tt)
     /\ snd (SafeQueue.empty 0 w1) = Ret true
     /\ snd (SafeQueue.empty 0
               (SafeQueue.worker_steps SafeQueue.sample_picklable 7 1 w1))
        = Ret false)
  /\ (exists w1,
        SafeQueue.put 7 0 SafeQueue.Lambda w = (w1, Ret tt)
        /\ snd (SafeQueue.empty 0 w1) = Ret true
        /\ snd (SafeQueue.empty 0
                  (SafeQueue.worker_steps SafeQueue.sample_picklable 7 1 w1))
           = Ret true).
Proof.
  intros w. split.
  - destruct (put_is_asynchronous SafeQueue.sample_picklable w 7 0
                (SafeQueue.Number 42)) as (w1 & Hput & Hbefore & Hafter).
    { split; [reflexivity | by eexists]. }
    exists w1. split; [exact Hput|]. split.
    + rewrite Hbefore. reflexivity.
    + rewrite Hafter by (simpl; lia). reflexivity.
  - destruct (put_is_asynchronous SafeQueue.sample_picklable w 7 0
                SafeQueue.Lambda) as (w1 & Hput & Hbefore & Hafter).
    { split; [reflexivity | by eexists]. }
    exists w1. split; [exact Hput|]. split.
    + rewrite Hbefore. reflexivity.
    + rewrite Hafter by (simpl; lia). reflexivity.
Defined.

(** X4: constructing a [SafeQueue] adds one new, empty pipe under a name
    no queue had, and leaves the class attributes ready.  Class
    attributes that were ready are not touched, whichever process calls:
    the constructor never rebinds an existing pool (only [put] does).
    Without a pool, one is made under the lock and bound to the caller. *)
Theorem init_adds_a_fresh_queue {item : Type} (w : SafeQueue.world item)
    (pid : nat) :
  SafeQueue.__lock w <> Some true ->
  exists w' self,
    SafeQueue.__init__ pid w = (w', Ret self)
    /\ SafeQueue.pipes w !! self = None
    /\ SafeQueue.pipes w' = <[self := []]> (SafeQueue.pipes w)
    /\ SafeQueue.ready w'
    /\ (SafeQueue.ready w ->
        SafeQueue.__lock w' = SafeQueue.__lock w
        /\ SafeQueue.__thread_pool w' = SafeQueue.__thread_pool w
        /\ SafeQueue.__thread_pool_pid w' = SafeQueue.__thread_pool_pid w
        /\ SafeQueue.log w' = SafeQueue.log w)
    /\ (SafeQueue.__thread_pool w = None ->
        SafeQueue.__thread_pool w' = Some []
        /\ SafeQueue.__thread_pool_pid w' = Some pid
        /\ SafeQueue.log w'
           = SafeQueue.log w ++ [SafeQueue.LockAcquired;
                                 SafeQueue.PoolCreated pid;
                                 SafeQueue.LockReleased]).
Proof.
  intros Hfree.
  assert (Hfresh : SafeQueue.pipes w !! fresh (dom (SafeQueue.pipes w)) = None).
  { apply not_elem_of_dom, is_fresh. }
  unfold SafeQueue.__init__, SafeQueue.ready. SafeQueue.run.
  destruct (SafeQueue.__lock w) as [[]|] eqn:Hlock; [done| |]; simpl;
    destruct (SafeQueue.__thread_pool w) as [jobs|] eqn:Hpool; simpl;
    rewrite ?Hlock, ?Hpool; simpl; rewrite ?Hlock, ?Hpool; simpl;
    eexists _, _; (split; [reflexivity|]); simpl;
    (split; [exact Hfresh|]); (split; [reflexivity|]).
  - split; [by eauto|]. split; [done|]. done.
  - split; [by eauto|]. split; [by intros [_ [? ?]]|].
    intros _. by rewrite <- !app_assoc.
  - split; [by eauto|]. split; [by intros [? _]|]. done.
  - split; [by eauto|]. split; [by intros [? _]|].
    intros _. by rewrite <- !app_assoc.
Qed.

(** A second queue made in a forked copy (process 8) of the process that
    made the first (process 7). *)
Lemma init_adds_a_fresh_queue_witness :
  let w := fst (SafeQueue.__init__ (item := nat) 7 SafeQueue.fresh_world) in
  exists w' self,
    SafeQueue.__init__ 8 w = (w', Ret self)
    /\ SafeQueue.pipes w !! self = None
    /\ SafeQueue.pipes w' = <[self := []]> (SafeQueue.pipes w)
    /\ SafeQueue.ready w'
    /\ SafeQueue.__thread_pool_pid w' = Some 7
    /\ SafeQueue.log w' = SafeQueue.log w.
Proof.
  intros w.
  destruct (init_adds_a_fresh_queue w 8) as (w' & self & H1 & H2 & H3 & H4 & H5 & _).
  { discriminate. }
  exists w', self. repeat (split; [assumption|]).
  destruct H5 as (_ & _ & Hpid & Hlog).
  { split; [reflexivity | by eexists]. }
  split; [rewrite Hpid; reflexivity | exact Hlog].
Defined.

(** ** [SingletonLock]: the registry, release without acquire, scopes *)
Section SingletonLockMore.
Import SingletonLock.
Implicit Types (w : world) (self l : nat).

Lemma for_each_create_all (selves : list nat) w :
  wf w -> Forall (fun self => self < length (_instances w)) selves ->
  exists w', for_each selves create w = (w', Ret tt)
             /\ extends w w'
             /\ forall self, self ∈ selves -> is_Some (_lock w' self).
Proof.
  revert w. induction selves as [|self selves IH]; intros w Hwf Hall.
  - exists w. split; [done|]. split; [by apply extends_refl|].
    intros self Hin. by apply elem_of_nil in Hin.
  - inversion Hall as [|? ? Hself Hrest]; subst.
    destruct (create_extends w self Hwf Hself) as (w1 & Hc & Hext & [l Hl]).
    destruct (IH w1) as (w2 & Hf & Hext2 & Hsome).
    { apply Hext. }
    { destruct Hext as (_ & -> & _). done. }
    exists w2. split; [simpl; by rewrite (bind_returns _ _ _ _ _ Hc)|].
    split; [by eapply extends_trans|].
    intros self' Hin. apply elem_of_cons in Hin as [->|Hin]; [|by apply Hsome].
    destruct Hext2 as (_ & _ & _ & Hkept). rewrite (Hkept self l Hl). eauto.
Qed.

Lemma for_each_create_noop (selves : list nat) w :
  (forall self, self ∈ selves -> is_Some (_lock w self)) ->
  for_each selves create w = (w, Ret tt).
Proof.
  induction selves as [|self selves IH]; intros Hsome; [done|].
  destruct (Hsome self) as [l Hl]; [by left|].
  simpl. rewrite (bind_returns _ _ _ _ _ (create_existing w self l Hl)).
  apply IH. intros self' Hin. apply Hsome. by right.
Qed.

Lemma held_free_lookup w self l :
  wf w -> _lock w self = Some l -> held w self = false ->
  os_locks w !! l = Some false.
Proof.
  intros Hwf Hl Hfree. destruct (Hwf self) as [_ Hb]. specialize (Hb l Hl).
  destruct (lookup_lt_is_Some_2 _ _ Hb) as [b Hb'].
  unfold held in Hfree. rewrite Hl, Hb' in Hfree. simpl in Hfree. by subst b.
Qed.

(** Entering the scope of a free lock acquires it, creating it first if
    need be. *)
Lemma enter_acquires w self :
  wf w -> self < length (_instances w) -> held w self = false ->
  exists w1 l,
    __enter__ self w = (w1, Ret tt)
    /\ _lock w1 self = Some l /\ os_locks w1 !! l = Some true.
Proof.
  intros Hwf Hself Hfree.
  destruct (create_extends w self Hwf Hself) as (w0 & Hc & Hext & [l Hl]).
  assert (Hos : os_locks w0 !! l = Some false).
  { apply (held_free_lookup w0 self l); [apply Hext | done |].
    destruct Hext as (_ & _ & Hheld & _). by rewrite Hheld. }
  eexists _, l. split.
  - unfold __enter__, acquire.
    unfold bind at 1. unfold bind at 1. rewrite Hc.
    run. by rewrite Hl, Hos.
  - simpl. split; [done|].
    apply list_lookup_insert_eq. by eapply lookup_lt_Some.
Qed.

End SingletonLockMore.

(** X5: [instantiate] gives every instance of the registry a lock: it
    returns, afterwards each instance has one, a lock that existed is
    kept, no lock changes hands, and exactly one allocation is on record
    for each instance.  Calling it again changes nothing. *)
Theorem instantiate_creates_every_lock (w : SingletonLock.world) :
  SingletonLock.wf w ->
  exists w',
    SingletonLock.instantiate w = (w', Ret tt)
    /\ (forall self, self < length (SingletonLock._instances w) ->
          is_Some (SingletonLock._lock w' self)
          /\ SingletonLock.allocations w' self = 1)
    /\ (forall self l, SingletonLock._lock w self = Some l ->
          SingletonLock._lock w' self = Some l)
    /\ (forall self, SingletonLock.held w' self = SingletonLock.held w self)
    /\ SingletonLock.instantiate w' = (w', Ret tt).
Proof.
  intros Hwf. unfold SingletonLock.instantiate at 1. SingletonLock.run.
  destruct (for_each_create_all
              (seq 0 (length (SingletonLock._instances w))) w Hwf)
    as (w' & Hrun & Hext & Hsome).
  { apply Forall_forall. intros i Hi. apply elem_of_seq in Hi. lia. }
  destruct Hext as (Hwf' & Hlen & Hheld & Hkept).
  exists w'. split; [done|]. split; [|split; [done|split; [done|]]].
  - intros self Hself.
    assert (Hs : is_Some (SingletonLock._lock w' self)).
    { apply Hsome, elem_of_seq. lia. }
    split; [done|]. destruct (Hwf' self) as [-> _]. by destruct Hs as [l ->].
  - unfold SingletonLock.instantiate. SingletonLock.run. rewrite Hlen.
    apply for_each_create_noop. intros self Hin. by apply Hsome.
Qed.

(** Three instances, the second with a lock already. *)
Lemma instantiate_creates_every_lock_witness :
  let w := fst ((SingletonLock.__init__ ;; SingletonLock.__init__ ;;
                 SingletonLock.__init__ ;; SingletonLock.create 1)
                  SingletonLock.fresh_world) in
  exists w',
    SingletonLock.instantiate w = (w', Ret tt)
    /\ (forall self, self < 3 ->
          is_Some (SingletonLock._lock w' self)
          /\ SingletonLock.allocations w' self = 1)
    /\ (forall self l, SingletonLock._lock w self = Some l ->
          SingletonLock._lock w' self = Some l)
    /\ (forall self, SingletonLock.held w' self = SingletonLock.held w self)
    /\ SingletonLock.instantiate w' = (w', Ret tt).
Proof.
  intros w.
  apply (instantiate_creates_every_lock w).
  set (w3 := fst ((SingletonLock.__init__ ;; SingletonLock.__init__ ;;
                   SingletonLock.__init__) SingletonLock.fresh_world)).
  assert (Hw3 : SingletonLock.wf w3).
  { apply (init_wf (fst ((SingletonLock.__init__ ;; SingletonLock.__init__)
                           SingletonLock.fresh_world))).
    apply (init_wf (fst (SingletonLock.__init__ SingletonLock.fresh_world))).
    apply init_wf, wf_fresh. }
  destruct (create_extends w3 1 Hw3) as (w4 & Hc & Hext & _); [simpl; lia|].
  change w with (fst (SingletonLock.create 1 w3)). rewrite Hc. apply Hext.
Defined.

(** X6: [release] on a lock nobody holds returns without any effect only
    while the lock of the instance was never created; once it exists (by
    [create], [instantiate] or an earlier [acquire]) the call raises
    [ValueError], again without any effect. *)
Theorem release_without_acquire (w : SingletonLock.world) (self : nat) :
  SingletonLock.wf w ->
  SingletonLock.held w self = false ->
  SingletonLock.release self w
  = (w, match SingletonLock._lock w self with
        | None => Ret tt
        | Some _ => Raise ValueError
        end).
Proof.
  intros Hwf Hfree.
  destruct (SingletonLock._lock w self) as [l|] eqn:Hl.
  - pose proof (held_free_lookup w self l Hwf Hl Hfree) as Hos.
    unfold SingletonLock.release. SingletonLock.run. by rewrite Hl, Hos.
  - by apply release_never_created.
Qed.

(** Two instances: the first never created, the second created through
    the constructor's registry and then released. *)
Lemma release_without_acquire_witness :
  let w := fst ((SingletonLock.__init__ ;; SingletonLock.__init__ ;;
                 SingletonLock.create 1) SingletonLock.fresh_world) in
  SingletonLock.release 0 w = (w, Ret tt)
  /\ SingletonLock.release 1 w = (w, Raise ValueError).
Proof.
  intros w.
  assert (Hwf : SingletonLock.wf w).
  { set (w2 := fst ((SingletonLock.__init__ ;; SingletonLock.__init__)
                      SingletonLock.fresh_world)).
    assert (Hw2 : SingletonLock.wf w2).
    { apply (init_wf (fst (SingletonLock.__init__ SingletonLock.fresh_world))).
      apply init_wf, wf_fresh. }
    destruct (create_extends w2 1 Hw2) as (w3 & Hc & Hext & _); [simpl; lia|].
    change w with (fst (SingletonLock.create 1 w2)). rewrite Hc. apply Hext. }
  split.
  - apply (release_without_acquire w 0 Hwf). reflexivity.
  - apply (release_without_acquire w 1 Hwf). reflexivity.
Defined.

(** X7: [with lock: body] on a free lock acquires the lock before the
    body runs and has released it when the statement ends, whether the
    body returned or raised (the body itself leaving the lock alone);
    when the body returns, so does the statement. *)
Theorem scoped_acquires_and_releases (w w2 : SingletonLock.world)
    (self : nat) (body : prog SingletonLock.world unit) (out : outcome unit) :
  SingletonLock.wf w ->
  self < length (SingletonLock._instances w) ->
  SingletonLock.held w self = false ->
  body (fst (SingletonLock.__enter__ self w)) = (w2, out) ->
  (out = Ret tt \/ exists e, out = Raise e) ->
  SingletonLock._lock w2 self
    = SingletonLock._lock (fst (SingletonLock.__enter__ self w)) self ->
  SingletonLock.held w2 self = true ->
  SingletonLock.held (fst (SingletonLock.__enter__ self w)) self = true
  /\ SingletonLock.held (fst (SingletonLock.scoped self body w)) self = false
  /\ SingletonLock.log (fst (SingletonLock.scoped self body w))
     = SingletonLock.log w2 ++ [SingletonLock.Released self]
  /\ (out = Ret tt -> snd (SingletonLock.scoped self body w) = Ret tt).
Proof.
  intros Hwf Hself Hfree Hbody Hout Hsame Hheld.
  destruct (enter_acquires w self Hwf Hself Hfree) as (w1 & l & Henter & Hl & Hos).
  rewrite Henter in *. simpl in *.
  assert (Hl2 : SingletonLock._lock w2 self = Some l) by congruence.
  assert (Hos2 : SingletonLock.os_locks w2 !! l = Some true).
  { unfold SingletonLock.held in Hheld. rewrite Hl2 in Hheld.
    destruct (SingletonLock.os_locks w2 !! l) as [[]|] eqn:Hb; done. }
  split.
  { unfold SingletonLock.held. by rewrite Hl, Hos. }
  assert (Hfinal : fst (SingletonLock.scoped self body w)
                   = {| SingletonLock._instances := SingletonLock._instances w2;
                        SingletonLock.os_locks :=
                          <[l := false]> (SingletonLock.os_locks w2);
                        SingletonLock.log :=
                          SingletonLock.log w2 ++ [SingletonLock.Released self] |}).
  { destruct Hout as [->|[e ->]].
    - by rewrite (scoped_on_return w w1 w2 self l body Henter Hbody Hl2 Hos2).
    - by rewrite (scoped_on_error w w1 w2 self l e body Henter Hbody Hl2 Hos2). }
  rewrite Hfinal. split; [|split; [done|]].
  - unfold SingletonLock.held, SingletonLock._lock in *. simpl. rewrite Hl2.
    rewrite list_lookup_insert_eq; [done|]. by eapply lookup_lt_Some.
  - intros ->.
    by rewrite (scoped_on_return w w1 w2 self l body Henter Hbody Hl2 Hos2).
Qed.

(** A body that returns, under the lock of a fresh instance. *)
Lemma scoped_acquires_and_releases_witness :
  let w := fst (SingletonLock.__init__ SingletonLock.fresh_world) in
  SingletonLock.held (fst (SingletonLock.__enter__ 0 w)) 0 = true
  /\ SingletonLock.held (fst (SingletonLock.scoped 0 (ret tt) w)) 0 = false
  /\ SingletonLock.log (fst (SingletonLock.scoped 0 (ret tt) w))
     = [SingletonLock.LockAllocated 0; SingletonLock.Acquired 0;
        SingletonLock.Released 0]
  /\ snd (SingletonLock.scoped 0 (ret tt) w) = Ret tt.
Proof.
  intros w.
  destruct (scoped_acquires_and_releases w
              (fst (SingletonLock.__enter__ 0 w)) 0 (ret tt) (Ret tt))
    as (H1 & H2 & H3 & H4).
  - apply init_wf, wf_fresh.
  - simpl. lia.
  - reflexivity.
  - reflexivity.
  - by left.
  - reflexivity.
  - reflexivity.
  - split; [exact H1|]. split; [exact H2|]. split; [exact H3 | by apply H4].
Defined.

Section SingletonLockIndependence.
Import SingletonLock.
Implicit Types (w : world) (self other l : nat).

Lemma create_distinct w self :
  wf w -> distinct_locks w -> self < length (_instances w) ->
  exists w' l,
    create self w = (w', Ret tt)
    /\ extends w w' /\ distinct_locks w' /\ _lock w' self = Some l.
Proof.
  intros Hwf Hdist Hself.
  destruct (create_extends w self Hwf Hself) as (w' & Hc & Hext & [l Hl]).
  exists w', l. split; [done|]. split; [done|]. split; [|done].
  destruct (_lock w self) as [l0|] eqn:Hl0.
  - rewrite (create_existing w self l0 Hl0) in Hc. by injection Hc as <-.
  - rewrite (create_missing w self Hl0) in Hc. injection Hc as <-.
    assert (Hlk : forall i l',
              _lock {| _instances := <[self := Some (length (os_locks w))]> (_instances w);
                       os_locks := os_locks w ++ [false];
                       log := log w ++ [LockAllocated self] |} i = Some l' ->
              (i = self /\ l' = length (os_locks w))
              \/ (i <> self /\ _lock w i = Some l')).
    { intros i l'. unfold _lock. simpl. destruct (decide (i = self)) as [->|Hne].
      - rewrite list_lookup_insert_eq by done. simpl. intros [= <-]. by left.
      - rewrite list_lookup_insert_ne by done. by right. }
    intros i j l' Hi Hj.
    apply Hlk in Hi as [[-> ->]|[Hi1 Hi2]]; apply Hlk in Hj as [[-> Hj]|[Hj1 Hj2]];
      try done.
    + destruct (Hwf j) as [_ Hb]. specialize (Hb _ Hj2). lia.
    + destruct (Hwf i) as [_ Hb]. specialize (Hb _ Hi2). lia.
    + by eapply Hdist.
Qed.

(** Taking the free lock of one instance: the call returns [True], and
    the lock of no other instance changes hands. *)
Lemma acquire_one w self :
  wf w -> distinct_locks w -> self < length (_instances w) ->
  held w self = false ->
  exists w' l,
    acquire self w = (w', Ret true)
    /\ wf w' /\ distinct_locks w'
    /\ length (_instances w') = length (_instances w)
    /\ _lock w' self = Some l /\ os_locks w' !! l = Some true
    /\ forall other, other <> self -> held w' other = held w other.
Proof.
  intros Hwf Hdist Hself Hfree.
  destruct (create_distinct w self Hwf Hdist Hself)
    as (w0 & l & Hc & (Hwf0 & Hlen & Hheld & _) & Hdist0 & Hl).
  assert (Hos : os_locks w0 !! l = Some false).
  { apply (held_free_lookup w0 self l); [done | done |]. by rewrite Hheld. }
  eexists _, l. split.
  { unfold acquire. unfold bind at 1. rewrite Hc. run. by rewrite Hl, Hos. }
  simpl. split; [|split; [done|split; [done|split; [done|split]]]].
  - intros i. destruct (Hwf0 i) as [Hal Hb]. split.
    + change (allocations _ i) with (allocations (emit (Acquired self) w0) i).
      rewrite allocations_emit, bool_decide_eq_false_2 by done.
      rewrite Nat.add_0_r. exact Hal.
    + simpl. rewrite length_insert. exact Hb.
  - apply list_lookup_insert_eq. by eapply lookup_lt_Some.
  - intros other Hne. rewrite <- Hheld. unfold held, _lock in *. simpl.
    destruct (mjoin (_instances w0 !! other)) as [l'|] eqn:Hl'; [|done].
    rewrite list_lookup_insert_ne; [done|].
    intros <-. apply Hne. symmetry. by eapply (Hdist0 self other l).
Qed.

End SingletonLockIndependence.

(** X8: the locks of two instances are independent, and the lock of one
    instance is not re-entrant: with both free, [acquire] on the one and
    then on the other returns [True] both times and both are held; a
    second [acquire] on the same instance never returns. *)
Theorem locks_are_independent (w : SingletonLock.world) (self other : nat) :
  SingletonLock.wf w ->
  SingletonLock.distinct_locks w ->
  self < length (SingletonLock._instances w) ->
  other < length (SingletonLock._instances w) ->
  self <> other ->
  SingletonLock.held w self = false ->
  SingletonLock.held w other = false ->
  (exists w',
     (SingletonLock.acquire self ;; SingletonLock.acquire other) w
       = (w', Ret true)
     /\ SingletonLock.held w' self = true
     /\ SingletonLock.held w' other = true)
  /\ snd ((SingletonLock.acquire self ;; SingletonLock.acquire self) w) = Block.
Proof.
  intros Hwf Hdist Hself Hother Hne Hfree Hfree'.
  destruct (acquire_one w self Hwf Hdist Hself Hfree)
    as (w1 & l & Hacq & Hwf1 & Hdist1 & Hlen1 & Hl & Hos & Hframe).
  split.
  - destruct (acquire_one w1 other Hwf1 Hdist1) as
      (w2 & l' & Hacq' & _ & _ & _ & Hl' & Hos' & Hframe').
    { by rewrite Hlen1. }
    { rewrite Hframe by done. exact Hfree'. }
    exists w2. split; [by rewrite (bind_returns _ _ _ _ _ Hacq)|]. split.
    + rewrite Hframe' by done. unfold SingletonLock.held. by rewrite Hl, Hos.
    + unfold SingletonLock.held. by rewrite Hl', Hos'.
  - rewrite (bind_returns _ _ _ _ _ Hacq).
    unfold SingletonLock.acquire. unfold bind at 1.
    rewrite (create_existing w1 self l Hl). SingletonLock.run.
    by rewrite Hl, Hos.
Qed.

(** Two fresh instances. *)
Lemma locks_are_independent_witness :
  let w := fst ((SingletonLock.__init__ ;; SingletonLock.__init__)
                  SingletonLock.fresh_world) in
  (exists w',
     (SingletonLock.acquire 0 ;; SingletonLock.acquire 1) w = (w', Ret true)
     /\ SingletonLock.held w' 0 = true
     /\ SingletonLock.held w' 1 = true)
  /\ snd ((SingletonLock.acquire 0 ;; SingletonLock.acquire 0) w) = Block.
Proof.
  intros w.
  apply (locks_are_independent w 0 1).
  - apply (init_wf (fst (SingletonLock.__init__ SingletonLock.fresh_world))).
    apply init_wf, wf_fresh.
  - intros i j l Hi. by destruct i as [|[|i]].
  - simpl. lia.
  - simpl. lia.
  - lia.
  - reflexivity.
  - reflexivity.
Defined.

(** ** [BackgroundMonitor]: registering and launching *)
Section MonitorLaunch.
Import BackgroundMonitor.
Variable o : os.
Implicit Types (w : world) (self d : nat).

Lemma same_registry_refl w : same_registry w w.
Proof. by repeat split. Qed.

Lemma same_registry_trans w1 w2 w3 :
  same_registry w1 w2 -> same_registry w2 w3 -> same_registry w1 w3.
Proof.
  intros (? & ? & ? & ?) (? & ? & ? & ?). repeat split; congruence.
Qed.

Lemma _start_effect w self :
  _start self w
  = ({| _main_process := _main_process w; _parent_pid := _parent_pid w;
        _sub_process_started := _sub_process_started w;
        _instances := _instances w;
        heap := alter (with_thread (ThreadObj (threads w))) self (heap w);
        threads := S (threads w); waits := waits w;
        log := log w ++ [ThreadStarted (threads w) self] |}, Ret tt).
Proof. reflexivity. Qed.

(** Starting a thread for each monitor of a list without repetitions:
    the [k]-th monitor gets the [k]-th new thread. *)
Lemma start_threads (l : list nat) : forall w,
  NoDup l ->
  exists w',
    for_each l _start w = (w', Ret tt)
    /\ same_registry w w'
    /\ threads w' = threads w + length l
    /\ waits w' = waits w
    /\ log w' = log w ++ imap (fun k d => ThreadStarted (threads w + k) d) l
    /\ (forall k d, l !! k = Some d ->
          heap w' !! d = with_thread (ThreadObj (threads w + k)) <$> heap w !! d)
    /\ (forall d, d ∉ l -> heap w' !! d = heap w !! d).
Proof.
  induction l as [|d l IH]; intros w Hnodup.
  - exists w. simpl. rewrite Nat.add_0_r, app_nil_r.
    split; [done|]. split; [apply same_registry_refl|]. by repeat split.
  - apply NoDup_cons in Hnodup as [Hd Hnodup].
    destruct (IH (fst (_start d w)) Hnodup)
      as (w' & Hrun & Hreg & Hthreads & Hwaits & Hlog & Hin & Hout).
    exists w'. split.
    { simpl. by rewrite (bind_returns _ _ _ _ _ (_start_effect w d)). }
    simpl in *. split; [exact Hreg|]. split; [lia|]. split; [done|]. split.
    { rewrite Hlog, <- app_assoc. simpl. rewrite Nat.add_0_r. do 2 f_equal.
      apply imap_ext. intros k d' _. simpl. f_equal. lia. }
    split.
    + intros [|k] d' Hk; simpl in Hk.
      * injection Hk as <-. rewrite (Hout d Hd), lookup_alter_eq.
        by rewrite Nat.add_0_r.
      * rewrite (Hin k d' Hk).
        assert (d' <> d) as Hne.
        { intros ->. apply Hd. by eapply list_elem_of_lookup_2. }
        rewrite lookup_alter_ne by done. do 3 f_equal. lia.
    + intros d' Hnot. apply not_elem_of_cons in Hnot as [Hne Hnot].
      rewrite (Hout d' Hnot). by rewrite lookup_alter_ne.
Qed.

End MonitorLaunch.

(** X9: [start] marks a monitor as started, clears its stop and done
    events and registers it, once: a monitor already in the instance
    list is not added again.  It leaves [_start_ev] as it is, keeps a
    [Thread] the monitor already holds, and touches no other monitor. *)
Theorem start_registers_once (w : BackgroundMonitor.world) (self : nat) :
  is_Some (BackgroundMonitor.heap w !! self) ->
  exists w',
    BackgroundMonitor.start self w = (w', Ret tt)
    /\ BackgroundMonitor._instances w'
       = (if bool_decide (self ∈ BackgroundMonitor._instances w)
          then BackgroundMonitor._instances w
          else BackgroundMonitor._instances w ++ [self])
    /\ (NoDup (BackgroundMonitor._instances w) ->
        NoDup (BackgroundMonitor._instances w'))
    /\ BackgroundMonitor.is_set
         (BackgroundMonitor._event (BackgroundMonitor.obj w' self)) = false
    /\ BackgroundMonitor.is_set
         (BackgroundMonitor._done_ev (BackgroundMonitor.obj w' self)) = false
    /\ BackgroundMonitor._start_ev (BackgroundMonitor.obj w' self)
       = BackgroundMonitor._start_ev (BackgroundMonitor.obj w self)
    /\ BackgroundMonitor._thread (BackgroundMonitor.obj w' self)
       = match BackgroundMonitor._thread (BackgroundMonitor.obj w self) with
         | BackgroundMonitor.NoThread => BackgroundMonitor.Marked
         | t => t
         end
    /\ (forall other, other <> self ->
          BackgroundMonitor.heap w' !! other = BackgroundMonitor.heap w !! other).
Proof.
  intros [m Hm]. unfold BackgroundMonitor.start. BackgroundMonitor.run.
  unfold BackgroundMonitor.obj.
  rewrite (lookup_total_correct _ _ _ Hm).
  assert (Hnd : forall l : list nat, self ∉ l -> NoDup l -> NoDup (l ++ [self])).
  { intros l Hnot Hl. apply NoDup_app. split; [done|]. split.
    - by intros x Hx ->%list_elem_of_singleton.
    - apply NoDup_singleton. }
  destruct (BackgroundMonitor._thread m) eqn:Ht; simpl;
    destruct (bool_decide (self ∈ BackgroundMonitor._instances w)) eqn:Hin;
    simpl; (eexists; split; [reflexivity|]); simpl;
    rewrite ?lookup_total_alter_eq, ?lookup_alter_eq, ?Hm; simpl;
    rewrite ?Ht;
    (split; [done|]);
    (split; [first [done | intros ?; apply Hnd;
                           [by apply bool_decide_eq_false in Hin | done]]|]);
    repeat (split; [done|]);
    intros other Hne; by rewrite !lookup_alter_ne by (by apply not_eq_sym).
Qed.

(** A fresh monitor started twice. *)
Lemma start_registers_once_witness :
  let o := BackgroundMonitor.calm_os in
  let w := fst (for_each [BackgroundMonitor.New 5; BackgroundMonitor.Start 0]
                  (BackgroundMonitor.serve o) BackgroundMonitor.fresh_world) in
  exists w',
    BackgroundMonitor.start 0 w = (w', Ret tt)
    /\ BackgroundMonitor._instances w' = [0]
    /\ BackgroundMonitor._thread (BackgroundMonitor.obj w' 0)
       = BackgroundMonitor.Marked.
Proof.
  intros o w.
  destruct (start_registers_once w 0) as (w' & H1 & H2 & _ & _ & _ & _ & H7 & _).
  { by eexists. }
  exists w'. split; [exact H1|]. split.
  - rewrite H2. reflexivity.
  - rewrite H7. reflexivity.
Defined.

(** X10: [start_all(False)] starts one new thread per registered monitor,
    in registration order, and leaves each monitor holding its thread;
    it has no guard against a second call, which starts as many threads
    again.  The class attributes, the events of the monitors and the
    monitors that are not registered stay as they are. *)
Theorem start_all_threads (o : BackgroundMonitor.os)
    (w : BackgroundMonitor.world) (wait_for_subprocess : bool) :
  NoDup (BackgroundMonitor._instances w) ->
  exists w',
    BackgroundMonitor.start_all o false wait_for_subprocess w = (w', Ret tt)
    /\ BackgroundMonitor.same_registry w w'
    /\ BackgroundMonitor.threads w'
       = BackgroundMonitor.threads w + length (BackgroundMonitor._instances w)
    /\ BackgroundMonitor.log w'
       = BackgroundMonitor.log w
         ++ imap (fun k d => BackgroundMonitor.ThreadStarted
                               (BackgroundMonitor.threads w + k) d)
              (BackgroundMonitor._instances w)
    /\ (forall k d,
          BackgroundMonitor._instances w !! k = Some d ->
          BackgroundMonitor.heap w' !! d
          = BackgroundMonitor.with_thread
              (BackgroundMonitor.ThreadObj (BackgroundMonitor.threads w + k))
            <$> BackgroundMonitor.heap w !! d)
    /\ (forall d, d ∉ BackgroundMonitor._instances w ->
          BackgroundMonitor.heap w' !! d = BackgroundMonitor.heap w !! d)
    /\ BackgroundMonitor.threads
         (fst (BackgroundMonitor.start_all o false wait_for_subprocess w'))
       = BackgroundMonitor.threads w
         + 2 * length (BackgroundMonitor._instances w).
Proof.
  intros Hnodup.
  destruct (start_threads (BackgroundMonitor._instances w) w Hnodup)
    as (w' & Hrun & Hreg & Hthreads & _ & Hlog & Hin & Hout).
  exists w'. split; [exact Hrun|]. repeat (split; [assumption|]).
  destruct Hreg as (_ & _ & _ & Hinst).
  destruct (start_threads (BackgroundMonitor._instances w') w') as
    (w'' & Hrun' & _ & Hthreads' & _).
  { by rewrite Hinst. }
  change (BackgroundMonitor.start_all o false wait_for_subprocess w')
    with (for_each (BackgroundMonitor._instances w')
            BackgroundMonitor._start w').
  rewrite Hrun'. simpl. rewrite Hthreads', Hthreads, Hinst. lia.
Qed.

(** Two started monitors. *)
Lemma start_all_threads_witness :
  let o := BackgroundMonitor.calm_os in
  let w := fst (for_each [BackgroundMonitor.New 5; BackgroundMonitor.New 7;
                          BackgroundMonitor.Start 0; BackgroundMonitor.Start 1]
                  (BackgroundMonitor.serve o) BackgroundMonitor.fresh_world) in
  exists w',
    BackgroundMonitor.start_all o false false w = (w', Ret tt)
    /\ BackgroundMonitor.threads w' = 2
    /\ BackgroundMonitor._thread (BackgroundMonitor.obj w' 1)
       = BackgroundMonitor.ThreadObj 1
    /\ BackgroundMonitor.threads
         (fst (BackgroundMonitor.start_all o false false w')) = 4.
Proof.
  intros o w.
  destruct (start_all_threads o w false)
    as (w' & H1 & _ & H3 & _ & H5 & _ & H7).
  { apply NoDup_cons. split; [|apply NoDup_singleton].
    by intros Hin%list_elem_of_singleton. }
  exists w'. split; [exact H1|]. split; [exact H3|]. split; [|exact H7].
  unfold BackgroundMonitor.obj.
  erewrite lookup_total_correct; [|rewrite (H5 1 1 eq_refl); reflexivity].
  reflexivity.
Defined.

Section SubprocessSwitch.
Import BackgroundMonitor.
Implicit Types (w : world) (self d : nat) (h : gmap nat monitor).

Lemma switched_idemp (m : monitor) : switched (switched m) = switched m.
Proof. reflexivity. Qed.

Lemma set_subprocess_mode_effect w self :
  set_subprocess_mode self w = (set_heap (alter switched self (heap w)) w, Ret tt).
Proof.
  unfold set_subprocess_mode. run. do 2 f_equal.
  rewrite !alter_alter_eq. reflexivity.
Qed.

Lemma switch_all_lookup (l : list nat) h d :
  switch_all l h !! d
  = if bool_decide (d ∈ l) then switched <$> h !! d else h !! d.
Proof.
  revert h. induction l as [|d' l IH]; intros h.
  - rewrite bool_decide_eq_false_2; [done | apply not_elem_of_nil].
  - change (switch_all (d' :: l) h) with (switch_all l (alter switched d' h)).
    rewrite IH.
    destruct (decide (d = d')) as [->|Hne].
    + rewrite (bool_decide_eq_true_2 (d' ∈ d' :: l)) by left.
      rewrite lookup_alter_eq. case_bool_decide; [|done].
      rewrite <- option_fmap_compose. by destruct (h !! d').
    + rewrite lookup_alter_ne by done.
      case_bool_decide as Hin.
      * rewrite bool_decide_eq_true_2; [done | by right].
      * rewrite bool_decide_eq_false_2; [done|].
        by intros [?|?]%elem_of_cons.
Qed.

Lemma set_subprocess_mode_each (l : list nat) w :
  for_each l set_subprocess_mode w = (set_heap (switch_all l (heap w)) w, Ret tt).
Proof.
  revert w. induction l as [|d l IH]; intros w; simpl.
  - by destruct w.
  - rewrite (bind_returns _ _ _ _ _ (set_subprocess_mode_effect w d)).
    by rewrite IH.
Qed.

End SubprocessSwitch.

(** X11: the first [start_all(True)] records the caller as parent, makes
    the started event of the fleet, switches every registered monitor to
    subprocess mode (its three events are replaced by unset process
    events, whatever they were; its thread mark is kept), and launches
    one worker; it starts no thread in the caller and leaves the other
    monitors alone.  With [wait_for_subprocess] it returns only when the
    worker comes up, with the started event set. *)
Theorem start_all_subprocess_first (o : BackgroundMonitor.os)
    (w : BackgroundMonitor.world) (wait_for_subprocess : bool) :
  BackgroundMonitor._main_process w = None ->
  exists w',
    BackgroundMonitor.start_all o true wait_for_subprocess w
    = (w', if wait_for_subprocess && negb (BackgroundMonitor.worker_comes_up o)
           then Block else Ret tt)
    /\ BackgroundMonitor._main_process w' = Some (BackgroundMonitor.fork_pid o)
    /\ BackgroundMonitor._parent_pid w' = Some (BackgroundMonitor.getpid o)
    /\ BackgroundMonitor._sub_process_started w'
       = Some {| BackgroundMonitor.kind := BackgroundMonitor.PrEvent;
                 BackgroundMonitor.is_set :=
                   wait_for_subprocess && BackgroundMonitor.worker_comes_up o |}
    /\ BackgroundMonitor._instances w' = BackgroundMonitor._instances w
    /\ (forall d,
          BackgroundMonitor.heap w' !! d
          = if bool_decide (d ∈ BackgroundMonitor._instances w)
            then BackgroundMonitor.switched <$> BackgroundMonitor.heap w !! d
            else BackgroundMonitor.heap w !! d)
    /\ BackgroundMonitor.threads w' = BackgroundMonitor.threads w
    /\ BackgroundMonitor.log w'
       = BackgroundMonitor.log w
         ++ [BackgroundMonitor.ProcessStarted (BackgroundMonitor.fork_pid o)].
Proof.
  intros Hmain. unfold BackgroundMonitor.start_all.
  unfold bind at 1, read at 1. simpl.
  rewrite Hmain, bool_decide_eq_false_2 by (by intros [? ?]). simpl.
  unfold bind at 1, modify at 1. unfold bind at 1, modify at 1.
  unfold bind at 1. rewrite set_subprocess_mode_each.
  BackgroundMonitor.run.
  destruct wait_for_subprocess; simpl;
    [destruct (BackgroundMonitor.worker_comes_up o); simpl|];
    (eexists; split; [reflexivity|]); simpl;
    repeat (split; [done|]); (split; [|done]);
    intros d; apply switch_all_lookup.
Qed.

(** Two monitors, the first one registered and with its stop event set
    by an earlier run; the caller waits for the worker. *)
Lemma start_all_subprocess_first_witness :
  let o := BackgroundMonitor.stop_at 0 in
  let w := fst ((for_each [BackgroundMonitor.New 5; BackgroundMonitor.New 7;
                           BackgroundMonitor.Start 0]
                   (BackgroundMonitor.serve o) ;;
                 BackgroundMonitor.event_wait o 0)
                  BackgroundMonitor.fresh_world) in
  BackgroundMonitor.is_set
    (BackgroundMonitor._event (BackgroundMonitor.obj w 0)) = true
  /\ exists w',
       BackgroundMonitor.start_all o true true w = (w', Ret tt)
       /\ BackgroundMonitor._main_process w' = Some 101
       /\ BackgroundMonitor._parent_pid w' = Some 100
       /\ (BackgroundMonitor.is_set <$> BackgroundMonitor._sub_process_started w')
          = Some true
       /\ BackgroundMonitor.heap w' !! 0
          = BackgroundMonitor.switched <$> BackgroundMonitor.heap w !! 0
       /\ BackgroundMonitor.heap w' !! 1 = BackgroundMonitor.heap w !! 1.
Proof.
  intros o w. split; [reflexivity|].
  destruct (start_all_subprocess_first o w true)
    as (w' & H1 & H2 & H3 & H4 & _ & H6 & _).
  { reflexivity. }
  exists w'. split; [exact H1|]. split; [exact H2|]. split; [exact H3|].
  split; [by rewrite H4|]. split.
  - rewrite (H6 0). reflexivity.
  - rewrite (H6 1). reflexivity.
Defined.

(** ** [BackgroundMonitor]: more on [stop] and on the loop *)
Section StopMore.
Import BackgroundMonitor.
Variable o : os.
Implicit Types (w : world) (self : nat).

Lemma remove_first_NoDup self (l : list nat) :
  NoDup l -> self ∉ remove_first self l.
Proof.
  induction l as [|d l IH]; intros Hnd; simpl; [apply not_elem_of_nil|].
  apply NoDup_cons in Hnd as [Hd Hnd]. case_bool_decide as Heq.
  - by subst d.
  - apply not_elem_of_cons. split; [congruence | by apply IH].
Qed.

(** What [stop] does to a started monitor when the liveness check
    returns. *)
Lemma stop_effect w self v :
  slot_truthy (_thread (obj w self)) = true ->
  is_Some (heap w !! self) ->
  is_subprocess_alive o w = (w, Ret v) ->
  stop o self w
  = (let h := if truthy v then alter signal self (heap w) else heap w in
     if is_Thread (_thread (obj w self)) then
       set_heap (alter (with_thread NoThread) self h)
         (set_instances (remove_first self (_instances w)) w)
     else set_heap h w, Ret tt).
Proof.
  intros Hstarted [m Hm] Halive. unfold stop. unfold bind at 1, read at 1.
  rewrite Hstarted. simpl. unfold bind at 1. rewrite Halive.
  unfold obj in *. rewrite (lookup_total_correct _ _ _ Hm) in *.
  destruct (truthy v); run; unfold obj; simpl;
    rewrite ?lookup_total_alter_eq, ?Hm; simpl;
    rewrite ?(lookup_total_correct _ _ _ Hm);
    destruct (_thread m); simpl; try done; by destruct w.
Qed.

End StopMore.

(** X12: [stop] on a monitor that holds a [Thread] removes the monitor
    from the instance list and drops the handle, whatever the liveness
    check answers; the stop event gets set exactly when that answer is
    true.  Other monitors are not touched, a second [stop] does nothing,
    and with no worker launched [is_alive] answers [False] from then
    on. *)
Theorem stop_releases_thread (o : BackgroundMonitor.os)
    (w : BackgroundMonitor.world) (self tid : nat) (v : value) :
  BackgroundMonitor._thread (BackgroundMonitor.obj w self)
    = BackgroundMonitor.ThreadObj tid ->
  is_Some (BackgroundMonitor.heap w !! self) ->
  BackgroundMonitor.is_subprocess_alive o w = (w, Ret v) ->
  exists w',
    BackgroundMonitor.stop o self w = (w', Ret tt)
    /\ BackgroundMonitor._instances w'
       = BackgroundMonitor.remove_first self (BackgroundMonitor._instances w)
    /\ (NoDup (BackgroundMonitor._instances w) ->
        self ∉ BackgroundMonitor._instances w')
    /\ BackgroundMonitor._thread (BackgroundMonitor.obj w' self)
       = BackgroundMonitor.NoThread
    /\ BackgroundMonitor.is_set
         (BackgroundMonitor._event (BackgroundMonitor.obj w' self))
       = BackgroundMonitor.is_set
           (BackgroundMonitor._event (BackgroundMonitor.obj w self))
         || truthy v
    /\ (forall other, other <> self ->
          BackgroundMonitor.heap w' !! other = BackgroundMonitor.heap w !! other)
    /\ BackgroundMonitor.stop o self w' = (w', Ret tt)
    /\ (BackgroundMonitor._main_process w = None ->
        BackgroundMonitor.is_alive o self w' = (w', Ret (VBool false))).
Proof.
  intros Hthread [m Hm] Halive.
  pose proof (stop_effect o w self v) as Hstop.
  rewrite Hthread in Hstop. simpl in Hstop.
  specialize (Hstop eq_refl (ex_intro _ m Hm) Halive).
  eexists. split; [exact Hstop|]. simpl.
  assert (Hobj : BackgroundMonitor._thread
                   (BackgroundMonitor.obj
                      (BackgroundMonitor.set_heap
                         (alter (BackgroundMonitor.with_thread BackgroundMonitor.NoThread)
                            self
                            (if truthy v
                             then alter BackgroundMonitor.signal self
                                    (BackgroundMonitor.heap w)
                             else BackgroundMonitor.heap w))
                         (BackgroundMonitor.set_instances
                            (BackgroundMonitor.remove_first self
                               (BackgroundMonitor._instances w)) w)) self)
                 = BackgroundMonitor.NoThread).
  { unfold BackgroundMonitor.obj. simpl. rewrite lookup_total_alter_eq.
    destruct (truthy v); rewrite ?lookup_alter_eq, Hm; done. }
  split; [done|]. split; [apply remove_first_NoDup|]. split; [exact Hobj|].
  split; [|split; [|split]].
  - unfold BackgroundMonitor.obj. simpl. rewrite lookup_total_alter_eq.
    rewrite (lookup_total_correct _ _ _ Hm).
    destruct (truthy v); rewrite ?lookup_alter_eq, Hm; simpl;
      by rewrite ?orb_true_r, ?orb_false_r.
  - intros other Hne. rewrite lookup_alter_ne by (by apply not_eq_sym).
    destruct (truthy v); [|done].
    by rewrite lookup_alter_ne by (by apply not_eq_sym).
  - by apply stop_never_started.
  - intros Hmain. unfold BackgroundMonitor.is_alive, BackgroundMonitor.is_subprocess.
    BackgroundMonitor.run. rewrite Hmain.
    rewrite bool_decide_eq_false_2 by (by intros [? ?]).
    fold (BackgroundMonitor.obj
            (BackgroundMonitor.set_heap
               (alter (BackgroundMonitor.with_thread BackgroundMonitor.NoThread)
                  self
                  (if truthy v
                   then alter BackgroundMonitor.signal self
                          (BackgroundMonitor.heap w)
                   else BackgroundMonitor.heap w))
               (BackgroundMonitor.set_instances
                  (BackgroundMonitor.remove_first self
                     (BackgroundMonitor._instances w)) w)) self) in Hobj.
    unfold BackgroundMonitor.obj in Hobj |- *. simpl in Hobj |- *.
    by rewrite Hobj.
Qed.

(** The monitor of a running thread, no worker launched. *)
Lemma stop_releases_thread_witness :
  let o := BackgroundMonitor.calm_os in
  let w := fst (for_each [BackgroundMonitor.New 5; BackgroundMonitor.Start 0;
                          BackgroundMonitor.StartAll false false]
                  (BackgroundMonitor.serve o) BackgroundMonitor.fresh_world) in
  exists w',
    BackgroundMonitor.stop o 0 w = (w', Ret tt)
    /\ BackgroundMonitor._instances w' = []
    /\ BackgroundMonitor._thread (BackgroundMonitor.obj w' 0)
       = BackgroundMonitor.NoThread
    /\ BackgroundMonitor.stop o 0 w' = (w', Ret tt)
    /\ BackgroundMonitor.is_alive o 0 w' = (w', Ret (VBool false)).
Proof.
  intros o w.
  destruct (stop_releases_thread o w 0 0 (VBool false))
    as (w' & H1 & H2 & _ & H4 & _ & _ & H7 & H8).
  - reflexivity.
  - by eexists.
  - reflexivity.
  - exists w'. split; [exact H1|]. split; [by rewrite H2|].
    split; [exact H4|]. split; [exact H7 | by apply H8].
Defined.

(** X13: when the shared worker is alive, [stop] on a started monitor
    sets the monitor's stop event (and returns); no other monitor is
    touched. *)
Theorem stop_signals_under_live_worker (o : BackgroundMonitor.os)
    (w : BackgroundMonitor.world) (self : nat) :
  BackgroundMonitor.slot_truthy
    (BackgroundMonitor._thread (BackgroundMonitor.obj w self)) = true ->
  is_Some (BackgroundMonitor.heap w !! self) ->
  BackgroundMonitor.is_subprocess_alive o w = (w, Ret (VBool true)) ->
  exists w',
    BackgroundMonitor.stop o self w = (w', Ret tt)
    /\ BackgroundMonitor.is_set
         (BackgroundMonitor._event (BackgroundMonitor.obj w' self)) = true
    /\ (forall other, other <> self ->
          BackgroundMonitor.heap w' !! other = BackgroundMonitor.heap w !! other).
Proof.
  intros Hstarted [m Hm] Halive.
  rewrite (stop_effect o w self (VBool true) Hstarted (ex_intro _ m Hm) Halive).
  simpl. eexists. split; [reflexivity|].
  destruct (BackgroundMonitor.is_Thread _); unfold BackgroundMonitor.obj; simpl.
  - split.
    + by rewrite lookup_total_alter_eq, lookup_alter_eq, Hm.
    + intros other Hne. by rewrite !lookup_alter_ne by (by apply not_eq_sym).
  - split.
    + by rewrite lookup_total_alter_eq, Hm.
    + intros other Hne. by rewrite lookup_alter_ne by (by apply not_eq_sym).
Qed.

(** A started monitor of a launched, living worker, stopped from the
    launching process. *)
Lemma stop_signals_under_live_worker_witness :
  let o := BackgroundMonitor.calm_os in
  let w := fst (for_each [BackgroundMonitor.New 5; BackgroundMonitor.Start 0;
                          BackgroundMonitor.StartAll true true]
                  (BackgroundMonitor.serve o) BackgroundMonitor.fresh_world) in
  exists w',
    BackgroundMonitor.stop o 0 w = (w', Ret tt)
    /\ BackgroundMonitor.is_set
         (BackgroundMonitor._event (BackgroundMonitor.obj w' 0)) = true
    /\ BackgroundMonitor._instances w' = [0].
Proof.
  intros o w.
  destruct (stop_signals_under_live_worker o w 0) as (w' & H1 & H2 & _).
  - reflexivity.
  - by eexists.
  - reflexivity.
  - exists w'. split; [exact H1|]. split; [exact H2|].
    assert (Hw' : w' = fst (BackgroundMonitor.stop o 0 w)) by (by rewrite H1).
    rewrite Hw'. reflexivity.
Defined.

Section LivenessErrors.
Import BackgroundMonitor.
Variable o : os.
Implicit Types (w : world) (self pid : nat).

Lemma direct_check_outcome pid w :
  (exists v, direct_check o pid w = (w, Ret v))
  \/ (exists e, direct_check o pid w = (w, Raise e)).
Proof.
  unfold direct_check, lookup_process. run.
  destruct (process_is_alive o pid) as [e|[]]; simpl; eauto.
  destruct (psutil_Process o pid); simpl; eauto.
  destruct (psutil_status o pid); simpl; eauto.
Qed.

Lemma scan_children_raises pid children w e :
  scan_children pid children w = (w, Raise e)
  <-> exists p, find_child pid children = Some (p, inl e).
Proof.
  unfold find_child. induction children as [|[p s] children IH]; simpl.
  - split; [done | by intros [? ?]].
  - case_bool_decide as Hp; [|exact IH]. destruct s as [e'|st]; simpl.
    + split; [intros [= ->]; eauto | by intros [? [= -> ->]]].
    + split; [done | by intros [? ?]].
Qed.

Lemma tree_scan_raises pid w e :
  tree_scan o pid w = (w, Raise e)
  <-> let parent := default (getpid o) (_parent_pid w) in
      (psutil_Process o parent = Some e /\ is_psutil_Error e = false)
      \/ (psutil_Process o parent = None /\ psutil_children o parent = inl e)
      \/ (psutil_Process o parent = None
          /\ exists children p,
               psutil_children o parent = inr children
               /\ find_child pid children = Some (p, inl e)).
Proof.
  unfold tree_scan, lookup_process. run.
  destruct (psutil_Process o _) as [e'|] eqn:Hparent; simpl.
  - destruct (is_psutil_Error e') eqn:Hps; simpl.
    + split; [done|]. intros [[[= ->] ?]|[[? _]|[? _]]]; congruence.
    + split.
      * intros [= ->]. by left.
      * intros [[[= ->] _]|[[? _]|[? _]]]; done.
  - destruct (psutil_children o _) as [e'|children] eqn:Hch; simpl.
    + split.
      * intros [= ->]. right. by left.
      * intros [[? _]|[[_ [= ->]]|[_ (? & ? & ? & _)]]]; done.
    + rewrite scan_children_raises. split.
      * intros [p Hp]. right. right. split; [done|]. eauto.
      * intros [[? _]|[[_ ?]|[_ (? & p & [= <-] & Hp)]]]; try done. eauto.
Qed.

End LivenessErrors.

(** X14: the liveness check is not free of exceptions.  It raises
    exactly when a worker handle exists, the direct check raises, and
    the scan of the parent's descendants fails in a way its handler does
    not cover: looking up the parent raises something other than a
    [psutil.Error], listing the descendants raises, or asking the found
    descendant for its status raises.  [stop] on a started monitor and
    [is_alive] then raise the same exception and change nothing. *)
Theorem liveness_errors_reach_the_caller (o : BackgroundMonitor.os)
    (w : BackgroundMonitor.world) (e : exn) :
  (BackgroundMonitor.is_subprocess_alive o w = (w, Raise e)
   <-> exists pid e0,
         BackgroundMonitor._main_process w = Some pid
         /\ BackgroundMonitor.direct_check o pid w = (w, Raise e0)
         /\ let parent := default (BackgroundMonitor.getpid o)
                            (BackgroundMonitor._parent_pid w) in
            (BackgroundMonitor.psutil_Process o parent = Some e
             /\ is_psutil_Error e = false)
            \/ (BackgroundMonitor.psutil_Process o parent = None
                /\ BackgroundMonitor.psutil_children o parent = inl e)
            \/ (BackgroundMonitor.psutil_Process o parent = None
                /\ exists children p,
                     BackgroundMonitor.psutil_children o parent = inr children
                     /\ BackgroundMonitor.find_child pid children
                        = Some (p, inl e)))
  /\ (BackgroundMonitor.is_subprocess_alive o w = (w, Raise e) ->
      forall self,
        BackgroundMonitor.is_alive o self w = (w, Raise e)
        /\ (BackgroundMonitor.slot_truthy
              (BackgroundMonitor._thread (BackgroundMonitor.obj w self)) = true ->
            BackgroundMonitor.stop o self w = (w, Raise e))).
Proof.
  split.
  - destruct (BackgroundMonitor._main_process w) as [pid|] eqn:Hmain.
    + destruct (direct_check_outcome o pid w) as [[v Hd]|[e0 Hd]].
      * rewrite (is_subprocess_alive_direct o w pid v Hmain Hd).
        split; [done|]. intros (pid' & e0 & [= <-] & Hd' & _). congruence.
      * rewrite (is_subprocess_alive_fallback o w pid e0 Hmain Hd).
        rewrite tree_scan_raises. split.
        -- intros H. exists pid, e0. eauto.
        -- by intros (pid' & e0' & [= <-] & _ & H).
    + rewrite (is_subprocess_alive_never_launched o w Hmain).
      split; [done | by intros (? & ? & ? & _)].
  - intros Halive self. split.
    + unfold BackgroundMonitor.is_alive, BackgroundMonitor.is_subprocess.
      unfold bind at 1, bind at 1, read at 1, ret at 1.
      destruct (BackgroundMonitor._main_process w) as [pid|] eqn:Hmain.
      * rewrite bool_decide_eq_true_2 by eauto.
        unfold bind at 1. by rewrite Halive.
      * by rewrite (is_subprocess_alive_never_launched o w Hmain) in Halive.
    + intros Hstarted. unfold BackgroundMonitor.stop.
      unfold bind at 1, read at 1. rewrite Hstarted. simpl.
      unfold bind at 1. by rewrite Halive.
Qed.

(** The worker's handle has gone bad and the recorded parent is found
    but its descendants cannot be listed. *)
Lemma liveness_errors_reach_the_caller_witness :
  let o := {| BackgroundMonitor.getpid := 100;
              BackgroundMonitor.fork_pid := 101;
              BackgroundMonitor.worker_comes_up := true;
              BackgroundMonitor.thread_is_alive := fun _ => true;
              BackgroundMonitor.process_is_alive := fun _ => inl AssertionError;
              BackgroundMonitor.psutil_Process := fun _ => None;
              BackgroundMonitor.psutil_status := fun _ => inl psutil_Error;
              BackgroundMonitor.psutil_children := fun _ => inl psutil_Error;
              BackgroundMonitor.stop_arrives := fun _ => false |} in
  let w := fst (for_each [BackgroundMonitor.New 5; BackgroundMonitor.Start 0;
                          BackgroundMonitor.StartAll true false]
                  (BackgroundMonitor.serve o) BackgroundMonitor.fresh_world) in
  BackgroundMonitor.is_alive o 0 w = (w, Raise psutil_Error)
  /\ BackgroundMonitor.stop o 0 w = (w, Raise psutil_Error).
Proof.
  intros o w.
  destruct (proj2 (liveness_errors_reach_the_caller o w psutil_Error)
              eq_refl 0) as [H1 H2].
  split; [exact H1 | by apply H2].
Defined.

Section DaemonRunning.
Import BackgroundMonitor.
Variable o : os.
Implicit Types (w : world) (self : nat).

(** As long as no wait sees the stop event set, the loop goes on: one
    step per wait, and nothing but the log and the count of waits
    changes. *)
Lemma daemon_running (fuel : nat) : forall w self,
  (forall k, k < fuel -> seen_set o w self k = false) ->
  exists w',
    daemon o fuel self w = (w', OutOfFuel)
    /\ heap w' = heap w
    /\ same_registry w w'
    /\ log w' = log w
                ++ concat (replicate fuel
                             [WaitTimedOut self (_wait_timeout (obj w self));
                              DaemonStep self]).
Proof.
  induction fuel as [|fuel IH]; intros w self Hnot.
  - exists w. simpl. rewrite app_nil_r. split; [done|]. split; [done|].
    split; [apply same_registry_refl | done].
  - simpl. unfold bind at 1.
    rewrite (event_wait_timed_out o w self) by (apply Hnot; lia).
    unfold _daemon_step, bind, modify. simpl.
    match goal with |- context [daemon o fuel self ?w1] =>
      destruct (IH w1 self) as (w' & Hrun & Hheap & Hreg & Hlog) end.
    + intros k Hk. specialize (Hnot (S k) ltac:(lia)).
      unfold seen_set, obj in *. simpl. by rewrite Nat.add_succ_r in Hnot.
    + exists w'. rewrite Hrun. split; [done|]. split; [done|]. split; [done|].
      rewrite Hlog. unfold emit. simpl. by rewrite <- !app_assoc.
Qed.

End DaemonRunning.

(** X15: while the stop event has not been seen, a monitor's thread is
    still in its loop after any number of waits: [_start_ev] is set, one
    step was made per wait, and neither the done event nor the stop
    event of the monitor has been touched, so the done event is never
    set before the stop event is seen. *)
Theorem daemon_not_done_before_stop
    (o : BackgroundMonitor.os) (w : BackgroundMonitor.world)
    (self fuel : nat) :
  is_Some (BackgroundMonitor.heap w !! self) ->
  (forall k, k < fuel -> BackgroundMonitor.seen_set o w self k = false) ->
  exists w',
    BackgroundMonitor._daemon o fuel self w = (w', OutOfFuel)
    /\ BackgroundMonitor.log w'
       = BackgroundMonitor.log w
         ++ [BackgroundMonitor.StartEvSet self]
         ++ concat (replicate fuel
                      [BackgroundMonitor.WaitTimedOut self
                         (BackgroundMonitor._wait_timeout
                            (BackgroundMonitor.obj w self));
                       BackgroundMonitor.DaemonStep self])
    /\ BackgroundMonitor.is_set
         (BackgroundMonitor._start_ev (BackgroundMonitor.obj w' self)) = true
    /\ BackgroundMonitor._done_ev (BackgroundMonitor.obj w' self)
       = BackgroundMonitor._done_ev (BackgroundMonitor.obj w self)
    /\ BackgroundMonitor._event (BackgroundMonitor.obj w' self)
       = BackgroundMonitor._event (BackgroundMonitor.obj w self).
Proof.
  intros [m Hm] Hnot.
  set (w1 := BackgroundMonitor.emit (BackgroundMonitor.StartEvSet self)
               (BackgroundMonitor.set_heap
                  (alter (fun m => BackgroundMonitor.with_start_ev
                                     (BackgroundMonitor.set
                                        (BackgroundMonitor._start_ev m)) m)
                     self (BackgroundMonitor.heap w)) w)).
  assert (Hobj : BackgroundMonitor.obj w1 self
                 = BackgroundMonitor.with_start_ev
                     (BackgroundMonitor.set (BackgroundMonitor._start_ev m)) m).
  { unfold BackgroundMonitor.obj, w1. simpl.
    by rewrite lookup_total_alter_eq, Hm. }
  assert (Hw : BackgroundMonitor.obj w self = m).
  { by apply lookup_total_correct. }
  destruct (daemon_running o fuel w1 self) as (w2 & Hrun & Hheap & _ & Hlog).
  { intros k Hk. rewrite <- (Hnot k Hk).
    unfold BackgroundMonitor.seen_set. by rewrite Hobj, Hw. }
  exists w2. split.
  { change (BackgroundMonitor._daemon o fuel self w)
      with ((BackgroundMonitor.daemon o fuel self ;;
             BackgroundMonitor.post_execution self) w1).
    unfold bind. by rewrite Hrun. }
  assert (Hobj2 : BackgroundMonitor.obj w2 self = BackgroundMonitor.obj w1 self).
  { unfold BackgroundMonitor.obj. by rewrite Hheap. }
  rewrite Hobj2, Hobj, Hw. split; [|done].
  rewrite Hlog, Hobj. simpl. by rewrite <- app_assoc.
Qed.

(** A started monitor whose stop event arrives during its sixth wait,
    looked at after four. *)
Lemma daemon_not_done_before_stop_witness :
  let o := BackgroundMonitor.stop_at 5 in
  let w := fst (for_each [BackgroundMonitor.New 5; BackgroundMonitor.Start 0;
                          BackgroundMonitor.StartAll false false]
                  (BackgroundMonitor.serve o) BackgroundMonitor.fresh_world) in
  exists w',
    BackgroundMonitor._daemon o 4 0 w = (w', OutOfFuel)
    /\ BackgroundMonitor.is_set
         (BackgroundMonitor._start_ev (BackgroundMonitor.obj w' 0)) = true
    /\ BackgroundMonitor.is_set
         (BackgroundMonitor._done_ev (BackgroundMonitor.obj w' 0)) = false.
Proof.
  intros o w.
  destruct (daemon_not_done_before_stop o w 0 4) as (w' & H1 & _ & H3 & H4 & _).
  - by eexists.
  - intros k Hk. destruct k as [|[|[|[|k]]]]; try reflexivity. lia.
  - exists w'. split; [exact H1|]. split; [exact H3|]. rewrite H4. reflexivity.
Defined.

(** ** [BackgroundMonitor]: what every run keeps *)
Section RunInvariants.
Import BackgroundMonitor.
Variable o : os.
Implicit Types (w : world) (self : nat).

Lemma remove_first_sublist self (l : list nat) : NoDup l -> NoDup (remove_first self l).
Proof.
  induction l as [|d l IH]; intros Hnd; simpl; [done|].
  apply NoDup_cons in Hnd as [Hd Hnd]. case_bool_decide; [done|].
  apply NoDup_cons. split; [|by apply IH].
  intros Hin. apply Hd. clear -Hin. induction l as [|d' l IH]; simpl in *; [done|].
  case_bool_decide; [by right|].
  apply elem_of_cons in Hin as [->|Hin]; [by left | right; by apply IH].
Qed.

Lemma start_instances w self :
  _instances (fst (start self w))
  = if bool_decide (self ∈ _instances w) then _instances w
    else _instances w ++ [self].
Proof.
  unfold start. run.
  destruct (negb (slot_truthy _)); simpl; by case_bool_decide.
Qed.

Lemma stop_instances w self :
  _instances (fst (stop o self w)) = _instances w
  \/ _instances (fst (stop o self w)) = remove_first self (_instances w).
Proof.
  destruct (stop o self w) as [w1 out] eqn:Hstop. simpl. revert Hstop.
  unfold stop. unfold bind at 1, read at 1.
  destruct (negb (slot_truthy _)); simpl; [intros [= <- _]; by left|].
  unfold bind at 1. pose proof (is_subprocess_alive_pure o w) as Hpure.
  destruct (is_subprocess_alive o w) as [w' [v|e| |]]; simpl in Hpure; subst w';
    simpl; try (intros [= <- _]; by left).
  run. destruct (truthy v); simpl;
    match goal with |- context [is_Thread ?t] => destruct (is_Thread t) end;
    simpl; intros [= <- _]; simpl; auto.
Qed.

Lemma start_all_instances w e wfs :
  NoDup (_instances w) ->
  _instances (fst (start_all o e wfs w)) = _instances w.
Proof.
  intros Hnd. destruct e.
  - destruct (_main_process w) as [pid|] eqn:Hmain.
    + by rewrite (start_all_noop o w pid wfs Hmain).
    + destruct (start_all o true wfs w) as [w1 out] eqn:Hrun. simpl.
      revert Hrun. unfold start_all. unfold bind at 1, read at 1. simpl.
      rewrite Hmain, bool_decide_eq_false_2 by (by intros [? ?]). simpl.
      unfold bind at 1, modify at 1. unfold bind at 1, modify at 1.
      unfold bind at 1. rewrite set_subprocess_mode_each. run.
      destruct wfs; simpl; [destruct (worker_comes_up o); simpl|];
        by intros [= <- _].
  - destruct (start_threads (_instances w) w Hnd) as (w' & Hrun & Hreg & _).
    change (start_all o false wfs w) with (for_each (_instances w) _start w).
    rewrite Hrun. apply Hreg.
Qed.

Lemma serve_NoDup r w :
  NoDup (_instances w) -> NoDup (_instances (fst (serve o r w))).
Proof.
  intros Hnd. destruct r as [wait_period|self|[] wfs|self]; simpl.
  - done.
  - rewrite start_instances. case_bool_decide as Hin; [done|].
    apply NoDup_app. split; [done|]. split; [|apply NoDup_singleton].
    by intros x Hx ->%list_elem_of_singleton.
  - by rewrite start_all_instances.
  - by rewrite start_all_instances.
  - destruct (stop_instances w self) as [-> | ->];
      [done | by apply remove_first_sublist].
Qed.

Lemma serve_keeps_handle r w :
  is_Some (_main_process w) ->
  _main_process (fst (serve o r w)) = _main_process w.
Proof.
  intros [pid Hmain]. destruct r as [wait_period|self|[] wfs|self].
  - apply (no_launch_bind (__init__ o wait_period) (fun _ => ret tt));
      [apply no_launch_init | intros _; apply no_launch_ret].
  - apply no_launch_start.
  - simpl. by rewrite (start_all_noop o w pid wfs Hmain).
  - apply no_launch_start_all_threads.
  - apply no_launch_stop.
Qed.

End RunInvariants.

(** X16: over any run of constructor, [start], [start_all] and [stop]
    calls no monitor is ever registered twice, and the worker handle,
    once there, is never cleared or replaced: [stop] does not reset it
    and nothing notices that the worker died, so [is_subprocess()]
    stays true and no second worker can be launched. *)
Theorem run_keeps_registry (o : BackgroundMonitor.os)
    (rs : list BackgroundMonitor.request) (w : BackgroundMonitor.world) :
  NoDup (BackgroundMonitor._instances w) ->
  NoDup (BackgroundMonitor._instances
           (fst (for_each rs (BackgroundMonitor.serve o) w)))
  /\ (is_Some (BackgroundMonitor._main_process w) ->
      BackgroundMonitor._main_process
        (fst (for_each rs (BackgroundMonitor.serve o) w))
      = BackgroundMonitor._main_process w).
Proof.
  revert w. induction rs as [|r rs IH]; intros w Hnd; [done|].
  simpl. unfold bind.
  pose proof (serve_NoDup o r w Hnd) as Hnd1.
  pose proof (serve_keeps_handle o r w) as Hmain1.
  destruct (BackgroundMonitor.serve o r w) as [w1 [[]|e| |]]; simpl in *;
    try (split; [exact Hnd1 | exact Hmain1]).
  destruct (IH w1 Hnd1) as [Hnd2 Hmain2]. split; [exact Hnd2|].
  intros Hsome. rewrite <- (Hmain1 Hsome). apply Hmain2.
  by rewrite (Hmain1 Hsome).
Qed.

(** A worker launched for two monitors, then more calls: both started
    again, the first stopped, the fleet launched again. *)
Lemma run_keeps_registry_witness :
  let o := BackgroundMonitor.calm_os in
  let w := fst (for_each [BackgroundMonitor.New 5; BackgroundMonitor.New 7;
                          BackgroundMonitor.Start 0; BackgroundMonitor.Start 1;
                          BackgroundMonitor.StartAll true false]
                  (BackgroundMonitor.serve o) BackgroundMonitor.fresh_world) in
  let w' := fst (for_each [BackgroundMonitor.Start 1; BackgroundMonitor.Start 0;
                           BackgroundMonitor.Stop 0;
                           BackgroundMonitor.StartAll true true;
                           BackgroundMonitor.StartAll false false]
                   (BackgroundMonitor.serve o) w) in
  NoDup (BackgroundMonitor._instances w')
  /\ BackgroundMonitor._main_process w' = Some 101.
Proof.
  intros o w w'.
  destruct (run_keeps_registry o
              [BackgroundMonitor.Start 1; BackgroundMonitor.Start 0;
               BackgroundMonitor.Stop 0;
               BackgroundMonitor.StartAll true true;
               BackgroundMonitor.StartAll false false] w) as [H1 H2].
  - apply NoDup_cons. split; [|apply NoDup_singleton].
    by intros Hin%list_elem_of_singleton.
  - split; [exact H1|]. apply H2. by eexists.
Defined.

(** ** [BackgroundMonitor]: the worker's entry point *)
Section Bootstrap.
Import BackgroundMonitor.
Variable o : os.
Variable b : bootstrap.
Implicit Types (w : world) (events : list boot_event) (self d tid : nat).

Lemma joins_app events events' : joins (events ++ events') = joins events ++ joins events'.
Proof. apply omap_app. Qed.

Lemma launchings_app events events' :
  launchings (events ++ events') = launchings events ++ launchings events'.
Proof. apply omap_app. Qed.

Lemma lift_returns {A} (m : prog world A) w w' events (a : A) :
  m w = (w', Ret a) -> lift m (w, events) = ((w', events), Ret a).
Proof. intros H. unfold lift. simpl. by rewrite H. Qed.

Lemma say_returns (e : boot_event) w events :
  say e (w, events) = ((w, events ++ [e]), Ret tt).
Proof. reflexivity. Qed.

(** The loop that starts the threads, beside the loop of [start_all]. *)
Lemma launch_all (l : list nat) : forall w events,
  for_each l (fun d => say (Printed_LAUNCHING d) ;; lift (_start d)) (w, events)
  = ((fst (for_each l _start w), events ++ map Printed_LAUNCHING l), Ret tt).
Proof.
  induction l as [|d l IH]; intros w events.
  - simpl. by rewrite app_nil_r.
  - change (for_each (d :: l) _start w)
      with ((_start d ;; for_each l _start) w).
    rewrite (bind_returns _ _ _ _ _ (_start_effect w d)).
    change (for_each (d :: l)
              (fun d => say (Printed_LAUNCHING d) ;; lift (_start d)) (w, events))
      with (((say (Printed_LAUNCHING d) ;; lift (_start d)) ;;
             for_each l (fun d => say (Printed_LAUNCHING d) ;; lift (_start d)))
              (w, events)).
    rewrite bind_assoc.
    rewrite (bind_returns _ _ _ _ _ (say_returns _ w events)).
    rewrite (bind_returns _ _ _ _ _
               (lift_returns _ _ _ _ _ (_start_effect w d))).
    rewrite IH, <- app_assoc. reflexivity.
Qed.

Lemma for_each__start_threads (l : list nat) w :
  threads (fst (for_each l _start w)) = threads w + length l.
Proof.
  revert w. induction l as [|d l IH]; intros w; simpl; [lia|].
  rewrite (bind_returns _ _ _ _ _ (_start_effect w d)), IH. simpl. lia.
Qed.

Lemma join_all_cons i (l : list nat) w events :
  join_all o b (i :: l) (w, events)
  = match _thread (obj w i) with
    | ThreadObj tid =>
        if thread_is_alive o tid then
          match join b tid with
          | ThreadEnded => join_all o b l (w, events ++ [Join tid])
          | Interrupted _ =>
              ((w, events ++ [Join tid; Printed_Killed i]), Ret tt)
          | Never => ((w, events ++ [Join tid]), Block)
          end
        else join_all o b l (w, events ++ [Printed_Skipping i])
    | Marked => join_all o b l (w, events ++ [Printed_FAILED])
    | NoThread => join_all o b l (w, events ++ [Printed_Skipping i])
    end.
Proof.
  simpl. unfold bind at 1, read at 1. simpl.
  destruct (_thread (obj w i)) as [| |tid]; try reflexivity.
  destruct (thread_is_alive o tid); [|reflexivity].
  unfold bind at 1, say at 1, modify at 1. simpl.
  destruct (join b tid); try reflexivity.
  unfold say, modify. simpl. by rewrite <- app_assoc.
Qed.

(** The loop that waits for the threads never raises and changes no
    monitor; it adds only events of its own, and it returns unless it
    joins a thread that never ends. *)
Lemma join_all_ends (l : list nat) : forall w events,
  exists events',
    join_all o b l (w, events)
    = ((w, events ++ events'),
       if existsb (join_hangs b) (joins events') then Block else Ret tt)
    /\ Forall (fun e => is_join_phase e = true) events'.
Proof.
  induction l as [|i l IH]; intros w events.
  - exists []. simpl. by rewrite app_nil_r.
  - rewrite join_all_cons.
    assert (Hnext : forall e,
              is_join_phase e = true ->
              existsb (join_hangs b) (joins [e]) = false ->
              exists events',
                join_all o b l (w, events ++ [e])
                = ((w, events ++ events'),
                   if existsb (join_hangs b) (joins events')
                   then Block else Ret tt)
                /\ Forall (fun e => is_join_phase e = true) events').
    { intros e He Hquiet. destruct (IH w (events ++ [e])) as (ev' & -> & Hev').
      exists (e :: ev'). rewrite <- app_assoc. split; [|by constructor].
      change (e :: ev') with ([e] ++ ev').
      by rewrite joins_app, existsb_app, Hquiet. }
    destruct (_thread (obj w i)) as [| |tid]; [by apply Hnext..|].
    destruct (thread_is_alive o tid); [|by apply Hnext].
    destruct (join b tid) as [|e|] eqn:Hjoin.
    + apply Hnext; [done|]. simpl. unfold join_hangs. by rewrite Hjoin.
    + exists [Join tid; Printed_Killed i]. split; [|by repeat constructor].
      simpl. unfold join_hangs. by rewrite Hjoin.
    + exists [Join tid]. split; [|by repeat constructor].
      simpl. unfold join_hangs. by rewrite Hjoin.
Qed.

(** With the [k]-th monitor of the list holding thread [t0 + k], the
    threads joined are the living ones, in order, up to the first whose
    [join] does not return. *)
Lemma join_all_order (l : list nat) : forall w events t0,
  (forall k d, l !! k = Some d -> _thread (obj w d) = ThreadObj (t0 + k)) ->
  joins (snd (fst (join_all o b l (w, events))))
  = joins events
    ++ up_to_first (fun tid => negb (join_returns b tid))
         (List.filter (thread_is_alive o) (seq t0 (length l))).
Proof.
  induction l as [|i l IH]; intros w events t0 Hthreads.
  - simpl. by rewrite app_nil_r.
  - rewrite join_all_cons.
    rewrite (Hthreads 0 i eq_refl), Nat.add_0_r.
    assert (Hrest : forall k d, l !! k = Some d ->
                      _thread (obj w d) = ThreadObj (S t0 + k)).
    { intros k d Hk. rewrite (Hthreads (S k) d Hk). f_equal. lia. }
    simpl. destruct (thread_is_alive o t0) eqn:Halive; simpl.
    + unfold join_returns at 1.
      destruct (join b t0) as [|e|] eqn:Hjoin; simpl.
      * rewrite (IH w _ (S t0) Hrest), joins_app. simpl.
        by rewrite <- app_assoc.
      * by rewrite joins_app.
      * by rewrite joins_app.
    + rewrite (IH w _ (S t0) Hrest), joins_app. simpl.
      by rewrite app_nil_r.
Qed.

Lemma for_each__start_registry (l : list nat) w :
  same_registry w (fst (for_each l _start w)).
Proof.
  revert w. induction l as [|d l IH]; intros w; simpl.
  - apply same_registry_refl.
  - rewrite (bind_returns _ _ _ _ _ (_start_effect w d)).
    eapply same_registry_trans; [|apply IH]. by repeat split.
Qed.

(** The state in which the entry point begins to wait for the threads. *)
Lemma bootstrap_unfold w :
  let w1 := fst (for_each (_instances w) _start w) in
  let started := bool_decide (is_Some (_sub_process_started w)) in
  let w2 := if started
            then set_sub_process_started (set <$> _sub_process_started w1) w1
            else w1 in
  _background_process_start o b (w, [])
  = (join_all o b (_instances w) ;; say (Printed_Done_monitoring (getpid o)))
      (w2, prologue o b ++ map Printed_LAUNCHING (_instances w)
           ++ (if started then [SubProcessStartedSet] else [])
           ++ [Printed_Start_3]).
Proof.
  intros w1 started w2.
  destruct (for_each__start_registry (_instances w) w) as (_ & _ & Hsub & Hinst).
  fold w1 in Hsub, Hinst.
  unfold _background_process_start, prologue.
  rewrite (bind_returns _ _ _ _ _ (say_returns _ w [])).
  unfold bind at 1.
  assert (Hdetach :
    try_except
      (match remove_at_exit_callbacks b with
       | Some e => raise e
       | None => say AtExitCallbacksRemoved
       end)
      (fun _ => Some (say Printed_register_at_exit_failed))
      (w, [] ++ [Printed_Start (getpid o)])
    = ((w, [Printed_Start (getpid o);
            match remove_at_exit_callbacks b with
            | Some _ => Printed_register_at_exit_failed
            | None => AtExitCallbacksRemoved
            end]), Ret tt)).
  { unfold try_except. by destruct (remove_at_exit_callbacks b). }
  rewrite Hdetach.
  rewrite (bind_returns _ _ _ _ _ (say_returns _ _ _)).
  unfold bind at 1.
  assert (Hsleep : forall events,
    when (is_debugger_running b) (say (Slept 3)) (w, events)
    = ((w, events ++ (if is_debugger_running b then [Slept 3] else [])), Ret tt)).
  { intros events. destruct (is_debugger_running b); simpl; [done|].
    unfold ret. by rewrite app_nil_r. }
  rewrite Hsleep.
  rewrite (bind_returns _ _ _ _ _ (say_returns _ _ _)).
  unfold bind at 1, read at 1. cbn [fst snd].
  unfold bind at 1. rewrite launch_all. fold w1.
  unfold bind at 1, read at 1. cbn [fst snd]. rewrite Hsub. fold started.
  unfold bind at 1.
  assert (Hsignal : forall events,
    when started
      (lift (modify (fun w => set_sub_process_started
                                (set <$> _sub_process_started w) w)) ;;
       say SubProcessStartedSet) (w1, events)
    = ((w2, events ++ (if started then [SubProcessStartedSet] else [])), Ret tt)).
  { intros events. unfold w2. destruct started; simpl; [done|].
    unfold ret. by rewrite app_nil_r. }
  rewrite Hsignal.
  rewrite (bind_returns _ _ _ _ _ (say_returns _ _ _)).
  unfold bind at 1, read at 1. cbn [fst snd].
  assert (Hinst2 : _instances w2 = _instances w).
  { unfold w2. by destruct started. }
  rewrite Hinst2. simpl. by rewrite <- !app_assoc.
Qed.

Lemma joins_prefix w :
  joins (prologue o b ++ map Printed_LAUNCHING (_instances w)
         ++ (if bool_decide (is_Some (_sub_process_started w))
             then [SubProcessStartedSet] else [])
         ++ [Printed_Start_3]) = [].
Proof.
  rewrite !joins_app.
  assert (Hl : forall l : list nat, joins (map Printed_LAUNCHING l) = []).
  { induction l; [done | by simpl]. }
  rewrite Hl. unfold prologue.
  destruct (remove_at_exit_callbacks b), (is_debugger_running b),
    (bool_decide (is_Some (_sub_process_started w))); reflexivity.
Qed.

End Bootstrap.

(** X17: the worker's entry point never raises, whatever the removal
    of the exit hooks and the joins raise: it returns, or it stays for
    ever in the join of a thread that never ends.  It prints its
    prologue, a line [LAUNCHING] for every registered monitor in the
    order of [_instances], sets the class event if there is one, prints
    [Start _background_process_start 3], then only events of the loop
    that waits for the threads, and, exactly when it returns,
    [Done monitoring].  It starts one thread for each registered monitor
    and leaves the monitors as [start_all(False)] would have. *)
Theorem background_process_start_ends (o : BackgroundMonitor.os)
    (b : BackgroundMonitor.bootstrap) (w : BackgroundMonitor.world) :
  exists w' waiting,
    BackgroundMonitor._background_process_start o b (w, [])
    = ((w', BackgroundMonitor.prologue o b
            ++ map BackgroundMonitor.Printed_LAUNCHING
                 (BackgroundMonitor._instances w)
            ++ (if bool_decide
                     (is_Some (BackgroundMonitor._sub_process_started w))
                then [BackgroundMonitor.SubProcessStartedSet] else [])
            ++ [BackgroundMonitor.Printed_Start_3]
            ++ waiting
            ++ (if existsb (BackgroundMonitor.join_hangs b)
                     (BackgroundMonitor.joins waiting)
                then []
                else [BackgroundMonitor.Printed_Done_monitoring
                        (BackgroundMonitor.getpid o)])),
       if existsb (BackgroundMonitor.join_hangs b)
            (BackgroundMonitor.joins waiting)
       then Block else Ret tt)
    /\ Forall (fun e => BackgroundMonitor.is_join_phase e = true) waiting
    /\ BackgroundMonitor._instances w' = BackgroundMonitor._instances w
    /\ BackgroundMonitor._sub_process_started w'
       = BackgroundMonitor.set <$> BackgroundMonitor._sub_process_started w
    /\ BackgroundMonitor.threads w'
       = BackgroundMonitor.threads w + length (BackgroundMonitor._instances w)
    /\ BackgroundMonitor.heap w'
       = BackgroundMonitor.heap
           (fst (BackgroundMonitor.start_all o false false w)).
Proof.
  pose proof (bootstrap_unfold o b w) as Hrun. cbv zeta in Hrun.
  destruct (for_each__start_registry (BackgroundMonitor._instances w) w)
    as (_ & _ & Hsub & Hinst).
  pose proof (for_each__start_threads (BackgroundMonitor._instances w) w)
    as Hthreads.
  change (BackgroundMonitor.start_all o false false w)
    with (for_each (BackgroundMonitor._instances w) BackgroundMonitor._start w).
  set (w1 := fst (for_each (BackgroundMonitor._instances w)
                    BackgroundMonitor._start w)) in *.
  set (w2 := if bool_decide (is_Some (BackgroundMonitor._sub_process_started w))
             then BackgroundMonitor.set_sub_process_started
                    (BackgroundMonitor.set
                       <$> BackgroundMonitor._sub_process_started w1) w1
             else w1) in *.
  destruct (join_all_ends o b (BackgroundMonitor._instances w) w2
              (BackgroundMonitor.prologue o b
               ++ map BackgroundMonitor.Printed_LAUNCHING
                    (BackgroundMonitor._instances w)
               ++ (if bool_decide
                        (is_Some (BackgroundMonitor._sub_process_started w))
                   then [BackgroundMonitor.SubProcessStartedSet] else [])
               ++ [BackgroundMonitor.Printed_Start_3]))
    as (waiting & Hjoin & Hwaiting).
  exists w2, waiting. split.
  { rewrite Hrun. unfold bind at 1. rewrite Hjoin.
    destruct (existsb _ _).
    - by rewrite app_nil_r, <- !app_assoc.
    - rewrite say_returns. by rewrite <- !app_assoc. }
  split; [exact Hwaiting|].
  unfold w2.
  destruct (BackgroundMonitor._sub_process_started w) as [ev|] eqn:Hev.
  - rewrite bool_decide_eq_true_2 by eauto. simpl.
    rewrite Hsub. by repeat split.
  - rewrite bool_decide_eq_false_2 by (by intros [? ?]).
    by repeat split.
Qed.

(** X18: when the registered monitors are objects, each registered
    once, the entry point joins the threads it has just started that are
    alive, in the order of [_instances], up to the first whose join does
    not return, be it interrupted or without end: a thread after that
    one is never joined.  The entry point returns unless the last thread
    it joins never ends. *)
Theorem background_process_start_join_order (o : BackgroundMonitor.os)
    (b : BackgroundMonitor.bootstrap) (w : BackgroundMonitor.world) :
  BackgroundMonitor.registered_ok w ->
  BackgroundMonitor.joins
    (snd (fst (BackgroundMonitor._background_process_start o b (w, []))))
  = BackgroundMonitor.up_to_first
      (fun tid => negb (BackgroundMonitor.join_returns b tid))
      (List.filter (BackgroundMonitor.thread_is_alive o)
         (seq (BackgroundMonitor.threads w)
            (length (BackgroundMonitor._instances w))))
  /\ snd (BackgroundMonitor._background_process_start o b (w, []))
     = if existsb (BackgroundMonitor.join_hangs b)
            (BackgroundMonitor.up_to_first
               (fun tid => negb (BackgroundMonitor.join_returns b tid))
               (List.filter (BackgroundMonitor.thread_is_alive o)
                  (seq (BackgroundMonitor.threads w)
                     (length (BackgroundMonitor._instances w)))))
       then Block else Ret tt.
Proof.
  intros [Hnodup Hobjects].
  pose proof (bootstrap_unfold o b w) as Hrun. cbv zeta in Hrun.
  destruct (start_threads (BackgroundMonitor._instances w) w Hnodup)
    as (w1' & Hstart & _ & _ & _ & _ & Hheap & _).
  rewrite Hstart in Hrun. cbn [fst] in Hrun.
  set (w2 := if bool_decide (is_Some (BackgroundMonitor._sub_process_started w))
             then BackgroundMonitor.set_sub_process_started
                    (BackgroundMonitor.set
                       <$> BackgroundMonitor._sub_process_started w1') w1'
             else w1') in *.
  assert (Hthreads : forall k d,
            BackgroundMonitor._instances w !! k = Some d ->
            BackgroundMonitor._thread (BackgroundMonitor.obj w2 d)
            = BackgroundMonitor.ThreadObj (BackgroundMonitor.threads w + k)).
  { intros k d Hk.
    destruct (Hobjects d) as [m Hm]; [by eapply list_elem_of_lookup_2|].
    assert (Hw2 : BackgroundMonitor.heap w2 = BackgroundMonitor.heap w1').
    { unfold w2. by destruct (bool_decide _). }
    unfold BackgroundMonitor.obj. rewrite Hw2.
    erewrite lookup_total_correct; [|by rewrite (Hheap k d Hk), Hm].
    reflexivity. }
  set (events := BackgroundMonitor.prologue o b
                 ++ map BackgroundMonitor.Printed_LAUNCHING
                      (BackgroundMonitor._instances w)
                 ++ (if bool_decide
                          (is_Some (BackgroundMonitor._sub_process_started w))
                     then [BackgroundMonitor.SubProcessStartedSet] else [])
                 ++ [BackgroundMonitor.Printed_Start_3]) in *.
  assert (Hpre : BackgroundMonitor.joins events = []).
  { unfold events. apply joins_prefix. }
  pose proof (join_all_order o b (BackgroundMonitor._instances w) w2 events
                (BackgroundMonitor.threads w) Hthreads) as Horder.
  destruct (join_all_ends o b (BackgroundMonitor._instances w) w2 events)
    as (waiting & Hjoin & _).
  rewrite Hjoin in Horder. cbn [fst snd] in Horder.
  rewrite joins_app, Hpre in Horder. simpl in Horder.
  rewrite Hrun. unfold bind at 1 2. rewrite Hjoin, <- Horder.
  destruct (existsb _ _); cbn [fst snd].
  - split; [|done]. by rewrite joins_app, Hpre.
  - rewrite say_returns. cbn [fst snd]. split; [|done].
    rewrite !joins_app, Hpre. simpl. by rewrite app_nil_r.
Qed.

(** Three monitors in a worker.  Killed while it joins the second
    thread, the entry point has joined the first two and returns; with
    threads that never end it joins the first and stays there. *)
Lemma background_process_start_join_order_witness :
  let w := fst (for_each [BackgroundMonitor.New 5; BackgroundMonitor.New 7;
                          BackgroundMonitor.New 9;
                          BackgroundMonitor.Start 0; BackgroundMonitor.Start 1;
                          BackgroundMonitor.Start 2;
                          BackgroundMonitor.StartAll true false]
                  (BackgroundMonitor.serve BackgroundMonitor.calm_os)
                  BackgroundMonitor.fresh_world) in
  BackgroundMonitor.registered_ok w
  /\ BackgroundMonitor.joins
       (snd (fst (BackgroundMonitor._background_process_start
                    (BackgroundMonitor.stop_at 0)
                    (BackgroundMonitor.rough_boot 1) (w, []))))
     = [0; 1]
  /\ snd (BackgroundMonitor._background_process_start
            (BackgroundMonitor.stop_at 0)
            (BackgroundMonitor.rough_boot 1) (w, [])) = Ret tt
  /\ BackgroundMonitor.joins
       (snd (fst (BackgroundMonitor._background_process_start
                    BackgroundMonitor.calm_os
                    BackgroundMonitor.hung_boot (w, []))))
     = [0]
  /\ snd (BackgroundMonitor._background_process_start
            BackgroundMonitor.calm_os
            BackgroundMonitor.hung_boot (w, [])) = Block.
Proof.
  intros w.
  assert (Hok : BackgroundMonitor.registered_ok w).
  { split.
    - apply NoDup_cons. split.
      { intros Hin. apply elem_of_cons in Hin as [Hin|Hin]; [done|].
        by apply list_elem_of_singleton in Hin. }
      apply NoDup_cons. split; [|apply NoDup_singleton].
      by intros Hin%list_elem_of_singleton.
    - intros self Hin.
      apply elem_of_cons in Hin as [->|Hin]; [by eexists|].
      apply elem_of_cons in Hin as [->|Hin]; [by eexists|].
      apply list_elem_of_singleton in Hin as ->. by eexists. }
  split; [exact Hok|].
  destruct (background_process_start_join_order
              (BackgroundMonitor.stop_at 0)
              (BackgroundMonitor.rough_boot 1) w Hok) as [Hjoins Hout].
  destruct (background_process_start_join_order
              BackgroundMonitor.calm_os
              BackgroundMonitor.hung_boot w Hok) as [Hjoins' Hout'].
  split; [exact Hjoins|]. split; [exact Hout|].
  split; [exact Hjoins' | exact Hout'].
Defined.
